(** * RudraProject newsletter generator: scoring and ranking pipeline

  A shallow embedding of the Python sources under [newsletter_generator/]
  ([models/user.py], [models/article.py], [article_processor.py],
  [utils/text_utils.py], [newsletter_generator.py]) and the properties
  of the relevance-ranking and content-scoring pipeline.

  Modelling conventions.
  - A Python [str] is a [string]; [str.lower], [str.isalpha],
    [str.isdigit] and the regular expression class [\s] are modelled
    on the ASCII range (other bytes are left alone / classified as
    neither letter, digit nor space).
  - A Python [float] is an exact rational [Qc]; division is the only
    float operation of the sources that can raise, and it is modelled
    as a partial operation ([Py.div]) so that [ZeroDivisionError] is
    visible as [None].
  - A Python [int] that the caller chooses (a size limit) is a [Z];
    a number that the code counts ([len], [sum(1 for ...)]) is a [nat].
  - A [dict] keyed by strings is a [gmap string _]; where the code
    depends on the iteration order of a dict ([max] over
    [category_scores.items()], [Counter.most_common]) it is an
    association list in insertion order.
  - NLTK ([word_tokenize], [sent_tokenize], the WordNet lemmatizer, the
    stop-word corpus), scikit-learn's vectorizer and [datetime] are not
    code of this repository: each is an interface (a type class) and
    the definitions that call the library take an instance of it. *)

From Stdlib Require Import ZArith QArith Qcanon String Ascii List Lia Lqa.
From stdpp Require Import base option list strings gmap sorting.

(** ** Python built-ins used by the sources *)

Module Py.

Local Open Scope Qc_scope.

(** [int -> float] *)
Definition of_nat (n : nat) : Qc := Qc_of_Z (Z.of_nat n).

(** [a / b] on floats: raises [ZeroDivisionError] when [b] is zero. *)
Definition div (a b : Qc) : option Qc :=
  if decide (b = 0) then None else Some (a / b).

(** [min(a, b)]: the first of the two unless the second is strictly
    smaller. *)
Definition min (a b : Qc) : Qc := if decide (b < a) then b else a.

(** [max(a, b)]: the first of the two unless the second is strictly
    larger. *)
Definition max (a b : Qc) : Qc := if decide (a < b) then b else a.

(** [c.lower()] for one character. *)
Definition lower_ascii (c : ascii) : ascii :=
  let n := nat_of_ascii c in
  if bool_decide (65 ≤ n ≤ 90)%nat then ascii_of_nat (n + 32) else c.

(** [s.lower()] *)
Fixpoint lower (s : string) : string :=
  match s with
  | EmptyString => EmptyString
  | String c s' => String (lower_ascii c) (lower s')
  end.

(** [needle in hay] on strings: substring test. *)
Fixpoint contains (needle hay : string) : bool :=
  if String.prefix needle hay then true
  else match hay with
       | EmptyString => false
       | String _ hay' => contains needle hay'
       end.

(** [sum(1 for x in xs if p(x))] *)
Definition count {A} (p : A → bool) (xs : list A) : nat :=
  length (List.filter p xs).

(** [any(p(x) for x in xs)] *)
Definition any {A} (p : A → bool) (xs : list A) : bool := existsb p xs.

(** [c.isspace()] for one character; also the class [\s] of [re]. *)
Definition isspace_ascii (c : ascii) : bool :=
  let n := nat_of_ascii c in
  bool_decide (9 ≤ n ≤ 13 ∨ 28 ≤ n ≤ 32)%nat.

Definition isalpha_ascii (c : ascii) : bool :=
  let n := nat_of_ascii c in
  bool_decide (65 ≤ n ≤ 90 ∨ 97 ≤ n ≤ 122)%nat.

Definition isdigit_ascii (c : ascii) : bool :=
  let n := nat_of_ascii c in
  bool_decide (48 ≤ n ≤ 57)%nat.

Fixpoint all_chars (p : ascii → bool) (s : string) : bool :=
  match s with
  | EmptyString => true
  | String c s' => p c && all_chars p s'
  end.

(** [s.isalpha()]: at least one character, all of them letters. *)
Definition isalpha (s : string) : bool :=
  negb (bool_decide (s = "")) && all_chars isalpha_ascii s.

(** [s.isdigit()]: at least one character, all of them digits. *)
Definition isdigit (s : string) : bool :=
  negb (bool_decide (s = "")) && all_chars isdigit_ascii s.

(** [string.punctuation], the 32 ASCII punctuation characters in
    increasing order of their code. *)
Definition punctuation : string :=
  string_of_list_ascii
    (ascii_of_nat <$> (seq 33 15 ++ seq 58 7 ++ seq 91 6 ++ seq 123 4)).

(** A token made of punctuation characters only. *)
Definition is_punctuation (s : string) : bool :=
  negb (bool_decide (s = ""))
  && all_chars (λ c, contains (String c EmptyString) punctuation) s.

(** [sep.join(parts)] *)
Fixpoint join (sep : string) (parts : list string) : string :=
  match parts with
  | [] => ""
  | [p] => p
  | p :: rest => p +:+ sep +:+ join sep rest
  end.

(** [l[:n]] *)
Definition slice_to {A} (n : Z) (l : list A) : list A :=
  if decide (n < 0)%Z then take (length l - Z.to_nat (- n)) l
  else take (Z.to_nat n) l.

(** [sorted(l, key=key, reverse=True)]: a stable sort, the elements
    with the largest key first and elements with equal keys in the
    order of [l]. *)
Fixpoint insert_desc {A} (key : A → Qc) (x : A) (l : list A) : list A :=
  match l with
  | [] => [x]
  | y :: l' =>
      if decide (key x < key y) then y :: insert_desc key x l'
      else x :: l
  end.

Definition sorted_desc {A} (key : A → Qc) (l : list A) : list A :=
  foldr (insert_desc key) [] l.

(** The order of the result: [a] may stand before [b] when the key of
    [b] is not larger than the key of [a]. *)
Definition desc {A} (key : A → Qc) (a b : A) : Prop := key b ≤ key a.

(** [l.sort()] on a list of indices. *)
Definition sort_nat (l : list nat) : list nat := merge_sort (≤)%nat l.

(** [collections.Counter]: the counted elements in the order of their
    first occurrence, each with its count. *)
Fixpoint counter_incr (w : string) (c : list (string * nat))
    : list (string * nat) :=
  match c with
  | [] => [(w, 1%nat)]
  | (k, n) :: c' =>
      if decide (k = w) then (k, S n) :: c' else (k, n) :: counter_incr w c'
  end.

Definition Counter (ws : list string) : list (string * nat) :=
  foldl (λ c w, counter_incr w c) [] ws.

(** [c.get(w, 0)] *)
Fixpoint counter_get (c : list (string * nat)) (w : string) : nat :=
  match c with
  | [] => 0%nat
  | (k, n) :: c' => if decide (k = w) then n else counter_get c' w
  end.

(** [[w for w, _ in c.most_common(n)]]: [heapq.nlargest] returns the
    empty list for [n <= 0] and otherwise the first [n] elements of
    [sorted(c.items(), key=count, reverse=True)]. *)
Definition most_common (n : Z) (c : list (string * nat)) : list string :=
  fst <$> take (Z.to_nat n) (sorted_desc (λ kv, of_nat kv.2) c).

(** [re.split(r'(?<=[.!?])\s+', text)]: a separator is a maximal run
    of white space that directly follows one of [.], [!], [?].  [cur]
    is the piece being read, last character first; [in_sep] tells
    that a separator is being consumed. *)
Definition is_sentence_end (c : ascii) : bool :=
  bool_decide (c = "." ∨ c = "!" ∨ c = "?")%char.

Definition ends_sentence (cur : string) : bool :=
  match cur with
  | String c _ => is_sentence_end c
  | EmptyString => false
  end.

Fixpoint split_sentences_from (in_sep : bool) (cur : string) (s : string)
    : list string :=
  match s with
  | EmptyString => [String.rev cur]
  | String c s' =>
      if isspace_ascii c && in_sep then split_sentences_from true cur s'
      else if isspace_ascii c && ends_sentence cur then
        String.rev cur :: split_sentences_from true "" s'
      else split_sentences_from false (String c cur) s'
  end.

Definition split_sentences (text : string) : list string :=
  split_sentences_from false "" text.

End Py.

(** ** models/user.py *)

Module User.

Local Open Scope Qc_scope.

Record t := mk {
  id : string;
  name : string;
  email : string;
  interests : list string;
  preferred_sources : list string;
  content_weights : gmap string Qc;
  newsletter_frequency : string;
  max_articles_per_newsletter : Z;
  preferred_categories : list string;
  excluded_keywords : list string;
  language : string;
  location : option string;
  persona : option string
}.

(** [any(term.lower() in keyword.lower() for term in terms)] *)
Definition keyword_matches (terms : list string) (keyword : string) : bool :=
  Py.any (λ term, Py.contains (Py.lower term) (Py.lower keyword)) terms.

(** [interest_match]: the number of article keywords matching an
    interest of the user. *)
Definition interest_match (self : t) (article_keywords : list string) : nat :=
  Py.count (keyword_matches (interests self)) article_keywords.

(** [excluded_match]: the number of article keywords matching an
    excluded keyword of the user. *)
Definition excluded_match (self : t) (article_keywords : list string) : nat :=
  Py.count (keyword_matches (excluded_keywords self)) article_keywords.

(** [if interest_match > 0:
       score += min(interest_match / len(self.interests), 1.0) * 1.5] *)
Definition add_interest_score (self : t) (article_keywords : list string)
    (score : Qc) : option Qc :=
  let m := interest_match self article_keywords in
  if bool_decide (0 < m)%nat then
    r ← Py.div (Py.of_nat m) (Py.of_nat (length (interests self)));
    Some (score + Py.min r 1 * Q2Qc (3 # 2))
  else Some score.

(** [min(excluded_match, 1.0) * 0.5] *)
Definition excluded_penalty (m : nat) : Qc :=
  Py.min (Py.of_nat m) 1 * Q2Qc (1 # 2).

(** [if excluded_match > 0: score -= min(excluded_match, 1.0) * 0.5] *)
Definition sub_excluded_penalty (self : t) (article_keywords : list string)
    (score : Qc) : Qc :=
  let m := excluded_match self article_keywords in
  if bool_decide (0 < m)%nat then score - excluded_penalty m else score.

Definition matches_article (self : t) (article_keywords : list string)
    (source category : string) : option Qc :=
  let score : Qc := 0 in
  let max_score : Qc := Q2Qc 4 in
  let score :=
    if bool_decide (source ∈ preferred_sources self) then score + 1 else score in
  let score :=
    if bool_decide (category ∈ preferred_categories self) then score + 1 else score in
  score ← add_interest_score self article_keywords score;
  let score := sub_excluded_penalty self article_keywords score in
  r ← Py.div score max_score;
  Some (Py.max 0 (Py.min r 1)).

End User.

(** ** External libraries

  [datetime] of the Python standard library, NLTK and scikit-learn are
  used by the sources through the operations below. *)

Class Datetime := {
datetime : Type;
(** [d.isoformat()] *)
isoformat : datetime → string;
(** [datetime.fromisoformat(s)]; [None] stands for [ValueError]. *)
fromisoformat : string → option datetime
}.

Class Nltk := {
(** [nltk.tokenize.word_tokenize] *)
word_tokenize : string → list string;
(** [nltk.tokenize.sent_tokenize] *)
sent_tokenize : string → list string;
(** [WordNetLemmatizer().lemmatize] *)
lemmatize : string → string;
(** [stopwords.words('english')] *)
stopwords_english : list string
}.

Class Sklearn := {
(** [TfidfVectorizer.fit_transform]; the matrix it returns is never
    read by the sources, [None] stands for a raised exception. *)
fit_transform : list string → option unit
}.

(** ** models/article.py *)

Module Article.
Section WithDatetime.

Context `{Datetime}.

Record t := mk {
  id : string;
  title : string;
  url : string;
  source : string;
  published_date : datetime;
  content : string;
  category : string;
  author : option string;
  image_url : option string;
  keywords : list string;
  summary : option string;
  sentiment_score : Qc;
  relevance_scores : gmap string Qc
}.

(** The values stored in the dictionary form of an article. *)
Inductive value :=
| VNone
| VStr (s : string)
| VFloat (x : Qc)
| VList (l : list string)
| VDict (m : gmap string Qc)
| VDatetime (d : datetime).

Definition of_optional (o : option string) : value :=
  match o with Some s => VStr s | None => VNone end.

Definition to_dict (self : t) : gmap string value :=
  <["id" := VStr (id self)]> $
  <["title" := VStr (title self)]> $
  <["url" := VStr (url self)]> $
  <["source" := VStr (source self)]> $
  <["published_date" := VStr (isoformat (published_date self))]> $
  <["content" := VStr (content self)]> $
  <["category" := VStr (category self)]> $
  <["author" := of_optional (author self)]> $
  <["image_url" := of_optional (image_url self)]> $
  <["keywords" := VList (keywords self)]> $
  <["summary" := of_optional (summary self)]> $
  <["sentiment_score" := VFloat (sentiment_score self)]> $
  <["relevance_scores" := VDict (relevance_scores self)]> ∅.

(** Reading a dictionary entry at the type the dataclass declares for
    the field.  Python stores whatever object the dictionary holds; the
    record can only hold a value of the declared type, so an entry of
    another type ends the construction ([None]). *)
Definition as_str (v : value) : option string :=
  match v with VStr s => Some s | _ => None end.
Definition as_optional (v : value) : option (option string) :=
  match v with VNone => Some None | VStr s => Some (Some s) | _ => None end.
Definition as_float (v : value) : option Qc :=
  match v with VFloat x => Some x | _ => None end.
Definition as_list (v : value) : option (list string) :=
  match v with VList l => Some l | _ => None end.
Definition as_dict (v : value) : option (gmap string Qc) :=
  match v with VDict m => Some m | _ => None end.

(** [data[key]]: [None] stands for [KeyError]. *)
Definition getitem (data : gmap string value) (key : string) : option value :=
  data !! key.

(** [data.get(key, dflt)] *)
Definition get (data : gmap string value) (key : string) (dflt : value) : value :=
  default dflt (data !! key).

Definition from_dict (data : gmap string value) : option t :=
  raw ← getitem data "published_date";
  pub_date ← match raw with
             | VStr s => fromisoformat s
             | VDatetime d => Some d
             | _ => None
             end;
  id ← getitem data "id" ≫= as_str;
  title ← getitem data "title" ≫= as_str;
  url ← getitem data "url" ≫= as_str;
  source ← getitem data "source" ≫= as_str;
  content ← getitem data "content" ≫= as_str;
  category ← as_str (get data "category" (VStr "general"));
  author ← as_optional (get data "author" VNone);
  image_url ← as_optional (get data "image_url" VNone);
  keywords ← as_list (get data "keywords" (VList []));
  summary ← as_optional (get data "summary" VNone);
  sentiment_score ← as_float (get data "sentiment_score" (VFloat 0));
  relevance_scores ← as_dict (get data "relevance_scores" (VDict ∅));
  Some (mk id title url source pub_date content category author image_url
           keywords summary sentiment_score relevance_scores).

(** [self.relevance_scores[user_id] = score] *)
Definition add_user_relevance (self : t) (user_id : string) (score : Qc) : t :=
  mk (id self) (title self) (url self) (source self) (published_date self)
     (content self) (category self) (author self) (image_url self)
     (keywords self) (summary self) (sentiment_score self)
     (<[user_id := score]> (relevance_scores self)).

(** The four assignments of [process_articles] to one article. *)
Definition set_keywords (self : t) (v : list string) : t :=
  mk (id self) (title self) (url self) (source self) (published_date self)
     (content self) (category self) (author self) (image_url self)
     v (summary self) (sentiment_score self) (relevance_scores self).
Definition set_category (self : t) (v : string) : t :=
  mk (id self) (title self) (url self) (source self) (published_date self)
     (content self) v (author self) (image_url self)
     (keywords self) (summary self) (sentiment_score self) (relevance_scores self).
Definition set_sentiment_score (self : t) (v : Qc) : t :=
  mk (id self) (title self) (url self) (source self) (published_date self)
     (content self) (category self) (author self) (image_url self)
     (keywords self) (summary self) v (relevance_scores self).
Definition set_summary (self : t) (v : string) : t :=
  mk (id self) (title self) (url self) (source self) (published_date self)
     (content self) (category self) (author self) (image_url self)
     (keywords self) (Some v) (sentiment_score self) (relevance_scores self).

End WithDatetime.
End Article.

(** ** article_processor.py *)

Module ArticleProcessor.

Local Open Scope Qc_scope.

(** An ordered [dict] from strings to counts. *)
Abbreviation odict := (list (string * nat)).

Record t := mk {
  categories : list string;
  keyword_min_length : Z;
  keyword_max_count : Z;
  summarize_length : Z;
  category_keywords : list (string * gset string)
}.

Definition _initialize_category_keywords : list (string * gset string) :=
  [ ("technology", list_to_set
      [ "tech"; "technology"; "ai"; "artificial"; "intelligence"; "software";
        "app"; "application"; "computer"; "digital"; "internet"; "web";
        "cyber"; "security"; "data"; "analytics"; "cloud"; "blockchain";
        "programming"; "algorithm"; "mobile"; "smartphone"; "device";
        "hardware"; "robot"; "automation"; "startup"; "innovation";
        "computing"; "virtual"; "augmented"; "reality" ]);
    ("business", list_to_set
      [ "business"; "company"; "corporation"; "market"; "stock"; "finance";
        "economy"; "economic"; "investment"; "investor"; "profit"; "revenue";
        "startup"; "entrepreneur"; "ceo"; "executive"; "management"; "strategy";
        "acquisition"; "merger"; "venture"; "capital"; "funding"; "growth";
        "industry"; "sector"; "commercial"; "trade"; "banking"; "financial" ]);
    ("politics", list_to_set
      [ "politics"; "political"; "government"; "election"; "campaign"; "vote";
        "voter"; "president"; "congress"; "senate"; "house"; "representative";
        "democrat"; "republican"; "liberal"; "conservative"; "policy"; "law";
        "legislation"; "regulation"; "parliament"; "minister"; "cabinet";
        "leader"; "party"; "candidate"; "bill"; "diplomat"; "foreign"; "nation" ]);
    ("entertainment", list_to_set
      [ "entertainment"; "movie"; "film"; "cinema"; "actor"; "actress"; "star";
        "celebrity"; "music"; "song"; "album"; "concert"; "perform"; "singer";
        "band"; "television"; "tv"; "show"; "series"; "episode"; "streaming";
        "award"; "festival"; "director"; "producer"; "studio"; "hollywood";
        "game"; "gaming"; "theater"; "stage"; "comedy"; "drama" ]);
    ("health", list_to_set
      [ "health"; "medical"; "medicine"; "doctor"; "hospital"; "patient";
        "disease"; "condition"; "treatment"; "therapy"; "drug"; "research";
        "study"; "scientist"; "healthcare"; "mental"; "physical"; "fitness";
        "exercise"; "diet"; "nutrition"; "wellness"; "healthy"; "vaccine";
        "virus"; "pandemic"; "epidemic"; "public"; "emergency"; "care" ]);
    ("science", list_to_set
      [ "science"; "scientific"; "research"; "study"; "discovery"; "scientist";
        "experiment"; "laboratory"; "theory"; "hypothesis"; "physics"; "chemistry";
        "biology"; "astronomy"; "space"; "planet"; "star"; "galaxy"; "universe";
        "climate"; "environment"; "energy"; "renewable"; "sustainable"; "species";
        "evolution"; "genetic"; "dna"; "molecule"; "atom"; "particle" ]);
    ("sports", list_to_set
      [ "sport"; "sports"; "game"; "match"; "player"; "team"; "coach"; "league";
        "championship"; "tournament"; "competition"; "athlete"; "olympic"; "medal";
        "football"; "soccer"; "baseball"; "basketball"; "tennis"; "golf"; "racing";
        "formula"; "hockey"; "rugby"; "cricket"; "boxing"; "swimming"; "track";
        "field"; "fitness"; "stadium"; "fan"; "victory"; "defeat" ]);
    ("world", list_to_set
      [ "world"; "international"; "global"; "foreign"; "country"; "nation";
        "war"; "conflict"; "peace"; "military"; "army"; "troops"; "treaty";
        "agreement"; "diplomat"; "embassy"; "ambassador"; "border"; "refugee";
        "immigration"; "trade"; "sanction"; "united"; "nations"; "europe";
        "asia"; "africa"; "america"; "middle"; "east"; "crisis" ]);
    ("general", list_to_set
      [ "news"; "report"; "update"; "information"; "event"; "development";
        "situation"; "issue"; "matter"; "topic"; "story"; "article"; "coverage";
        "press"; "media"; "daily"; "weekly"; "monthly"; "latest"; "breaking";
        "current"; "today"; "yesterday"; "tomorrow"; "week"; "month"; "year" ]) ].

Definition default_categories : list string :=
  [ "technology"; "business"; "politics"; "entertainment";
    "health"; "science"; "sports"; "world"; "general" ].

(** [__init__]; [categories or [...]] takes the default list for
    [None] and for the empty list. *)
Definition __init__ (categories : option (list string))
    (keyword_min_length keyword_max_count summarize_length : Z) : t :=
  mk (match categories with
      | None | Some [] => default_categories
      | Some cs => cs
      end)
     keyword_min_length keyword_max_count summarize_length
     _initialize_category_keywords.

(** [ArticleProcessor()] *)
Definition new : t := __init__ None 3 15 3.

(** [{category: 0 for category in categories}] *)
Definition zero_scores (categories : list string) : odict :=
  foldl (λ d c, if bool_decide (c ∈ d.*1) then d else d ++ [(c, 0%nat)])
        [] categories.

(** [d[k] += 1]; [None] stands for [KeyError]. *)
Fixpoint dict_incr (k : string) (d : odict) : option odict :=
  match d with
  | [] => None
  | (k', n) :: d' =>
      if decide (k' = k) then Some ((k', S n) :: d')
      else d'' ← dict_incr k d'; Some ((k', n) :: d'')
  end.

(** A [for] loop whose body may raise. *)
Fixpoint for_each {A S} (body : S → A → option S) (s : S) (l : list A)
    : option S :=
  match l with
  | [] => Some s
  | x :: l' => s' ← body s x; for_each body s' l'
  end.

(** [max(values, default=0)] *)
Definition max_value (values : list nat) : nat := foldr Nat.max 0%nat values.

(** [max(items, key=lambda x: x[1])]: the first item with the largest
    value. *)
Fixpoint max_item_from (best : string * nat) (items : odict) : string * nat :=
  match items with
  | [] => best
  | x :: items' =>
      max_item_from (if decide (best.2 < x.2)%nat then x else best) items'
  end.

Definition max_item (items : odict) : option (string * nat) :=
  match items with
  | [] => None
  | x :: items' => Some (max_item_from x items')
  end.

Definition score_keyword (lexicons : list (string * gset string))
    (scores : odict) (keyword : string) : option odict :=
  for_each (λ scores '(category, cat_keywords),
              if bool_decide (keyword ∈ cat_keywords)
              then dict_incr category scores else Some scores)
           scores lexicons.

Definition categorize_article (self : t) (content : string)
    (keywords : list string) : option string :=
  let category_scores := zero_scores (categories self) in
  category_scores ←
    for_each (score_keyword (category_keywords self)) category_scores keywords;
  if decide (max_value category_scores.*2 = 0%nat) then Some "general"
  else fst <$> max_item category_scores.

Definition positive_words : gset string :=
  list_to_set
    [ "good"; "great"; "excellent"; "positive"; "amazing"; "wonderful";
      "fantastic"; "terrific"; "outstanding"; "superb"; "brilliant";
      "success"; "successful"; "beneficial"; "advantage"; "innovative" ].

Definition negative_words : gset string :=
  list_to_set
    [ "bad"; "terrible"; "poor"; "negative"; "awful"; "horrible";
      "disappointing"; "failure"; "failed"; "problem"; "disaster";
      "crisis"; "dangerous"; "threat"; "risk"; "concern" ].

(** The lexicon the table gives for a category (empty when the table
    has no entry), and the score the specification assigns to the
    category: the number of keywords found in its lexicon. *)
Fixpoint lexicon_of (lexicons : list (string * gset string)) (category : string)
    : gset string :=
  match lexicons with
  | [] => ∅
  | (c, lexicon) :: rest =>
      if decide (c = category) then lexicon else lexicon_of rest category
  end.

Definition overlap (self : t) (category : string) (keywords : list string) : nat :=
  Py.count (λ keyword,
              bool_decide (keyword ∈ lexicon_of (category_keywords self) category))
           keywords.

(** A score table given by a function of the category:
    [scores_of f cats] is the ordered dictionary holding [f c] for
    each [c] of [cats]. *)
Definition scores_of (f : string → nat) (cats : list string) : odict :=
  (λ c, (c, f c)) <$> cats.

Section WithNltk.

Context `{Nltk}.

(** The test applied to a token before it is lemmatized. *)
Definition keep_token (self : t) (token : string) : bool :=
  negb (bool_decide (token ∈ stopwords_english))
  && negb (Py.contains token Py.punctuation)
  && bool_decide (keyword_min_length self ≤ Z.of_nat (String.length token))%Z
  && negb (Py.isdigit token).

Definition extract_keywords (self : t) (text : string) : list string :=
  let tokens := word_tokenize (Py.lower text) in
  let filtered_tokens := lemmatize <$> List.filter (keep_token self) tokens in
  let token_counts := Py.Counter filtered_tokens in
  Py.most_common (keyword_max_count self) token_counts.

(** The words of a text: its alphabetic tokens. *)
Definition words_of (text : string) : list string :=
  List.filter Py.isalpha (word_tokenize (Py.lower text)).

Definition pos_count (text : string) : nat :=
  Py.count (λ word, bool_decide (word ∈ positive_words)) (words_of text).

Definition neg_count (text : string) : nat :=
  Py.count (λ word, bool_decide (word ∈ negative_words)) (words_of text).

Definition analyze_sentiment (self : t) (text : string) : option Qc :=
  let total := (pos_count text + neg_count text)%nat in
  if decide (total = 0%nat) then Some 0
  else Py.div (Qc_of_Z (Z.of_nat (pos_count text) - Z.of_nat (neg_count text)))
              (Py.of_nat total).

Definition _calculate_word_frequencies (self : t) (text : string) : odict :=
  let words := word_tokenize (Py.lower text) in
  let filtered_words :=
    List.filter (λ word, Py.isalpha word
                         && negb (bool_decide (word ∈ stopwords_english)))
                words in
  Py.Counter filtered_words.

(** The body of the scoring loop: [scores[i]] for one sentence. *)
Definition sentence_score (word_freq : odict) (sentence : string) : option Qc :=
  let words := word_tokenize (Py.lower sentence) in
  let score :=
    foldr Nat.add 0%nat (Py.counter_get word_freq <$> List.filter Py.isalpha words) in
  if bool_decide (0 < length words)%nat
  then Py.div (Py.of_nat score) (Py.of_nat (length words))
  else Some 0.

(** [scores]: the keys are the sentence indices [0 .. len-1], inserted
    in that order, so the dictionary is the list of its values. *)
Definition sentence_scores (word_freq : odict) (sentences : list string)
    : option (list Qc) :=
  mapM (sentence_score word_freq) sentences.

(** [sorted(scores, key=scores.get, reverse=True)[:n]] followed by
    [top_indices.sort()]. *)
Definition top_indices (n : Z) (scores : list Qc) : list nat :=
  let ranked :=
    Py.sorted_desc (λ i, default 0 (scores !! i)) (seq 0 (length scores)) in
  Py.sort_nat (Py.slice_to n ranked).

Definition generate_summary (self : t) (text : string) : option string :=
  let sentences := Py.split_sentences text in
  if decide (sentences = []) then Some ""
  else if decide (Z.of_nat (length sentences) ≤ summarize_length self)%Z
  then Some text
  else
    let word_freq := _calculate_word_frequencies self text in
    scores ← sentence_scores word_freq sentences;
    let top := top_indices (summarize_length self) scores in
    summary_sentences ← mapM (λ i, sentences !! i) top;
    Some (Py.join " " summary_sentences).

End WithNltk.
End ArticleProcessor.

(** ** article_processor.py: the batch operations on articles *)

Module Pipeline.
Section WithLibraries.

Context `{Datetime} `{Nltk} `{Sklearn}.

(** The four stages applied to one article, as written in each of the
    three loops of [process_articles]; [None] stands for an exception
    raised by a stage. *)
Definition enrich (self : ArticleProcessor.t) (article : Article.t)
    : option Article.t :=
  let keywords := ArticleProcessor.extract_keywords self (Article.content article) in
  let article := Article.set_keywords article keywords in
  category ← ArticleProcessor.categorize_article self
                (Article.content article) (Article.keywords article);
  let article := Article.set_category article category in
  sentiment ← ArticleProcessor.analyze_sentiment self (Article.content article);
  let article := Article.set_sentiment_score article sentiment in
  summary ← ArticleProcessor.generate_summary self (Article.content article);
  let article := Article.set_summary article summary in
  Some article.

(** A loop over the articles whose body is wrapped in [try]/[except]:
    an article whose processing raises is logged and left out. *)
Definition enrich_each (self : ArticleProcessor.t) (articles : list Article.t)
    : list Article.t :=
  omap (enrich self) articles.

Definition process_articles (self : ArticleProcessor.t)
    (articles : list Article.t) : list Article.t :=
  match articles with
  | [] => []
  | article :: _ =>
      let contents := Article.content <$> articles in
      if bool_decide (1 < length contents)%nat then
        match fit_transform contents with
        | Some _ => enrich_each self articles
        | None => enrich_each self articles
        end
      else
        match enrich self article with
        | Some article => [article]
        | None => enrich_each self articles
        end
  end.

Definition calculate_relevance_for_user (self : ArticleProcessor.t)
    (articles : list Article.t) (user : User.t) : option (list Article.t) :=
  mapM (λ article,
          relevance_score ← User.matches_article user
            (Article.keywords article) (Article.source article)
            (Article.category article);
          Some (Article.add_user_relevance article (User.id user) relevance_score))
       articles.

End WithLibraries.
End Pipeline.

(** ** newsletter_generator.py: the selection of the articles *)

Module NewsletterGenerator.
Section WithDatetime.

Context `{Datetime}.

(** [user.id in a.relevance_scores] *)
Definition has_relevance (user : User.t) (a : Article.t) : bool :=
  bool_decide (is_Some (Article.relevance_scores a !! User.id user)).

(** [a.relevance_scores.get(user.id, 0)] *)
Definition relevance (user : User.t) (a : Article.t) : Qc :=
  default 0%Qc (Article.relevance_scores a !! User.id user).

Definition relevant_articles (user : User.t) (articles : list Article.t)
    : list Article.t :=
  List.filter (has_relevance user) articles.

Definition sorted_articles (user : User.t) (articles : list Article.t)
    : list Article.t :=
  Py.sorted_desc (relevance user) (relevant_articles user articles).

(** [selected_articles] of [generate_newsletter]; [max_articles = None]
    takes the limit of the user. *)
Definition selected_articles (user : User.t) (articles : list Article.t)
    (max_articles : option Z) : list Article.t :=
  let max_articles :=
    default (User.max_articles_per_newsletter user) max_articles in
  Py.slice_to max_articles (sorted_articles user articles).

End WithDatetime.
End NewsletterGenerator.

(** ** utils/text_utils.py *)

Module TextUtils.

Local Open Scope Qc_scope.

(** [re.sub(r'<[^>]+>', ' ', text)]: a tag starts at a [<] that is
    followed by a character other than [>] and, later, by a [>]; it
    ends at the first [>]. *)
Fixpoint has_gt (s : string) : bool :=
  match s with
  | EmptyString => false
  | String c s' => bool_decide (c = ">"%char) || has_gt s'
  end.

Definition opens_tag (rest : string) : bool :=
  match rest with
  | String c rest' => negb (bool_decide (c = ">"%char)) && has_gt rest'
  | EmptyString => false
  end.

Fixpoint strip_tags_from (in_tag : bool) (s : string) : string :=
  match s with
  | EmptyString => EmptyString
  | String c s' =>
      if in_tag then
        if bool_decide (c = ">"%char) then String " " (strip_tags_from false s')
        else strip_tags_from true s'
      else if bool_decide (c = "<"%char) && opens_tag s'
      then strip_tags_from true s'
      else String c (strip_tags_from false s')
  end.

(** [re.sub(r'\s+', ' ', text)] *)
Fixpoint collapse_spaces_from (in_space : bool) (s : string) : string :=
  match s with
  | EmptyString => EmptyString
  | String c s' =>
      if Py.isspace_ascii c then
        if in_space then collapse_spaces_from true s'
        else String " " (collapse_spaces_from true s')
      else String c (collapse_spaces_from false s')
  end.

Fixpoint lstrip (s : string) : string :=
  match s with
  | String c s' => if Py.isspace_ascii c then lstrip s' else s
  | EmptyString => EmptyString
  end.

(** [text.strip()] *)
Definition strip (s : string) : string :=
  String.rev (lstrip (String.rev (lstrip s))).

Definition clean_text (text : string) : string :=
  let text := strip_tags_from false text in
  let text := collapse_spaces_from false text in
  strip text.

Section WithNltk.

Context `{Nltk}.

Definition calculate_word_frequency (text : string) : list (string * nat) :=
  let words := word_tokenize (Py.lower text) in
  let filtered_words :=
    List.filter (λ word, Py.isalpha word
                         && negb (bool_decide (word ∈ stopwords_english)))
                words in
  Py.Counter filtered_words.

(** The body of the scoring loop of [extract_sentences]: the entry
    added to [sentence_scores] for sentence [i], if any. *)
Definition sentence_score (word_freq : list (string * nat)) (sentence : string)
    : option (option Qc) :=
  let words := word_tokenize (Py.lower sentence) in
  let word_count :=
    length (List.filter (λ w, negb (Py.contains (Py.lower w) Py.punctuation)) words) in
  if decide (word_count = 0%nat) then Some None
  else
    score ← Py.div
      (Py.of_nat (foldr Nat.add 0%nat
                    ((λ word, Py.counter_get word_freq (Py.lower word)) <$> words)))
      (Py.of_nat word_count);
    Some (Some score).

(** [sentence_scores]: the scored indices in increasing order, each
    with its score. *)
Fixpoint sentence_scores_from (word_freq : list (string * nat)) (i : nat)
    (sentences : list string) : option (list (nat * Qc)) :=
  match sentences with
  | [] => Some []
  | sentence :: rest =>
      entry ← sentence_score word_freq sentence;
      scores ← sentence_scores_from word_freq (S i) rest;
      Some (match entry with
            | Some score => (i, score) :: scores
            | None => scores
            end)
  end.

Definition extract_sentences (text : string) (max_sentences : Z)
    : option (list string) :=
  let text := clean_text text in
  let sentences := sent_tokenize text in
  if decide (Z.of_nat (length sentences) ≤ max_sentences)%Z then Some sentences
  else
    let word_freq := calculate_word_frequency text in
    sentence_scores ← sentence_scores_from word_freq 0 sentences;
    let top_indices :=
      Py.slice_to max_sentences (Py.sorted_desc snd sentence_scores) in
    let top_indices := Py.sort_nat top_indices.*1 in
    mapM (λ i, sentences !! i) top_indices.

(** [text[:200] + "..."] when the text is longer than 200 characters. *)
Definition truncate (text : string) : string :=
  if bool_decide (200 < String.length text)%nat
  then String.substring 0 200 text +:+ "..." else text.

Definition generate_summary (text : string) (max_sentences : Z) : string :=
  match extract_sentences text max_sentences with
  | Some sentences => Py.join " " sentences
  | None => truncate (clean_text text)
  end.

Definition extract_keywords (text : string) (max_keywords min_length : Z)
    : list string :=
  let text := clean_text text in
  let words := word_tokenize (Py.lower text) in
  let filtered_words :=
    lemmatize <$>
      List.filter (λ word, Py.isalpha word
                           && negb (bool_decide (word ∈ stopwords_english))
                           && bool_decide (min_length ≤ Z.of_nat (String.length word))%Z)
                  words in
  let word_counts := Py.Counter filtered_words in
  Py.most_common max_keywords word_counts.

End WithNltk.
End TextUtils.

(** ** Stand-ins for the external libraries

  Small executable instances of the library interfaces.  They serve to
  run the definitions above on concrete inputs; on those inputs they
  return what the libraries return. *)

Module Sample.

(** Tokens separated by white space.  [word_tokenize] also splits
    punctuation off words; on texts whose tokens are already set
    apart by blanks the two agree. *)
Fixpoint tokens_from (cur : string) (s : string) : list string :=
  match s with
  | EmptyString => if decide (cur = "") then [] else [String.rev cur]
  | String c s' =>
      if Py.isspace_ascii c then
        if decide (cur = "") then tokens_from "" s'
        else String.rev cur :: tokens_from "" s'
      else tokens_from (String c cur) s'
  end.

Definition tokenize (text : string) : list string := tokens_from "" text.

(** The WordNet lemmatizer (noun part of speech) on a few plural
    nouns; every other word is its own lemma here. *)
Definition lemma_of (word : string) : string :=
  if decide (word = "cans") then "can"
  else if decide (word = "markets") then "market"
  else if decide (word = "prices") then "price"
  else word.

(** An excerpt of NLTK's English stop words. *)
Definition stop_words : list string :=
  [ "i"; "me"; "my"; "we"; "our"; "you"; "your"; "he"; "him"; "his"; "she";
    "her"; "it"; "its"; "they"; "them"; "their"; "what"; "which"; "who";
    "this"; "that"; "these"; "those"; "am"; "is"; "are"; "was"; "were";
    "be"; "been"; "being"; "have"; "has"; "had"; "do"; "does"; "did";
    "a"; "an"; "the"; "and"; "but"; "if"; "or"; "because"; "as"; "until";
    "while"; "of"; "at"; "by"; "for"; "with"; "about"; "to"; "from"; "up";
    "down"; "in"; "out"; "on"; "off"; "over"; "under"; "then"; "here";
    "there"; "when"; "where"; "why"; "how"; "all"; "any"; "both"; "each";
    "more"; "most"; "other"; "some"; "such"; "no"; "nor"; "not"; "only";
    "own"; "same"; "so"; "than"; "too"; "very"; "can"; "will"; "just";
    "should"; "now" ].

#[export] Instance nltk : Nltk := {|
  word_tokenize := tokenize;
  sent_tokenize := Py.split_sentences;
  lemmatize := lemma_of;
  stopwords_english := stop_words
|}.

#[export] Instance sklearn : Sklearn := {|
  fit_transform := λ contents,
    if decide (Py.join "" contents = "") then None else Some ()
|}.

(** A naive [datetime] (no time zone). *)
Record naive_datetime := mk_datetime {
  year : nat; month : nat; day : nat;
  hour : nat; minute : nat; second : nat; microsecond : nat
}.

Definition is_leap (y : nat) : bool :=
  bool_decide (y mod 4 = 0 ∧ (y mod 100 ≠ 0 ∨ y mod 400 = 0))%nat.

Definition days_in_month (y m : nat) : nat :=
  if decide (m = 2)%nat then (if is_leap y then 29 else 28)%nat
  else if bool_decide (m ∈ [4; 6; 9; 11]%nat) then 30%nat else 31%nat.

(** The values a [datetime] object can hold. *)
Definition valid (d : naive_datetime) : Prop :=
  (1 ≤ year d < 10 ^ 4 ∧ 1 ≤ month d ≤ 12 ∧
   1 ≤ day d ≤ days_in_month (year d) (month d) ∧
   hour d < 24 ∧ minute d < 60 ∧ second d < 60 ∧ microsecond d < 10 ^ 6)%nat.

#[export] Instance valid_dec d : Decision (valid d).
Proof. unfold valid. apply _. Defined.

Definition digit_char (k : nat) : ascii := ascii_of_nat (48 + k mod 10).

Definition digit_val (c : ascii) : option nat :=
  let n := nat_of_ascii c in
  if bool_decide (48 ≤ n ≤ 57)%nat then Some (n - 48)%nat else None.

(** [n] written with [w] digits ([%0wd]). *)
Fixpoint pad (w n : nat) : string :=
  match w with
  | O => ""
  | S w' => pad w' (n / 10) +:+ String (digit_char n) ""
  end.

(** ["%04d-%02d-%02dT%02d:%02d:%02d"], followed by [".%06d"] when the
    microseconds are not zero. *)
Definition format (d : naive_datetime) : string :=
  pad 4 (year d) +:+ "-" +:+ pad 2 (month d) +:+ "-" +:+ pad 2 (day d) +:+
  "T" +:+ pad 2 (hour d) +:+ ":" +:+ pad 2 (minute d) +:+ ":" +:+
  pad 2 (second d) +:+
  (if decide (microsecond d = 0)%nat then "" else "." +:+ pad 6 (microsecond d)).

Fixpoint take_digits (w acc : nat) (s : string) : option (nat * string) :=
  match w with
  | O => Some (acc, s)
  | S w' =>
      match s with
      | String c s' => k ← digit_val c; take_digits w' (10 * acc + k) s'
      | EmptyString => None
      end
  end.

Definition expect (c : ascii) (s : string) : option string :=
  match s with
  | String c' s' => if decide (c = c') then Some s' else None
  | EmptyString => None
  end.

(** The two shapes written by [format]; anything else, and any field
    out of range, is a [ValueError]. *)
Definition parse (s : string) : option naive_datetime :=
  '(y, s) ← take_digits 4 0 s;
  s ← expect "-" s;
  '(mo, s) ← take_digits 2 0 s;
  s ← expect "-" s;
  '(d, s) ← take_digits 2 0 s;
  s ← expect "T" s;
  '(h, s) ← take_digits 2 0 s;
  s ← expect ":" s;
  '(mi, s) ← take_digits 2 0 s;
  s ← expect ":" s;
  '(se, s) ← take_digits 2 0 s;
  r ← match s with
      | EmptyString => Some (mk_datetime y mo d h mi se 0)
      | _ =>
          s ← expect "." s;
          '(us, s) ← take_digits 6 0 s;
          if decide (s = "") then Some (mk_datetime y mo d h mi se us) else None
      end;
  if decide (valid r) then Some r else None.

#[export] Instance naive : Datetime := {|
  datetime := naive_datetime;
  isoformat := format;
  fromisoformat := parse
|}.

Definition reader : User.t :=
  User.mk "u1" "Ada" "ada@example.org" ["AI"; "machine learning"]
    ["TechCrunch"] ∅ "daily" 10 ["technology"] [] "en" None None.

Definition article : Article.t :=
  Article.mk "a1" "Funding round" "https://example.org/a1" "TechCrunch"
    (mk_datetime 2024 2 29 8 5 0 0) "prices rose ... cans" "general"
    None None ["ai"; "startup"; "funding"] None 0%Qc ∅.

(** A reader who states no interests. *)
Definition plain_reader : User.t :=
  User.mk "u2" "Bo" "bo@example.org" [] ["Wired"] ∅ "daily" 10 ["technology"]
    [] "en" None None.

Definition cautious_reader : User.t :=
  User.mk "u3" "Cy" "cy@example.org" ["ai"] [] ∅ "weekly" 5 []
    ["crypto"] "en" None None.

(** Four articles; three of them are scored for the reader [u1], two
    of these with the same score. *)
Definition scored (ident : string) (scores : gmap string Qc) : Article.t :=
  Article.mk ident "Title" "https://example.org" "Wired"
    (mk_datetime 2024 1 15 12 0 0 0) "Text." "general" None None [] None
    0%Qc scores.

Definition inbox : list Article.t :=
  [ scored "a1" {[ "u1" := Q2Qc (1 # 4) ]};
    scored "a2" ∅;
    scored "a3" {[ "u1" := Q2Qc (3 # 4) ]};
    scored "a4" (<[ "u1" := Q2Qc (1 # 4) ]> {[ "u2" := 1%Qc ]}) ].

End Sample.

(** ** models/user.py: the dictionary form of a user *)

Module UserDict.

(** The values stored in the dictionary form of a user. *)
Inductive value :=
| VNone
| VStr (s : string)
| VInt (n : Z)
| VList (l : list string)
| VWeights (m : gmap string Qc).

Definition of_optional (o : option string) : value :=
  match o with Some s => VStr s | None => VNone end.

Definition to_dict (self : User.t) : gmap string value :=
  <["id" := VStr (User.id self)]> $
  <["name" := VStr (User.name self)]> $
  <["email" := VStr (User.email self)]> $
  <["interests" := VList (User.interests self)]> $
  <["preferred_sources" := VList (User.preferred_sources self)]> $
  <["content_weights" := VWeights (User.content_weights self)]> $
  <["newsletter_frequency" := VStr (User.newsletter_frequency self)]> $
  <["max_articles_per_newsletter" := VInt (User.max_articles_per_newsletter self)]> $
  <["preferred_categories" := VList (User.preferred_categories self)]> $
  <["excluded_keywords" := VList (User.excluded_keywords self)]> $
  <["language" := VStr (User.language self)]> $
  <["location" := of_optional (User.location self)]> $
  <["persona" := of_optional (User.persona self)]> ∅.

(** Reading an entry at the type the dataclass declares for the field;
    an entry of another type (also [None] for [id], [name], [email],
    which [data.get] returns when the key is missing) cannot be stored
    in the record and ends the construction. *)
Definition as_str (v : value) : option string :=
  match v with VStr s => Some s | _ => None end.
Definition as_optional (v : value) : option (option string) :=
  match v with VNone => Some None | VStr s => Some (Some s) | _ => None end.
Definition as_int (v : value) : option Z :=
  match v with VInt n => Some n | _ => None end.
Definition as_list (v : value) : option (list string) :=
  match v with VList l => Some l | _ => None end.
Definition as_weights (v : value) : option (gmap string Qc) :=
  match v with VWeights m => Some m | _ => None end.

(** [data.get(key, dflt)]; [data.get(key)] is [get data key VNone]. *)
Definition get (data : gmap string value) (key : string) (dflt : value) : value :=
  default dflt (data !! key).

Definition from_dict (data : gmap string value) : option User.t :=
  id ← as_str (get data "id" VNone);
  name ← as_str (get data "name" VNone);
  email ← as_str (get data "email" VNone);
  interests ← as_list (get data "interests" (VList []));
  preferred_sources ← as_list (get data "preferred_sources" (VList []));
  content_weights ← as_weights (get data "content_weights" (VWeights ∅));
  newsletter_frequency ← as_str (get data "newsletter_frequency" (VStr "daily"));
  max_articles ← as_int (get data "max_articles_per_newsletter" (VInt 10));
  preferred_categories ← as_list (get data "preferred_categories" (VList []));
  excluded_keywords ← as_list (get data "excluded_keywords" (VList []));
  language ← as_str (get data "language" (VStr "en"));
  location ← as_optional (get data "location" VNone);
  persona ← as_optional (get data "persona" VNone);
  Some (User.mk id name email interests preferred_sources content_weights
          newsletter_frequency max_articles preferred_categories
          excluded_keywords language location persona).

End UserDict.

(** ** utils/text_utils.py: similarity of two texts *)

Module TextSimilarity.
Section WithNltk.

Context `{Nltk}.

(** [{w for w in set(word_tokenize(clean_text(text).lower()))
       if w.isalpha() and w not in stop_words}] *)
Definition word_set (text : string) : gset string :=
  filter (λ w, Py.isalpha w ∧ w ∉ stopwords_english)
         (list_to_set (word_tokenize (Py.lower (TextUtils.clean_text text)))
            : gset string).

(** The Jaccard similarity; an exception raised inside the [try] gives
    [0.0]. *)
Definition calculate_similarity (text1 text2 : string) : Qc :=
  let words1 := word_set text1 in
  let words2 := word_set text2 in
  let intersection := size (words1 ∩ words2) in
  let union := size (words1 ∪ words2) in
  if decide (union = 0%nat) then 0%Qc
  else default 0%Qc (Py.div (Py.of_nat intersection) (Py.of_nat union)).

End WithNltk.
End TextSimilarity.

(** ** user_manager.py

    [self.users] is an insertion-ordered dictionary; the file
    [users.json] is the list of user dictionaries last written to it
    ([None] when the file does not exist), JSON text being taken as a
    faithful encoding of that list.  [uuid.uuid4()] is not code of the
    repository: the identifier it returns is an argument.  [update_user]
    assigns arbitrary attributes by name ([setattr]) and is outside the
    typed record. *)

Module UserManager.

Record t := mk {
  users : list (string * User.t);
  users_file : option (list (gmap string UserDict.value))
}.

(** [d.get(k)] *)
Fixpoint dict_get {V} (d : list (string * V)) (k : string) : option V :=
  match d with
  | [] => None
  | (k', v) :: d' => if decide (k' = k) then Some v else dict_get d' k
  end.

(** [d[k] = v]: the value of an existing key is replaced where it
    stands, a new key is added at the end. *)
Fixpoint dict_set {V} (d : list (string * V)) (k : string) (v : V)
    : list (string * V) :=
  match d with
  | [] => [(k, v)]
  | (k', v') :: d' =>
      if decide (k' = k) then (k', v) :: d' else (k', v') :: dict_set d' k v
  end.

(** [del d[k]] *)
Fixpoint dict_del {V} (d : list (string * V)) (k : string) : list (string * V) :=
  match d with
  | [] => []
  | (k', v') :: d' => if decide (k' = k) then d' else (k', v') :: dict_del d' k
  end.

Definition get_user (self : t) (user_id : string) : option User.t :=
  dict_get (users self) user_id.

Definition get_all_users (self : t) : list User.t := (users self).*2.

(** [json.dump([user.to_dict() for user in self.users.values()], f)] *)
Definition _save_users (self : t) : t :=
  mk (users self) (Some (UserDict.to_dict <$> (users self).*2)).

(** The loop of [_load_users]; a record that cannot be built ends the
    loop (the exception is logged), the users read so far stay. *)
Fixpoint load_each (users : list (string * User.t))
    (users_data : list (gmap string UserDict.value)) : list (string * User.t) :=
  match users_data with
  | [] => users
  | user_data :: rest =>
      match UserDict.from_dict user_data with
      | Some user => load_each (dict_set users (User.id user) user) rest
      | None => users
      end
  end.

Definition _load_users (self : t) : t :=
  match users_file self with
  | Some users_data => mk (load_each (users self) users_data) (users_file self)
  | None => self
  end.

(** [xs or []] *)
Definition or_empty (xs : option (list string)) : list string := default [] xs.

Definition create_user (self : t) (uuid4 : string) (name email : string)
    (interests preferred_sources preferred_categories : option (list string))
    (persona : option string) : User.t * t :=
  let user_id := uuid4 in
  let user :=
    User.mk user_id name email (or_empty interests) (or_empty preferred_sources)
      ∅ "daily" 10 (or_empty preferred_categories) [] "en" None persona in
  let self := mk (dict_set (users self) user_id user) (users_file self) in
  (user, _save_users self).

Definition delete_user (self : t) (user_id : string) : bool * t :=
  if bool_decide (user_id ∈ (users self).*1) then
    let self := mk (dict_del (users self) user_id) (users_file self) in
    (true, _save_users self)
  else (false, self).

End UserManager.

(** ** newsletter_generator.py: grouping and rendering

    [datetime.now()] and [strftime] belong to the standard library; the
    comparison [a in top_articles] is the field-wise equality of the
    dataclass.  Writing the newsletter to a file and converting it to
    HTML ([_save_newsletter], [delivery_email]) are left to the
    collaborators. *)

Class Clock `{Datetime} := {
  (** [datetime.now()] *)
  now : datetime;
  (** [d.strftime(fmt)] *)
  strftime : datetime → string → string
}.

Module Newsletter.
Section WithClock.

Context `{Clock} {datetime_eq : EqDecision datetime}.

#[export] Instance article_eq_dec : EqDecision Article.t.
Proof. solve_decision. Defined.

(** The body of the grouping loop: the article joins the list of its
    category, a category seen for the first time is added at the end. *)
Fixpoint group_add (article : Article.t) (groups : list (string * list Article.t))
    : list (string * list Article.t) :=
  match groups with
  | [] => [(Article.category article, [article])]
  | (category, articles) :: rest =>
      if decide (category = Article.category article)
      then (category, articles ++ [article]) :: rest
      else (category, articles) :: group_add article rest
  end.

Definition categorize (selected_articles : list Article.t)
    : list (string * list Article.t) :=
  foldl (λ groups article, group_add article groups) [] selected_articles.

(** [all_articles]: the lists of all categories, one after the other. *)
Definition all_articles (categorized_articles : list (string * list Article.t))
    : list Article.t :=
  concat categorized_articles.*2.

(** What the grouping loop keeps true of the articles seen so far:
    one group for each category, holding the articles of that category
    in their order, and no article lost or repeated. *)
Definition grouped (selected : list Article.t)
    (groups : list (string * list Article.t)) : Prop :=
  NoDup groups.*1
  ∧ Forall (λ group : string * list Article.t,
              group.2 ≠ []
              ∧ group.2 = filter (λ a, Article.category a = group.1) selected)
           groups
  ∧ all_articles groups ≡ₚ selected.

Definition top_articles (user : User.t)
    (categorized_articles : list (string * list Article.t)) : list Article.t :=
  Py.slice_to 3 (Py.sorted_desc (NewsletterGenerator.relevance user)
                   (all_articles categorized_articles)).

(** [c.upper()] for one character, and [s.capitalize()]. *)
Definition upper_ascii (c : ascii) : ascii :=
  let n := nat_of_ascii c in
  if bool_decide (97 ≤ n ≤ 122)%nat then ascii_of_nat (n - 32) else c.

Definition capitalize (s : string) : string :=
  match s with
  | EmptyString => EmptyString
  | String c s' => String (upper_ascii c) (Py.lower s')
  end.

(** A string that counts as true: neither [None] nor empty. *)
Definition truthy (o : option string) : option string :=
  match o with
  | Some s => if decide (s = "") then None else Some s
  | None => None
  end.

Definition heading (article : Article.t) : string :=
  "### [" +:+ Article.title article +:+ "](" +:+ Article.url article +:+ ")".

(** The lines appended for one of the top articles. *)
Definition top_entry (article : Article.t) : list string :=
  [heading article]
  ++ match truthy (Article.summary article) with Some s => [s] | None => [] end
  ++ ["*Source: " +:+ Article.source article +:+ "*"; ""].

(** The lines appended for an article of a category section. *)
Definition section_entry (article : Article.t) : list string :=
  [heading article]
  ++ match truthy (Article.author article) with
     | Some author => ["*By " +:+ author +:+ "*"]
     | None => []
     end
  ++ match truthy (Article.summary article) with Some s => [s] | None => [] end
  ++ ["*Source: " +:+ Article.source article +:+ " | "
      +:+ strftime (Article.published_date article) "%B %d, %Y" +:+ "*"; ""].

(** One turn of the loop over the categories. *)
Definition category_section (top : list Article.t)
    (group : string * list Article.t) : list string :=
  let '(category, articles) := group in
  if bool_decide (articles = [])
     || forallb (λ a, bool_decide (a ∈ top)) articles
  then []
  else
    [ "## " +:+ capitalize category; "" ]
    ++ concat ((λ article,
                  if bool_decide (article ∈ top) then []
                  else section_entry article) <$> articles)
    ++ [ "---"; "" ].

Definition newline : string := String (ascii_of_nat 10) EmptyString.

Definition markdown_lines (user : User.t)
    (categorized_articles : list (string * list Article.t)) : list string :=
  let date_str := strftime now "%B %d, %Y" in
  let top := top_articles user categorized_articles in
  [ "# " +:+ User.name user +:+ "'s Personalized Newsletter";
    "### " +:+ date_str;
    "";
    "## Today's Top Stories";
    "" ]
  ++ concat (top_entry <$> top)
  ++ [ "---"; "" ]
  ++ concat (category_section top <$> categorized_articles)
  ++ [ "## Your Newsletter Preferences";
       "";
       "Your newsletter is customized based on your interests:";
       "";
       "**Interests:** " +:+ Py.join ", " (User.interests user);
       "";
       "**Preferred Sources:** " +:+ Py.join ", " (User.preferred_sources user);
       "";
       "*To update your preferences or unsubscribe, click [here](#).*" ].

Definition _generate_markdown (user : User.t)
    (categorized_articles : list (string * list Article.t)) : string :=
  Py.join newline (markdown_lines user categorized_articles).

(** [generate_newsletter], up to the string it returns. *)
Definition generate_newsletter (user : User.t) (articles : list Article.t)
    (max_articles : option Z) : string :=
  let selected := NewsletterGenerator.selected_articles user articles max_articles in
  _generate_markdown user (categorize selected).

End WithClock.
End Newsletter.

(** ** Variants of a profile *)

Module Profile.

(** The profile with its excluded keywords cleared
    ([user.excluded_keywords = []]). *)
Definition without_exclusions (user : User.t) : User.t :=
  User.mk (User.id user) (User.name user) (User.email user) (User.interests user)
    (User.preferred_sources user) (User.content_weights user)
    (User.newsletter_frequency user) (User.max_articles_per_newsletter user)
    (User.preferred_categories user) [] (User.language user)
    (User.location user) (User.persona user).

End Profile.

(** ** More sample data *)

Module Demo.

#[local] Existing Instance Sample.naive.

#[export] Instance clock : Clock := {|
  now := Sample.mk_datetime 2024 3 1 6 0 0 0;
  strftime := λ d fmt, Sample.format d
|}.

#[export] Instance naive_datetime_eq : EqDecision Sample.naive_datetime.
Proof. solve_decision. Defined.

Definition tagged (ident category : string) (score : Qc) : Article.t :=
  Article.mk ident ("Story " +:+ ident) ("https://example.org/" +:+ ident) "Wired"
    (Sample.mk_datetime 2024 1 15 12 0 0 0) "Text." category None None []
    (Some "Summary.") 0%Qc {[ "u1" := score ]}.

Definition shelf : list Article.t :=
  [ tagged "a1" "technology" (Q2Qc (3 # 4));
    tagged "a2" "business" (Q2Qc (1 # 2));
    tagged "a3" "technology" (Q2Qc (1 # 2));
    tagged "a4" "science" (Q2Qc (1 # 4));
    tagged "a5" "business" (Q2Qc (1 # 8)) ].

(** An unprocessed article with the given content. *)
Definition story (ident content : string) : Article.t :=
  Article.mk ident ("Story " +:+ ident) ("https://example.org/" +:+ ident) "Wired"
    (Sample.mk_datetime 2024 1 15 12 0 0 0) content "general" None None []
    None 0%Qc ∅.

(** A profile saved with a blank line among its interests. *)
Definition blank_reader : User.t :=
  User.mk "u4" "Di" "di@example.org" ["chess"; ""] [] ∅ "daily" 10 [] []
    "en" None None.

Definition registry : UserManager.t :=
  UserManager.mk [("u1", Sample.reader); ("u3", Sample.cautious_reader)] None.

End Demo.

(** * Properties *)

(** ** Arithmetic of the score model *)

Section PyFacts.

Local Open Scope Qc_scope.

Lemma py_min_le_r a b : Py.min a b ≤ b.
Proof.
  unfold Py.min. case_decide as Hlt; [apply Qcle_refl|].
  by apply Qcnot_lt_le.
Qed.

Lemma py_max_ge_l a b : a ≤ Py.max a b.
Proof.
  unfold Py.max. case_decide as Hlt; [by apply Qclt_le_weak|apply Qcle_refl].
Qed.

Lemma py_max_le a b c : a ≤ c → b ≤ c → Py.max a b ≤ c.
Proof. unfold Py.max. by case_decide. Qed.

(** The final clamp [max(0.0, min(r, 1.0))] lands in the unit interval. *)
Lemma clamp_unit r : 0 ≤ Py.max 0 (Py.min r 1) ≤ 1.
Proof.
  split; [apply py_max_ge_l|].
  apply py_max_le; [done|apply py_min_le_r].
Qed.

Lemma Qc_of_Z_le a b : (a ≤ b)%Z → Qc_of_Z a ≤ Qc_of_Z b.
Proof. intros Hab. unfold Qcle. simpl. by rewrite <- Zle_Qle. Qed.

Lemma py_of_nat_zero n : Py.of_nat n = 0 → n = 0%nat.
Proof.
  unfold Py.of_nat. intros Heq.
  apply (f_equal this) in Heq. injection Heq. lia.
Qed.

Lemma py_of_nat_pos n : (0 < n)%nat → 0 < Py.of_nat n.
Proof.
  intros Hn. unfold Py.of_nat, Qclt. simpl.
  change (inject_Z 0 < inject_Z (Z.of_nat n))%Q. rewrite <- Zlt_Qlt. lia.
Qed.

Lemma py_div_some a b : b ≠ 0 → Py.div a b = Some (a / b).
Proof. intros Hb. unfold Py.div. by case_decide. Qed.

Lemma py_min_one (n : nat) : (0 < n)%nat → Py.min (Py.of_nat n) 1 = 1.
Proof.
  intros Hn. unfold Py.min. case_decide as Hlt; [done|].
  apply Qcnot_lt_le in Hlt. apply Qcle_antisym; [done|].
  unfold Py.of_nat, Qcle. simpl.
  change (inject_Z 1 <= inject_Z (Z.of_nat n))%Q. rewrite <- Zle_Qle. lia.
Qed.

(** A quotient whose numerator is bounded by its positive denominator. *)
Lemma quotient_bounds a b :
  0 < b → - b ≤ a → a ≤ b → - (1) ≤ a / b ∧ a / b ≤ 1.
Proof.
  intros Hb Hlo Hhi.
  assert (Hne : b ≠ 0) by (intros ->; by apply (Qclt_not_eq 0 0)).
  assert (Hmul : a / b * b = a) by (rewrite Qcmult_comm; by apply Qcmult_div_r).
  split; apply (Qcmult_lt_0_le_reg_r _ _ b Hb); rewrite Hmul.
  - replace (- (1) * b) with (- b) by ring. done.
  - by rewrite Qcmult_1_l.
Qed.

End PyFacts.

(** ** Counting and matching *)

Section CountFacts.

Context {A : Type}.

Lemma count_nil (p : A → bool) : Py.count p [] = 0%nat.
Proof. reflexivity. Qed.

Lemma count_cons (p : A → bool) x xs :
  Py.count p (x :: xs) = ((if p x then 1 else 0) + Py.count p xs)%nat.
Proof. unfold Py.count. simpl. by destruct (p x). Qed.

Lemma count_false (p : A → bool) xs :
  (∀ x, p x = false) → Py.count p xs = 0%nat.
Proof.
  intros Hp. induction xs as [|x xs IH]; [done|].
  by rewrite count_cons, Hp, IH.
Qed.

Lemma count_ext (p q : A → bool) xs :
  (∀ x, x ∈ xs → p x = q x) → Py.count p xs = Py.count q xs.
Proof.
  induction xs as [|x xs IH]; intros Hext; [done|].
  rewrite !count_cons, Hext, IH; [done| |left].
  intros y Hy. apply Hext. by right.
Qed.

End CountFacts.

(** ** The relevance score ([User.matches_article]) *)

Section Relevance.

Local Open Scope Qc_scope.

Lemma keyword_matches_nil keyword : User.keyword_matches [] keyword = false.
Proof. reflexivity. Qed.

Lemma interest_match_no_interests (self : User.t) kws :
  User.interests self = [] → User.interest_match self kws = 0%nat.
Proof.
  intros Hnil. unfold User.interest_match. rewrite Hnil.
  apply count_false, keyword_matches_nil.
Qed.

(** A positive match count needs at least one interest. *)
Lemma interest_match_pos (self : User.t) kws :
  (0 < User.interest_match self kws)%nat → (0 < length (User.interests self))%nat.
Proof.
  intros Hpos. destruct (User.interests self) eqn:Hi; [|simpl; lia].
  rewrite interest_match_no_interests in Hpos by done. lia.
Qed.

(** The interest step never divides by zero. *)
Lemma add_interest_score_total (self : User.t) kws score :
  ∃ score', User.add_interest_score self kws score = Some score'.
Proof.
  unfold User.add_interest_score. case_bool_decide as Hpos; [|by eexists].
  rewrite py_div_some; [by eexists|].
  intros Hz%py_of_nat_zero. apply interest_match_pos in Hpos. lia.
Qed.

Lemma four_nonzero : Q2Qc 4 ≠ 0.
Proof. intros Heq. apply (f_equal this) in Heq. discriminate Heq. Qed.

(** The score is the clamped quotient of the accumulated score. *)
Lemma matches_article_clamped (self : User.t) kws source category :
  ∃ r, User.matches_article self kws source category
       = Some (Py.max 0 (Py.min r 1)).
Proof.
  unfold User.matches_article. cbv zeta.
  match goal with
  | |- context [User.add_interest_score self kws ?s] =>
      destruct (add_interest_score_total self kws s) as [score' ->]
  end.
  cbn [mbind option_bind].
  rewrite (py_div_some _ _ four_nonzero). cbn [mbind option_bind].
  by eexists.
Qed.

(** C1. For every keyword list, source, category and reader profile,
    [matches_article] returns a score (no division by zero is raised)
    and the score lies in [0, 1]; for a reader without interests the
    interest step leaves the running score as it is, that is, the
    interest-overlap term contributes 0. *)
Theorem matches_article_in_unit_interval
    (self : User.t) (kws : list string) (source category : string) :
  (∃ score, User.matches_article self kws source category = Some score
            ∧ 0 ≤ score ≤ 1)
  ∧ (User.interests self = [] →
     ∀ score, User.add_interest_score self kws score = Some score).
Proof.
  split.
  - destruct (matches_article_clamped self kws source category) as [r Hr].
    eexists. split; [exact Hr|apply clamp_unit].
  - intros Hnil score. unfold User.add_interest_score.
    by rewrite interest_match_no_interests.
Qed.

Lemma matches_article_in_unit_interval_witness :
  User.interests Sample.plain_reader = []
  ∧ (∃ score, User.matches_article Sample.plain_reader ["ai"; "startup"]
                "Wired" "technology" = Some score ∧ 0 ≤ score ≤ 1)
  ∧ (∀ score, User.add_interest_score Sample.plain_reader ["ai"; "startup"] score
              = Some score).
Proof.
  split; [reflexivity|].
  destruct (matches_article_in_unit_interval Sample.plain_reader
              ["ai"; "startup"] "Wired" "technology") as [Hbounds Hzero].
  split; [exact Hbounds|exact (Hzero eq_refl)].
Defined.

(** The worked example of the specification: 2.75 / 4 = 0.6875. *)
Example matches_article_example :
  User.matches_article Sample.reader ["ai"; "startup"; "funding"]
    "TechCrunch" "technology" = Some (Q2Qc (11 # 16)).
Proof.
  destruct (matches_article_clamped Sample.reader ["ai"; "startup"; "funding"]
              "TechCrunch" "technology") as [r Hr].
  rewrite Hr. f_equal. apply Qc_is_canon.
  assert (Hv : this <$> User.matches_article Sample.reader
                 ["ai"; "startup"; "funding"] "TechCrunch" "technology"
               = Some (11 # 16)%Q) by (vm_compute; reflexivity).
  rewrite Hr in Hv. injection Hv as ->. reflexivity.
Qed.

End Relevance.

(** ** The categorizer ([ArticleProcessor.categorize_article]) *)

Section Categorizer.

Import ArticleProcessor.

Lemma scores_of_keys f cats : (scores_of f cats).*1 = cats.
Proof.
  unfold scores_of. rewrite <- list_fmap_compose.
  induction cats as [|c cats IH]; [done|]. simpl. by f_equal.
Qed.

Lemma scores_of_values f cats : (scores_of f cats).*2 = f <$> cats.
Proof. unfold scores_of. by rewrite <- list_fmap_compose. Qed.

Lemma scores_of_ext f g cats :
  (∀ c, c ∈ cats → f c = g c) → scores_of f cats = scores_of g cats.
Proof.
  intros Hext. unfold scores_of. apply list_fmap_ext.
  intros i c Hc. rewrite Hext; [done|]. by eapply list_elem_of_lookup_2.
Qed.

Lemma zero_scores_snoc cats c :
  zero_scores (cats ++ [c]) =
    if bool_decide (c ∈ (zero_scores cats).*1) then zero_scores cats
    else zero_scores cats ++ [(c, 0%nat)].
Proof. unfold zero_scores. by rewrite foldl_app. Qed.

(** Without repeated categories the initial table holds a zero for
    each category, in the order of the list. *)
Lemma zero_scores_nodup cats :
  NoDup cats → zero_scores cats = scores_of (λ _, 0%nat) cats.
Proof.
  induction cats as [|c cats IH] using rev_ind; [done|].
  intros (Hcats & Hc & _)%NoDup_app.
  rewrite zero_scores_snoc, IH by done.
  rewrite scores_of_keys, bool_decide_eq_false_2.
  - unfold scores_of. by rewrite fmap_app.
  - intros Hin. apply (Hc c); [done|left].
Qed.

(** [d[k] += 1] on a table given by a function. *)
Lemma dict_incr_scores_of f cats k :
  NoDup cats → k ∈ cats →
  dict_incr k (scores_of f cats)
    = Some (scores_of (λ c, if decide (c = k) then S (f c) else f c) cats).
Proof.
  induction cats as [|c cats IH]; intros Hnd Hin.
  - by apply elem_of_nil in Hin.
  - apply NoDup_cons in Hnd as [Hc Hnd]. simpl.
    destruct (decide (c = k)) as [->|Hne].
    + f_equal. unfold scores_of at 2. simpl.
      rewrite ?decide_True by done. f_equal.
      apply scores_of_ext. intros c' Hc'.
      rewrite decide_False; [done|]. by intros ->.
    + apply elem_of_cons in Hin as [->|Hin]; [done|].
      rewrite IH by done. simpl. unfold scores_of at 2. simpl.
      by rewrite ?decide_False.
Qed.

(** One keyword adds one to each category whose lexicon holds it. *)
Lemma score_keyword_scores_of lexicons f cats keyword :
  NoDup cats → NoDup lexicons.*1 → lexicons.*1 ⊆ cats →
  score_keyword lexicons (scores_of f cats) keyword
    = Some (scores_of
              (λ c, f c + if bool_decide (keyword ∈ lexicon_of lexicons c)
                          then 1 else 0)%nat cats).
Proof.
  intros Hcats. unfold score_keyword.
  revert f. induction lexicons as [|[c0 lex0] rest IH]; intros f Hnd Hsub.
  - simpl. f_equal. apply scores_of_ext. intros c _.
    rewrite bool_decide_eq_false_2; [lia|]. apply not_elem_of_empty.
  - simpl in Hnd, Hsub. apply NoDup_cons in Hnd as [Hc0 Hnd].
    assert (Hc0in : c0 ∈ cats) by (apply Hsub; left).
    assert (Hrest : rest.*1 ⊆ cats) by (intros c Hc; apply Hsub; by right).
    assert (Hfresh : lexicon_of rest c0 = ∅).
    { clear -Hc0. induction rest as [|[c lx] rest IHr]; [done|].
      simpl in *. apply not_elem_of_cons in Hc0 as [Hne Hc0].
      rewrite decide_False by done. by apply IHr. }
    cbn [for_each]. case_bool_decide as Hkw.
    + rewrite dict_incr_scores_of by done. cbn [mbind option_bind].
      rewrite (IH _ Hnd Hrest). f_equal. apply scores_of_ext. intros c _.
      cbn [lexicon_of]. destruct (decide (c0 = c)) as [<-|Hne].
      * rewrite decide_True by done. rewrite Hfresh.
        rewrite (bool_decide_eq_false_2 (keyword ∈ ∅)) by apply not_elem_of_empty.
        rewrite bool_decide_eq_true_2 by done. lia.
      * rewrite decide_False by (by intros ->). done.
    + cbn [mbind option_bind]. rewrite (IH _ Hnd Hrest). f_equal.
      apply scores_of_ext. intros c _. cbn [lexicon_of].
      destruct (decide (c0 = c)) as [->|Hne]; [|done].
      rewrite Hfresh.
      rewrite (bool_decide_eq_false_2 (keyword ∈ ∅)) by apply not_elem_of_empty.
      by rewrite bool_decide_eq_false_2.
Qed.

(** The nested loops compute, for every category, the number of
    keywords found in its lexicon. *)
Lemma for_each_keyword_scores_of lexicons f cats keywords :
  NoDup cats → NoDup lexicons.*1 → lexicons.*1 ⊆ cats →
  for_each (score_keyword lexicons) (scores_of f cats) keywords
    = Some (scores_of
              (λ c, f c + Py.count
                            (λ keyword, bool_decide (keyword ∈ lexicon_of lexicons c))
                            keywords)%nat cats).
Proof.
  intros Hcats Hnd Hsub. revert f.
  induction keywords as [|keyword keywords IH]; intros f.
  - simpl. f_equal. apply scores_of_ext. intros c _. rewrite count_nil. lia.
  - cbn [for_each]. rewrite score_keyword_scores_of by done.
    cbn [mbind option_bind]. rewrite IH. f_equal.
    apply scores_of_ext. intros c _. rewrite count_cons. lia.
Qed.

Lemma max_value_zero values :
  max_value values = 0%nat ↔ Forall (λ n, n = 0%nat) values.
Proof.
  induction values as [|n values IH]; simpl.
  - split; [constructor|done].
  - rewrite Forall_cons, <- IH. lia.
Qed.

(** [max] with a key returns the first item that reaches the largest
    value: the items before it are strictly smaller, those after it
    are not larger. *)
Lemma max_item_from_scores_of f rest :
  ∀ pre best mid,
    Forall (λ c, f c < f best)%nat pre →
    Forall (λ c, f c ≤ f best)%nat mid →
    ∃ b before after,
      max_item_from (best, f best) (scores_of f rest) = (b, f b)
      ∧ pre ++ best :: mid ++ rest = before ++ b :: after
      ∧ Forall (λ c, f c < f b)%nat before
      ∧ Forall (λ c, f c ≤ f b)%nat after.
Proof.
  induction rest as [|x rest IH]; intros pre best mid Hpre Hmid.
  - exists best, pre, mid. by rewrite app_nil_r.
  - cbn [scores_of fmap list_fmap max_item_from]. fold (scores_of f rest).
    cbn [snd]. case_decide as Hlt.
    + destruct (IH (pre ++ best :: mid) x []) as (b & before & after & Hb & Heq & H1 & H2).
      * apply Forall_app. split; [|apply Forall_cons; split; [done|]].
        -- eapply Forall_impl; [exact Hpre|]. simpl. lia.
        -- eapply Forall_impl; [exact Hmid|]. simpl. lia.
      * constructor.
      * exists b, before, after. split; [done|]. split; [|done].
        rewrite <- Heq. by rewrite <- !app_assoc.
    + destruct (IH pre best (mid ++ [x])) as (b & before & after & Hb & Heq & H1 & H2).
      * done.
      * apply Forall_app. split; [done|]. apply Forall_singleton. lia.
      * exists b, before, after. split; [done|]. split; [|done].
        rewrite <- Heq. by rewrite <- !app_assoc.
Qed.

Lemma max_item_scores_of f cats :
  cats ≠ [] →
  ∃ b before after,
    max_item (scores_of f cats) = Some (b, f b)
    ∧ cats = before ++ b :: after
    ∧ Forall (λ c, f c < f b)%nat before
    ∧ Forall (λ c, f c ≤ f b)%nat after.
Proof.
  destruct cats as [|c cats]; [done|]. intros _.
  destruct (max_item_from_scores_of f cats [] c []) as (b & before & after & Hb & Heq & H1 & H2);
    [constructor..|].
  exists b, before, after. simpl. rewrite Hb. done.
Qed.

(** The categorizer on a well-formed processor: distinct categories,
    one lexicon per category name, every lexicon name a category. *)
Lemma categorize_article_spec (self : t) content keywords :
  NoDup (categories self) →
  NoDup (category_keywords self).*1 →
  (category_keywords self).*1 ⊆ categories self →
  ∃ best, categorize_article self content keywords = Some best
    ∧ ((∀ c, c ∈ categories self → overlap self c keywords = 0%nat) →
       best = "general")
    ∧ ((∃ c, c ∈ categories self ∧ (0 < overlap self c keywords)%nat) →
       ∃ before after,
         categories self = before ++ best :: after
         ∧ Forall (λ c, overlap self c keywords < overlap self best keywords)%nat before
         ∧ Forall (λ c, overlap self c keywords ≤ overlap self best keywords)%nat after).
Proof.
  intros Hcats Hnd Hsub. unfold categorize_article. cbv zeta.
  rewrite zero_scores_nodup by done.
  rewrite for_each_keyword_scores_of by done. cbn [mbind option_bind].
  change (λ c, 0 + Py.count _ keywords)%nat with (λ c, overlap self c keywords).
  rewrite scores_of_values. case_decide as Hmax.
  - exists "general". split; [done|]. split; [done|].
    intros (c & Hc & Hpos). apply max_value_zero in Hmax.
    rewrite Forall_fmap, Forall_forall in Hmax. specialize (Hmax c Hc).
    simpl in Hmax. lia.
  - destruct (max_item_scores_of (λ c, overlap self c keywords) (categories self))
      as (b & before & after & Hb & Heq & H1 & H2).
    { intros Hnil. apply Hmax. by rewrite Hnil. }
    exists b. rewrite Hb. split; [done|]. split.
    + intros Hzero. exfalso. apply Hmax, max_value_zero.
      rewrite Forall_fmap, Forall_forall. intros c Hc. simpl. by apply Hzero.
    + intros _. by exists before, after.
Qed.

Lemma default_categories_nodup : NoDup default_categories.
Proof. apply (bool_decide_unpack _). by vm_compute. Qed.

Lemma default_lexicon_names :
  _initialize_category_keywords.*1 = default_categories.
Proof. reflexivity. Qed.

(** C2. With the lexicon table and category order of the sources
    (technology, business, politics, entertainment, health, science,
    sports, world, general), for every keyword list the categorizer
    returns a category; if every category's overlap count is zero it
    is "general"; otherwise it is the category with the largest count
    of keywords in its lexicon, and among several such the one that
    comes first in the order of the table: every category before it
    has a strictly smaller count, every category after it a count
    that is not larger. *)
Theorem categorize_article_first_maximum
    (min_length max_count summary_length : Z)
    (content : string) (keywords : list string) :
  let self := __init__ None min_length max_count summary_length in
  categories self =
    [ "technology"; "business"; "politics"; "entertainment";
      "health"; "science"; "sports"; "world"; "general" ]
  ∧ ∃ best, categorize_article self content keywords = Some best
    ∧ ((∀ c, c ∈ categories self → overlap self c keywords = 0%nat) →
       best = "general")
    ∧ ((∃ c, c ∈ categories self ∧ (0 < overlap self c keywords)%nat) →
       ∃ before after,
         categories self = before ++ best :: after
         ∧ Forall (λ c, overlap self c keywords < overlap self best keywords)%nat before
         ∧ Forall (λ c, overlap self c keywords ≤ overlap self best keywords)%nat after).
Proof.
  intros self. split; [reflexivity|].
  apply categorize_article_spec.
  - apply default_categories_nodup.
  - change (NoDup _initialize_category_keywords.*1).
    rewrite default_lexicon_names. apply default_categories_nodup.
  - change (_initialize_category_keywords.*1 ⊆ default_categories).
    by rewrite default_lexicon_names.
Qed.

(** A tie between entertainment and science ([star] is in both
    lexicons) goes to entertainment, the earlier of the two. *)
Example categorize_article_tie :
  categorize_article new "" ["star"] = Some "entertainment".
Proof. by vm_compute. Qed.

Example categorize_article_no_match :
  categorize_article new "" ["zebra"; "quokka"] = Some "general".
Proof. by vm_compute. Qed.

End Categorizer.

(** ** The sentiment score ([ArticleProcessor.analyze_sentiment]) *)

Section Sentiment.

Context `{Nltk}.
Import ArticleProcessor.
Local Open Scope Qc_scope.

Lemma Qc_of_Z_opp z : - Qc_of_Z z = Qc_of_Z (- z).
Proof.
  apply Qc_is_canon. simpl. rewrite Qred_correct.
  unfold Qeq. simpl. lia.
Qed.

Lemma zero_in_range : - (1) ≤ 0 ∧ 0 ≤ 1.
Proof. split; unfold Qcle; simpl; by intros Hgt. Qed.

Lemma count_no_member (lexicon : gset string) (words : list string) :
  (∀ w, w ∈ words → w ∉ lexicon) →
  Py.count (λ word, bool_decide (word ∈ lexicon)) words = 0%nat.
Proof.
  intros Hno. rewrite (count_ext _ (λ _, false)); [by apply count_false|].
  intros w Hw. apply bool_decide_eq_false_2. by apply Hno.
Qed.

(** The two exits of [analyze_sentiment]. *)
Lemma analyze_sentiment_zero (self : t) (text : string) :
  (pos_count text + neg_count text = 0)%nat →
  analyze_sentiment self text = Some 0.
Proof. intros Hz. unfold analyze_sentiment. cbv zeta. by rewrite decide_True. Qed.

Lemma analyze_sentiment_ratio (self : t) (text : string) :
  (0 < pos_count text + neg_count text)%nat →
  analyze_sentiment self text
    = Some (Qc_of_Z (Z.of_nat (pos_count text) - Z.of_nat (neg_count text))
            / Py.of_nat (pos_count text + neg_count text)).
Proof.
  intros Hpos. unfold analyze_sentiment. cbv zeta.
  rewrite decide_False by lia.
  apply py_div_some. intros Hz%py_of_nat_zero. lia.
Qed.

(** C3. For every text the sentiment score is returned (the division
    is never by zero) and lies in [-1, 1]; when no word of the text is
    in the positive or the negative lexicon the score is exactly 0, in
    particular for the empty text, which the tokenizer splits into no
    token; otherwise it is
    (positive_count - negative_count) / (positive_count + negative_count). *)
Theorem analyze_sentiment_bounded (self : t) (text : string) :
  ∃ s, analyze_sentiment self text = Some s
    ∧ (- (1) ≤ s ∧ s ≤ 1)
    ∧ ((∀ w, w ∈ words_of text → (w ∉ positive_words) ∧ (w ∉ negative_words)) →
       s = 0)
    ∧ (text = "" → word_tokenize "" = [] → s = 0)
    ∧ ((0 < pos_count text + neg_count text)%nat →
       s = Qc_of_Z (Z.of_nat (pos_count text) - Z.of_nat (neg_count text))
           / Py.of_nat (pos_count text + neg_count text)).
Proof.
  assert (Hnone : (∀ w, w ∈ words_of text →
                        (w ∉ positive_words) ∧ (w ∉ negative_words)) →
                  (pos_count text + neg_count text = 0)%nat).
  { intros Hno. unfold pos_count, neg_count.
    rewrite !count_no_member; [done|intros w Hw; by apply Hno..]. }
  assert (Hempty : text = "" → word_tokenize "" = [] →
                   (pos_count text + neg_count text = 0)%nat).
  { intros -> Htok. apply Hnone. intros w. unfold words_of. simpl.
    rewrite Htok. simpl. by intros ?%elem_of_nil. }
  destruct (decide (pos_count text + neg_count text = 0)%nat) as [Hz|Hnz].
  - exists 0. split; [by apply analyze_sentiment_zero|].
    split; [apply zero_in_range|]. split; [done|]. split; [done|]. lia.
  - set (p := pos_count text) in *. set (n := neg_count text) in *.
    eexists. split; [apply analyze_sentiment_ratio; fold p n; lia|].
    fold p n. split.
    + apply quotient_bounds.
      * apply py_of_nat_pos. lia.
      * unfold Py.of_nat. rewrite Qc_of_Z_opp. apply Qc_of_Z_le. lia.
      * apply Qc_of_Z_le. lia.
    + split; [|split; [|done]].
      * intros Hno. apply Hnone in Hno. lia.
      * intros Ht Htok. specialize (Hempty Ht Htok). lia.
Qed.

End Sentiment.

Section SentimentExamples.

Import ArticleProcessor.
Local Existing Instance Sample.nltk.

Example analyze_sentiment_mixed :
  analyze_sentiment new "good bad good plain" = Some (Q2Qc (1 # 3)).
Proof.
  rewrite analyze_sentiment_ratio by (vm_compute; lia).
  reflexivity.
Qed.

Example analyze_sentiment_empty : analyze_sentiment new "" = Some 0%Qc.
Proof. by apply analyze_sentiment_zero. Qed.

End SentimentExamples.

(** ** Sorting and slicing ([sorted(..., reverse=True)], [l[:n]]) *)

Section Sorting.

Context {A : Type} (key : A → Qc).
Local Open Scope Qc_scope.

Abbreviation desc := (Py.desc key).

Lemma insert_desc_perm x l : Py.insert_desc key x l ≡ₚ x :: l.
Proof.
  induction l as [|y l IH]; [done|]. simpl. case_decide; [|done].
  rewrite IH. apply Permutation_swap.
Qed.

Lemma sorted_desc_perm l : Py.sorted_desc key l ≡ₚ l.
Proof.
  induction l as [|x l IH]; [done|].
  unfold Py.sorted_desc in *. simpl. by rewrite insert_desc_perm, IH.
Qed.

Lemma insert_desc_sorted x l :
  StronglySorted desc l → StronglySorted desc (Py.insert_desc key x l).
Proof.
  induction 1 as [|y l Hl IH Hy]; simpl.
  - repeat constructor.
  - case_decide as Hlt.
    + constructor; [done|]. rewrite insert_desc_perm.
      constructor; [|done]. by apply Qclt_le_weak.
    + apply Qcnot_lt_le in Hlt. constructor; [by constructor|].
      constructor; [done|]. eapply Forall_impl; [exact Hy|].
      intros z Hz. unfold Py.desc in *. by etrans.
Qed.

Lemma sorted_desc_sorted l : StronglySorted desc (Py.sorted_desc key l).
Proof.
  induction l as [|x l IH]; [constructor|].
  by apply insert_desc_sorted.
Qed.

(** Stability: elements with the same key keep the order they had. *)
Lemma insert_desc_stable q x l :
  List.filter (λ a, bool_decide (key a = q)) (Py.insert_desc key x l)
    = List.filter (λ a, bool_decide (key a = q)) (x :: l).
Proof.
  induction l as [|y l IH]; [done|]. simpl. case_decide as Hlt; [|done].
  simpl. rewrite IH. simpl.
  repeat case_bool_decide; try done.
  exfalso. apply (Qclt_not_eq _ _ Hlt). congruence.
Qed.

Lemma sorted_desc_stable q l :
  List.filter (λ a, bool_decide (key a = q)) (Py.sorted_desc key l)
    = List.filter (λ a, bool_decide (key a = q)) l.
Proof.
  induction l as [|x l IH]; [done|].
  unfold Py.sorted_desc in *. simpl foldr. rewrite insert_desc_stable.
  simpl. by rewrite IH.
Qed.

End Sorting.

Section Slicing.

Context {A : Type}.

Lemma slice_to_nonneg (n : Z) (l : list A) :
  (0 ≤ n)%Z → Py.slice_to n l = take (Z.to_nat n) l.
Proof. intros Hn. unfold Py.slice_to. case_decide; [lia|done]. Qed.

(** A slice is a prefix, whatever the sign of the bound. *)
Lemma slice_to_prefix (n : Z) (l : list A) : ∃ k, Py.slice_to n l = take k l.
Proof. unfold Py.slice_to. case_decide; by eexists. Qed.

Lemma slice_to_length (n : Z) (l : list A) :
  (0 ≤ n)%Z → (Z.of_nat (length (Py.slice_to n l)) ≤ n)%Z.
Proof. intros Hn. rewrite slice_to_nonneg, length_take by done. lia. Qed.

End Slicing.

(** ** Ranking and selection ([NewsletterGenerator.generate_newsletter]) *)

Section Selection.

Context `{Datetime}.
Import NewsletterGenerator.
Local Open Scope Qc_scope.

Lemma relevant_articles_elem (user : User.t) (articles : list Article.t) a :
  a ∈ relevant_articles user articles
  ↔ a ∈ articles ∧ is_Some (Article.relevance_scores a !! User.id user).
Proof.
  unfold relevant_articles. rewrite !list_elem_of_In, filter_In.
  unfold has_relevance. by rewrite bool_decide_eq_true.
Qed.

(** C8. For every reader with a non-negative size limit and every list
    of scored articles, the selection is the first [limit] articles of
    a ranking that (i) holds exactly the articles with a relevance
    entry for the reader, each as often as in the input, (ii) is in
    decreasing order of the reader's relevance score, and (iii) keeps
    articles of equal score in their input order; so it has at most
    [limit] articles. *)
Theorem selected_articles_ranked (user : User.t) (articles : list Article.t) :
  (0 ≤ User.max_articles_per_newsletter user)%Z →
  let limit := User.max_articles_per_newsletter user in
  let ranked := sorted_articles user articles in
  let selected := selected_articles user articles None in
  selected = take (Z.to_nat limit) ranked
  ∧ ranked ≡ₚ List.filter (has_relevance user) articles
  ∧ (∀ a, a ∈ ranked
          ↔ a ∈ articles ∧ is_Some (Article.relevance_scores a !! User.id user))
  ∧ StronglySorted (Py.desc (relevance user)) ranked
  ∧ (∀ q, List.filter (λ a, bool_decide (relevance user a = q)) ranked
          = List.filter (λ a, bool_decide (relevance user a = q))
              (List.filter (has_relevance user) articles))
  ∧ (Z.of_nat (length selected) ≤ limit)%Z.
Proof.
  intros Hlimit limit ranked selected.
  subst limit ranked selected. unfold selected_articles, sorted_articles.
  cbn [default]. split_and!.
  - by apply slice_to_nonneg.
  - apply sorted_desc_perm.
  - intros a. rewrite sorted_desc_perm. apply relevant_articles_elem.
  - apply sorted_desc_sorted.
  - intros q. apply sorted_desc_stable.
  - by apply slice_to_length.
Qed.

End Selection.

Section SelectionExamples.

Import NewsletterGenerator.
Local Existing Instance Sample.naive.

Example selected_articles_example :
  Article.id <$> selected_articles Sample.reader Sample.inbox (Some 2%Z)
    = ["a3"; "a1"].
Proof. by vm_compute. Qed.

Lemma selected_articles_ranked_witness :
  (0 ≤ User.max_articles_per_newsletter Sample.reader)%Z
  ∧ (let user := Sample.reader in
     let articles := Sample.inbox in
     let limit := User.max_articles_per_newsletter user in
     let ranked := sorted_articles user articles in
     let selected := selected_articles user articles None in
     selected = take (Z.to_nat limit) ranked
     ∧ ranked ≡ₚ List.filter (has_relevance user) articles
     ∧ (∀ a, a ∈ ranked
             ↔ a ∈ articles ∧ is_Some (Article.relevance_scores a !! User.id user))
     ∧ StronglySorted (Py.desc (relevance user)) ranked
     ∧ (∀ q, List.filter (λ a, bool_decide (relevance user a = q)) ranked
             = List.filter (λ a, bool_decide (relevance user a = q))
                 (List.filter (has_relevance user) articles))
     ∧ (Z.of_nat (length selected) ≤ limit)%Z).
Proof.
  split.
  - vm_compute. discriminate.
  - apply (selected_articles_ranked Sample.reader Sample.inbox).
    vm_compute. discriminate.
Defined.

End SelectionExamples.

(** ** Picking list elements at increasing indices *)

Section IncreasingIndices.

Context {A : Type}.

(** Reading a list at strictly increasing indices gives a subsequence
    of the list.  [off] is the index of the first element of [l]. *)
Lemma lookup_increasing_from (l : list A) :
  ∀ off idx,
    StronglySorted lt idx →
    Forall (λ i, off ≤ i < off + length l) idx →
    ∃ sel, mapM (λ i, l !! (i - off)) idx = Some sel ∧ sel `sublist_of` l.
Proof.
  induction l as [|x l IH]; intros off idx Hsorted Hrange.
  - destruct idx as [|i idx].
    + exists []. by split.
    + apply Forall_cons in Hrange as [Hi _]. simpl in Hi. lia.
  - assert (Hshift : ∀ idx',
              Forall (λ i, S off ≤ i < off + length (x :: l)) idx' →
              mapM (λ i, (x :: l) !! (i - off)) idx'
                = mapM (λ i, l !! (i - S off)) idx').
    { intros idx' Hidx'. apply Forall_mapM_ext.
      eapply Forall_impl; [exact Hidx'|]. intros i Hi. simpl in Hi.
      replace (i - off) with (S (i - S off)) by lia. done. }
    destruct idx as [|i idx].
    { exists []. split; [done|apply sublist_nil_l]. }
    apply StronglySorted_inv in Hsorted as [Hsorted Hi].
    apply Forall_cons in Hrange as [Hirange Hrange].
    destruct (decide (i = off)) as [->|Hne].
    + assert (Hrest : Forall (λ j, S off ≤ j < S off + length l) idx).
      { apply Forall_forall. intros j Hj.
        rewrite Forall_forall in Hi, Hrange.
        specialize (Hi j Hj). specialize (Hrange j Hj). simpl in Hrange. lia. }
      destruct (IH (S off) idx Hsorted Hrest) as (sel & Hsel & Hsub).
      exists (x :: sel). split; [|by constructor].
      simpl. rewrite Nat.sub_diag. simpl.
      rewrite Hshift, Hsel; [done|].
      eapply Forall_impl; [exact Hrest|]. simpl. lia.
    + assert (Hall : Forall (λ j, S off ≤ j < S off + length l) (i :: idx)).
      { apply Forall_cons. split; [simpl in Hirange; lia|].
        apply Forall_forall. intros j Hj.
        rewrite Forall_forall in Hi, Hrange.
        specialize (Hi j Hj). specialize (Hrange j Hj). simpl in Hrange. lia. }
      destruct (IH (S off) (i :: idx)) as (sel & Hsel & Hsub);
        [by constructor|done|].
      exists sel. split; [|by constructor].
      rewrite Hshift; [done|].
      eapply Forall_impl; [exact Hall|]. simpl. lia.
Qed.

Lemma lookup_increasing (l : list A) (idx : list nat) :
  StronglySorted lt idx →
  Forall (λ i, i < length l) idx →
  ∃ sel, mapM (λ i, l !! i) idx = Some sel ∧ sel `sublist_of` l
         ∧ length sel = length idx.
Proof.
  intros Hsorted Hrange.
  destruct (lookup_increasing_from l 0 idx Hsorted) as (sel & Hsel & Hsub).
  { eapply Forall_impl; [exact Hrange|]. simpl. lia. }
  exists sel. rewrite <- Hsel. split; [|split; [done|]].
  - apply mapM_ext. intros i. by rewrite Nat.sub_0_r.
  - symmetry. by eapply length_mapM.
Qed.

Lemma sort_nat_perm (l : list nat) : Py.sort_nat l ≡ₚ l.
Proof. apply merge_sort_Permutation. Qed.

(** Sorting distinct indices puts them in strictly increasing order. *)
Lemma sort_nat_increasing (l : list nat) :
  NoDup l → StronglySorted lt (Py.sort_nat l).
Proof.
  intros Hnd. rewrite <- sort_nat_perm in Hnd.
  assert (Hle : StronglySorted le (Py.sort_nat l))
    by apply (StronglySorted_merge_sort _).
  induction Hle as [|i k Hk IH Hi]; [constructor|].
  apply NoDup_cons in Hnd as [Hnotin Hnd].
  constructor; [by apply IH|].
  apply Forall_forall. intros j Hj. rewrite Forall_forall in Hi.
  specialize (Hi j Hj). assert (i ≠ j) by (by intros ->). lia.
Qed.

End IncreasingIndices.

(** ** The summarizer ([ArticleProcessor.generate_summary]) *)

Section Summarizer.

Context `{Nltk}.
Import ArticleProcessor.
Local Open Scope Qc_scope.

(** [re.split] always returns at least one piece. *)
Lemma split_sentences_from_nonempty in_sep cur s :
  Py.split_sentences_from in_sep cur s ≠ [].
Proof.
  revert in_sep cur. induction s as [|c s IH]; intros in_sep cur; simpl.
  - done.
  - destruct (Py.isspace_ascii c && in_sep); [apply IH|].
    destruct (Py.isspace_ascii c && Py.ends_sentence cur); [done|apply IH].
Qed.

Lemma split_sentences_nonempty text : Py.split_sentences text ≠ [].
Proof. apply split_sentences_from_nonempty. Qed.

(** The score of a sentence never divides by zero. *)
Lemma sentence_score_total word_freq sentence :
  is_Some (sentence_score word_freq sentence).
Proof.
  unfold sentence_score. cbv zeta. case_bool_decide as Hlen; [|by eexists].
  rewrite py_div_some; [by eexists|].
  intros Hz%py_of_nat_zero. lia.
Qed.

Lemma sentence_scores_total word_freq sentences :
  ∃ scores, sentence_scores word_freq sentences = Some scores
            ∧ length scores = length sentences.
Proof.
  destruct (mapM_is_Some_2 (sentence_score word_freq) sentences) as [scores Hs].
  - apply Forall_forall. intros s _. apply sentence_score_total.
  - exists scores. split; [done|]. symmetry. by eapply length_mapM.
Qed.

(** The selected indices are distinct sentence positions in
    increasing order, whatever the scores are. *)
Lemma top_indices_increasing n scores :
  StronglySorted lt (top_indices n scores)
  ∧ Forall (λ i, (i < length scores)%nat) (top_indices n scores).
Proof.
  unfold top_indices. cbv zeta.
  set (ranked := Py.sorted_desc _ _).
  assert (Hperm : ranked ≡ₚ seq 0 (length scores)) by apply sorted_desc_perm.
  destruct (slice_to_prefix n ranked) as [k ->].
  split.
  - apply sort_nat_increasing. eapply sublist_NoDup; [|apply sublist_take].
    rewrite Hperm. apply NoDup_seq.
  - rewrite sort_nat_perm. apply Forall_take. rewrite Hperm.
    apply Forall_seq. intros j Hj. lia.
Qed.

(** The short-circuit: a text that [re.split] cuts into at most as many
    pieces as the target is returned as it is.  The empty piece that
    follows white space at the end of the text is one of the pieces. *)
Lemma generate_summary_short_text (self : t) (text : string) :
  (Z.of_nat (length (Py.split_sentences text)) ≤ summarize_length self)%Z →
  generate_summary self text = Some text.
Proof.
  intros Hshort. unfold generate_summary. cbv zeta.
  rewrite decide_False by apply split_sentences_nonempty.
  by rewrite decide_True.
Qed.

(** The summary of a longer text: the selected sentences, joined by
    blanks, form a subsequence of the sentences of the text. *)
Lemma generate_summary_long_text (self : t) (text : string) :
  (summarize_length self < Z.of_nat (length (Py.split_sentences text)))%Z →
  ∃ selected,
    generate_summary self text = Some (Py.join " " selected)
    ∧ selected `sublist_of` Py.split_sentences text.
Proof.
  intros Hlong. unfold generate_summary. cbv zeta.
  rewrite decide_False by apply split_sentences_nonempty.
  rewrite decide_False by lia.
  destruct (sentence_scores_total (_calculate_word_frequencies self text)
              (Py.split_sentences text)) as (scores & -> & Hlen).
  cbn [mbind option_bind].
  destruct (top_indices_increasing (summarize_length self) scores) as [Hsorted Hrange].
  rewrite Hlen in Hrange.
  destruct (lookup_increasing _ _ Hsorted Hrange) as (selected & -> & Hsub & _).
  cbn [mbind option_bind]. by exists selected.
Qed.

End Summarizer.

Section SummarizerExamples.

Import ArticleProcessor.
Local Existing Instance Sample.nltk.

(** The last sentence scores highest and the first one lowest of the
    three selected; the summary still lists them as the text does. *)
Example generate_summary_example :
  generate_summary new "plain b . c . good d . e . good good ."
    = Some "plain b . good d . good good .".
Proof. by vm_compute. Qed.

Example generate_summary_short_text_example :
  (Z.of_nat (length (Py.split_sentences "Rates rose. Markets fell."))
     ≤ summarize_length new)%Z
  ∧ generate_summary new "Rates rose. Markets fell."
      = Some "Rates rose. Markets fell.".
Proof.
  split.
  - vm_compute. discriminate.
  - apply (generate_summary_short_text new "Rates rose. Markets fell.").
    vm_compute. discriminate.
Qed.

End SummarizerExamples.

(** ** Keyword extraction ([extract_keywords]) *)

Section Keywords.

Context `{Nltk}.

Lemma counter_incr_keys w c :
  (Py.counter_incr w c).*1 = if decide (w ∈ c.*1) then c.*1 else c.*1 ++ [w].
Proof.
  induction c as [|[k n] c IH].
  - done.
  - cbn [Py.counter_incr]. rewrite fmap_cons. cbn [fst].
    destruct (decide (k = w)) as [->|Hne].
    + rewrite fmap_cons. cbn [fst]. rewrite decide_True; [done|]. left.
    + rewrite fmap_cons, IH. cbn [fst].
      destruct (decide (w ∈ c.*1)) as [Hin|Hnotin].
      * rewrite decide_True; [done|]. by right.
      * rewrite decide_False; [done|].
        intros [?|?]%elem_of_cons; [by subst|done].
Qed.

Lemma counter_incr_nodup w c : NoDup c.*1 → NoDup (Py.counter_incr w c).*1.
Proof.
  intros Hnd. rewrite counter_incr_keys. case_decide as Hin; [done|].
  apply NoDup_app. split; [done|]. split; [|apply NoDup_singleton].
  intros x Hx ->%list_elem_of_singleton. done.
Qed.

(** The keys of a [Counter] are distinct. *)
Lemma Counter_nodup ws : NoDup (Py.Counter ws).*1.
Proof.
  unfold Py.Counter.
  assert (Hgen : ∀ c, NoDup c.*1 → NoDup (foldl (λ c w, Py.counter_incr w c) c ws).*1).
  { induction ws as [|w ws IH]; intros c Hc; [done|].
    simpl. apply IH. by apply counter_incr_nodup. }
  apply Hgen. constructor.
Qed.

Lemma most_common_nodup n c : NoDup c.*1 → NoDup (Py.most_common n c).
Proof.
  intros Hnd. unfold Py.most_common. rewrite fmap_take.
  eapply sublist_NoDup; [|apply sublist_take].
  by rewrite sorted_desc_perm.
Qed.

Lemma most_common_length n c :
  (0 ≤ n)%Z → (Z.of_nat (length (Py.most_common n c)) ≤ n)%Z.
Proof.
  intros Hn. unfold Py.most_common. rewrite length_fmap, length_take. lia.
Qed.

(** What holds of the keyword list whatever the libraries return: at
    most [keyword_max_count] keywords (for a cap that is not
    negative), all distinct. *)
Lemma extract_keywords_capped (self : ArticleProcessor.t) text :
  (0 ≤ ArticleProcessor.keyword_max_count self)%Z →
  (Z.of_nat (length (ArticleProcessor.extract_keywords self text))
     ≤ ArticleProcessor.keyword_max_count self)%Z.
Proof. apply most_common_length. Qed.

Lemma extract_keywords_nodup (self : ArticleProcessor.t) text :
  NoDup (ArticleProcessor.extract_keywords self text).
Proof. apply most_common_nodup, Counter_nodup. Qed.

Lemma text_utils_extract_keywords_capped text max_keywords min_length :
  (0 ≤ max_keywords)%Z →
  (Z.of_nat (length (TextUtils.extract_keywords text max_keywords min_length))
     ≤ max_keywords)%Z.
Proof. apply most_common_length. Qed.

Lemma text_utils_extract_keywords_nodup text max_keywords min_length :
  NoDup (TextUtils.extract_keywords text max_keywords min_length).
Proof. apply most_common_nodup, Counter_nodup. Qed.

(** C4. The keyword list can hold a pure-punctuation token and a stop
    word.  The tokens are tested before they are lemmatized, and the
    punctuation test asks whether the token is a substring of
    [string.punctuation].  On the text [prices rose ... cans], given
    what NLTK returns for it (the four tokens, their lemmas, and [can]
    but none of the tokens being a stop word), the keyword list is
    [price; rose; ...; can]: it holds the pure-punctuation token [...]
    and the stop word [can]. *)
Theorem extract_keywords_keeps_stopword_and_punctuation :
  word_tokenize "prices rose ... cans" = ["prices"; "rose"; "..."; "cans"] →
  lemmatize "prices" = "price" →
  lemmatize "rose" = "rose" →
  lemmatize "..." = "..." →
  lemmatize "cans" = "can" →
  Forall (λ w, w ∉ stopwords_english) ["prices"; "rose"; "..."; "cans"] →
  "can" ∈ stopwords_english →
  ArticleProcessor.extract_keywords ArticleProcessor.new "prices rose ... cans"
    = ["price"; "rose"; "..."; "can"]
  ∧ Py.is_punctuation "..." = true
  ∧ "can" ∈ stopwords_english.
Proof.
  intros Htok Hl1 Hl2 Hl3 Hl4 Hstop Hcan.
  split; [|split; [reflexivity|done]].
  unfold ArticleProcessor.extract_keywords. cbv zeta.
  change (Py.lower "prices rose ... cans") with "prices rose ... cans".
  rewrite Htok.
  assert (Hkeep : ∀ w, w ∈ ["prices"; "rose"; "..."; "cans"] →
                       ArticleProcessor.keep_token ArticleProcessor.new w = true).
  { rewrite Forall_forall in Hstop. intros w Hw.
    unfold ArticleProcessor.keep_token.
    rewrite (bool_decide_eq_false_2 _ (Hstop w Hw)).
    set_unfold in Hw. destruct Hw as [->|[->|[->|[->|[]]]]]; reflexivity. }
  simpl List.filter. rewrite !Hkeep by set_solver.
  simpl. rewrite Hl1, Hl2, Hl3, Hl4. reflexivity.
Qed.

End Keywords.

Section KeywordsExamples.

Lemma extract_keywords_keeps_stopword_and_punctuation_witness :
  ArticleProcessor.extract_keywords (H := Sample.nltk) ArticleProcessor.new
    "prices rose ... cans" = ["price"; "rose"; "..."; "can"]
  ∧ Py.is_punctuation "..." = true
  ∧ "can" ∈ Sample.stop_words.
Proof.
  apply (extract_keywords_keeps_stopword_and_punctuation (H := Sample.nltk)).
  - reflexivity.
  - reflexivity.
  - reflexivity.
  - reflexivity.
  - reflexivity.
  - apply (bool_decide_unpack _). vm_compute. exact I.
  - apply (bool_decide_unpack _). vm_compute. exact I.
Defined.

(** The sibling in [utils/text_utils.py] keeps alphabetic tokens only,
    so [...] is dropped there; the stop word still comes back through
    the lemma. *)
Example text_utils_extract_keywords_example :
  TextUtils.extract_keywords (H := Sample.nltk) "prices rose ... cans" 10 3
    = ["price"; "rose"; "can"].
Proof. by vm_compute. Qed.

End KeywordsExamples.

(** ** Idempotence of the enrichment ([process_articles],
     [calculate_relevance_for_user]) *)

Section Idempotence.

Context `{Datetime} `{Nltk} `{Sklearn}.
Import Pipeline.

(** The stages read the content only, and none of them writes it. *)
Lemma enrich_fields (self : ArticleProcessor.t) (a a' : Article.t) :
  enrich self a = Some a' →
  ∃ category sentiment summary,
    ArticleProcessor.categorize_article self (Article.content a)
      (ArticleProcessor.extract_keywords self (Article.content a)) = Some category
    ∧ ArticleProcessor.analyze_sentiment self (Article.content a) = Some sentiment
    ∧ ArticleProcessor.generate_summary self (Article.content a) = Some summary
    ∧ a' = Article.mk (Article.id a) (Article.title a) (Article.url a)
             (Article.source a) (Article.published_date a) (Article.content a)
             category (Article.author a) (Article.image_url a)
             (ArticleProcessor.extract_keywords self (Article.content a))
             (Some summary) sentiment (Article.relevance_scores a).
Proof.
  unfold enrich. cbv zeta.
  destruct a as [i t u s p c cat au im kw su se rs]. cbn [Article.content Article.keywords
    Article.set_keywords Article.set_category Article.set_sentiment_score
    Article.set_summary Article.id Article.title Article.url Article.source
    Article.published_date Article.category Article.author Article.image_url
    Article.summary Article.sentiment_score Article.relevance_scores].
  intros Hrun.
  destruct (ArticleProcessor.categorize_article _ _ _) as [category|]; [|done].
  cbn [mbind option_bind] in Hrun.
  destruct (ArticleProcessor.analyze_sentiment _ _) as [sentiment|]; [|done].
  cbn [mbind option_bind] in Hrun.
  destruct (ArticleProcessor.generate_summary _ _) as [summary|]; [|done].
  cbn [mbind option_bind] in Hrun. injection Hrun as <-.
  by exists category, sentiment, summary.
Qed.

(** Enriching an enriched article changes nothing. *)
Lemma enrich_idempotent (self : ArticleProcessor.t) (a a' : Article.t) :
  enrich self a = Some a' → enrich self a' = Some a'.
Proof.
  intros (category & sentiment & summary & Hc & Hs & Hsum & ->)%enrich_fields.
  unfold enrich. cbv zeta. cbn [Article.content Article.keywords
    Article.set_keywords Article.set_category Article.set_sentiment_score
    Article.set_summary Article.id Article.title Article.url Article.source
    Article.published_date Article.category Article.author Article.image_url
    Article.summary Article.sentiment_score Article.relevance_scores].
  rewrite Hc. cbn [mbind option_bind]. rewrite Hs. cbn [mbind option_bind].
  rewrite Hsum. reflexivity.
Qed.

Lemma enrich_each_idempotent (self : ArticleProcessor.t) (articles : list Article.t) :
  enrich_each self (enrich_each self articles) = enrich_each self articles.
Proof.
  unfold enrich_each. induction articles as [|a articles IH]; [done|].
  simpl. destruct (enrich self a) as [a'|] eqn:Ha; [|exact IH].
  simpl. rewrite (enrich_idempotent _ _ _ Ha). simpl. f_equal. exact IH.
Qed.

(** Every path of [process_articles] (vectorizer succeeding or
    raising, one article or several) enriches each article in turn. *)
Lemma process_articles_each (self : ArticleProcessor.t) (articles : list Article.t) :
  process_articles self articles = enrich_each self articles.
Proof.
  unfold process_articles. destruct articles as [|a articles]; [done|].
  cbv zeta. case_bool_decide as Hlen.
  - by destruct (fit_transform _).
  - destruct articles as [|b articles]; [|simpl in Hlen; lia].
    unfold enrich_each. simpl. by destruct (enrich self a).
Qed.

Lemma matches_article_total (user : User.t) kws source category :
  is_Some (User.matches_article user kws source category).
Proof.
  destruct (matches_article_clamped user kws source category) as [r ->].
  by eexists.
Qed.

(** Scoring one article for a reader, and scoring it again. *)
Lemma add_user_relevance_again (a : Article.t) user_id score :
  Article.add_user_relevance (Article.add_user_relevance a user_id score)
    user_id score
  = Article.add_user_relevance a user_id score.
Proof.
  unfold Article.add_user_relevance. simpl. by rewrite insert_insert_eq.
Qed.

Lemma calculate_relevance_idempotent (self : ArticleProcessor.t)
    (articles : list Article.t) (user : User.t) :
  ∃ scored,
    calculate_relevance_for_user self articles user = Some scored
    ∧ calculate_relevance_for_user self scored user = Some scored.
Proof.
  unfold calculate_relevance_for_user.
  induction articles as [|a articles (scored & Hfirst & Hsecond)].
  - by exists [].
  - destruct (matches_article_total user (Article.keywords a)
                (Article.source a) (Article.category a)) as [score Hscore].
    exists (Article.add_user_relevance a (User.id user) score :: scored).
    split.
    + simpl. rewrite Hscore. simpl. by rewrite Hfirst.
    + simpl. cbn [Article.add_user_relevance Article.keywords Article.source
                  Article.category].
      rewrite Hscore. simpl.
      change (Article.mk _ _ _ _ _ _ _ _ _ _ _ _ _)
        with (Article.add_user_relevance
                (Article.add_user_relevance a (User.id user) score)
                (User.id user) score).
      rewrite add_user_relevance_again. by rewrite Hsecond.
Qed.

(** C9. The enrichment is idempotent: for every list of articles,
    processing the processed articles again (keywords, category,
    sentiment and summary recomputed from the unchanged content)
    returns the same articles, field for field; and scoring the
    articles for a reader succeeds, after which scoring the scored
    articles again writes the same values into the relevance maps. *)
Theorem pipeline_idempotent (self : ArticleProcessor.t)
    (articles : list Article.t) (user : User.t) :
  process_articles self (process_articles self articles)
    = process_articles self articles
  ∧ ∃ scored,
      calculate_relevance_for_user self articles user = Some scored
      ∧ calculate_relevance_for_user self scored user = Some scored.
Proof.
  split.
  - rewrite !process_articles_each. apply enrich_each_idempotent.
  - apply calculate_relevance_idempotent.
Qed.

End Idempotence.

(** ** Dictionary form of an article ([to_dict], [from_dict]) *)

Section ArticleDict.

Context `{Datetime}.

Lemma as_optional_of_optional o : Article.as_optional (Article.of_optional o) = Some o.
Proof. by destruct o. Qed.

(** Reading one key of the dictionary written by [to_dict]. *)
Ltac to_dict_lookup :=
  unfold Article.to_dict;
  repeat (rewrite lookup_insert_ne by discriminate);
  apply lookup_insert_eq.

Lemma to_dict_fields (a : Article.t) :
  let d := Article.to_dict a in
  d !! "id" = Some (Article.VStr (Article.id a))
  ∧ d !! "title" = Some (Article.VStr (Article.title a))
  ∧ d !! "url" = Some (Article.VStr (Article.url a))
  ∧ d !! "source" = Some (Article.VStr (Article.source a))
  ∧ d !! "published_date"
      = Some (Article.VStr (isoformat (Article.published_date a)))
  ∧ d !! "content" = Some (Article.VStr (Article.content a))
  ∧ d !! "category" = Some (Article.VStr (Article.category a))
  ∧ d !! "author" = Some (Article.of_optional (Article.author a))
  ∧ d !! "image_url" = Some (Article.of_optional (Article.image_url a))
  ∧ d !! "keywords" = Some (Article.VList (Article.keywords a))
  ∧ d !! "summary" = Some (Article.of_optional (Article.summary a))
  ∧ d !! "sentiment_score" = Some (Article.VFloat (Article.sentiment_score a))
  ∧ d !! "relevance_scores" = Some (Article.VDict (Article.relevance_scores a)).
Proof. cbv zeta. split_and!; to_dict_lookup. Qed.

(** C10. For every article whose publication timestamp is recovered
    from its ISO-format string by [datetime.fromisoformat],
    [from_dict (to_dict a)] is the article [a], field for field. *)
Theorem from_dict_to_dict (a : Article.t) :
  fromisoformat (isoformat (Article.published_date a))
    = Some (Article.published_date a) →
  Article.from_dict (Article.to_dict a) = Some a.
Proof.
  intros Hdate.
  destruct (to_dict_fields a)
    as (Hi & Ht & Hu & Hs & Hp & Hc & Hcat & Hau & Him & Hkw & Hsu & Hse & Hrs).
  unfold Article.from_dict, Article.getitem, Article.get.
  rewrite Hi, Ht, Hu, Hs, Hp, Hc, Hcat, Hau, Him, Hkw, Hsu, Hse, Hrs.
  cbn [mbind option_bind default id Article.as_str].
  rewrite Hdate, !as_optional_of_optional.
  cbn [mbind option_bind Article.as_str Article.as_float Article.as_list
       Article.as_dict].
  by destruct a.
Qed.

End ArticleDict.

Section ArticleDictExamples.

Local Existing Instance Sample.naive.

Lemma from_dict_to_dict_witness :
  fromisoformat (isoformat (Article.published_date Sample.article))
    = Some (Article.published_date Sample.article)
  ∧ Article.from_dict (Article.to_dict Sample.article) = Some Sample.article.
Proof.
  split.
  - reflexivity.
  - apply (from_dict_to_dict Sample.article). reflexivity.
Defined.

End ArticleDictExamples.

(** ** The stand-alone summarizer of [utils/text_utils.py] *)

Section TextUtilsSummarizer.

Context `{Nltk}.
Local Open Scope Qc_scope.

Lemma text_utils_sentence_score_total word_freq sentence :
  is_Some (TextUtils.sentence_score word_freq sentence).
Proof.
  unfold TextUtils.sentence_score. cbv zeta. case_decide as Hcount; [by eexists|].
  rewrite py_div_some; [by eexists|].
  intros Hz%py_of_nat_zero. done.
Qed.

(** The scored indices are positions of the sentence list, in
    increasing order. *)
Lemma sentence_scores_from_indices word_freq sentences :
  ∀ i, ∃ scores,
    TextUtils.sentence_scores_from word_freq i sentences = Some scores
    ∧ StronglySorted lt scores.*1
    ∧ Forall (λ j, i ≤ j < i + length sentences)%nat scores.*1.
Proof.
  induction sentences as [|sentence rest IH]; intros i.
  - exists []. split; [done|]. split; constructor.
  - destruct (text_utils_sentence_score_total word_freq sentence) as [entry Hentry].
    destruct (IH (S i)) as (scores & Hscores & Hsorted & Hrange).
    assert (Hrange' : Forall (λ j, i < j < i + length (sentence :: rest))%nat scores.*1).
    { eapply Forall_impl; [exact Hrange|]. simpl. lia. }
    cbn [TextUtils.sentence_scores_from]. rewrite Hentry, Hscores.
    cbn [mbind option_bind]. destruct entry as [score|].
    + exists ((i, score) :: scores). split; [done|]. rewrite fmap_cons. split.
      * constructor; [done|]. eapply Forall_impl; [exact Hrange'|]. simpl. lia.
      * constructor; [simpl; lia|].
        eapply Forall_impl; [exact Hrange'|]. simpl. lia.
    + exists scores. split; [done|]. split; [done|].
      eapply Forall_impl; [exact Hrange'|]. simpl. lia.
Qed.

Lemma strictly_sorted_nodup (l : list nat) : StronglySorted lt l → NoDup l.
Proof.
  induction 1 as [|i l _ IH Hi]; constructor; [|done].
  intros Hin. rewrite Forall_forall in Hi. specialize (Hi i Hin). lia.
Qed.

(** [extract_sentences] returns sentences of the cleaned text in the
    order in which the text has them. *)
Lemma extract_sentences_source_order (text : string) (max_sentences : Z) :
  ∃ sentences,
    TextUtils.extract_sentences text max_sentences = Some sentences
    ∧ sentences `sublist_of` sent_tokenize (TextUtils.clean_text text).
Proof.
  unfold TextUtils.extract_sentences. cbv zeta.
  set (all := sent_tokenize (TextUtils.clean_text text)).
  case_decide as Hshort; [by exists all|].
  destruct (sentence_scores_from_indices
              (TextUtils.calculate_word_frequency (TextUtils.clean_text text)) all 0)
    as (scores & -> & Hsorted & Hrange).
  cbn [mbind option_bind].
  destruct (slice_to_prefix max_sentences (Py.sorted_desc snd scores)) as [k ->].
  rewrite fmap_take.
  assert (Hperm : (Py.sorted_desc snd scores).*1 ≡ₚ scores.*1)
    by (by rewrite sorted_desc_perm).
  destruct (lookup_increasing all
              (Py.sort_nat (take k (Py.sorted_desc snd scores).*1)))
    as (selected & Hsel & Hsub & _).
  - apply sort_nat_increasing. eapply sublist_NoDup; [|apply sublist_take].
    rewrite Hperm. by apply strictly_sorted_nodup.
  - rewrite sort_nat_perm. apply Forall_take. rewrite Hperm.
    eapply Forall_impl; [exact Hrange|]. simpl. lia.
  - by exists selected.
Qed.

(** At or below the requested number of sentences the stand-alone
    summarizer joins all sentences of the cleaned text. *)
Lemma text_utils_generate_summary_short (text : string) (max_sentences : Z) :
  (Z.of_nat (length (sent_tokenize (TextUtils.clean_text text))) ≤ max_sentences)%Z →
  TextUtils.generate_summary text max_sentences
    = Py.join " " (sent_tokenize (TextUtils.clean_text text)).
Proof.
  intros Hshort. unfold TextUtils.generate_summary, TextUtils.extract_sentences.
  cbv zeta. by rewrite decide_True.
Qed.

End TextUtilsSummarizer.

Section TextUtilsExamples.

Local Existing Instance Sample.nltk.

(** The stand-alone summarizer returns the cleaned text, which is not
    the text it was given when that holds markup or runs of blanks. *)
Example text_utils_generate_summary_cleans :
  TextUtils.generate_summary "Rates  <b>rose</b>." 3 = "Rates rose .".
Proof. by vm_compute. Qed.

End TextUtilsExamples.

(** ** Order of the sentences in a summary *)

Section SummaryOrder.

Context `{Nltk}.

(** C6. The sentences of a summary stand in the order of the source
    text, whatever their scores.  The summarizer of the pipeline returns
    either the text itself (at most the target number of sentences) or
    the selected sentences joined by blanks, the selection being a
    subsequence of the sentences of the text; the stand-alone
    [extract_sentences] returns a subsequence of the sentences of the
    cleaned text. *)
Theorem generate_summary_source_order
    (self : ArticleProcessor.t) (text : string) (max_sentences : Z) :
  (∃ summary,
     ArticleProcessor.generate_summary self text = Some summary
     ∧ (((Z.of_nat (length (Py.split_sentences text))
            ≤ ArticleProcessor.summarize_length self)%Z
         ∧ summary = text)
        ∨ ((ArticleProcessor.summarize_length self
              < Z.of_nat (length (Py.split_sentences text)))%Z
           ∧ ∃ selected,
               selected `sublist_of` Py.split_sentences text
               ∧ summary = Py.join " " selected)))
  ∧ (∃ sentences,
       TextUtils.extract_sentences text max_sentences = Some sentences
       ∧ sentences `sublist_of` sent_tokenize (TextUtils.clean_text text)).
Proof.
  split; [|apply extract_sentences_source_order].
  destruct (decide (Z.of_nat (length (Py.split_sentences text))
                    ≤ ArticleProcessor.summarize_length self)%Z) as [Hshort|Hlong].
  - exists text. split; [|by left].
    unfold ArticleProcessor.generate_summary. cbv zeta.
    rewrite decide_False by apply split_sentences_nonempty.
    by rewrite decide_True.
  - destruct (generate_summary_long_text self text) as (selected & Hsum & Hsub);
      [lia|].
    exists (Py.join " " selected). split; [done|]. right.
    split; [lia|]. by exists selected.
Qed.

End SummaryOrder.

(** ** The stand-in [datetime]: [parse] inverts [format] *)

Section NaiveDatetime.

Import Sample.

Lemma string_app_assoc (s1 s2 s3 : string) :
  (s1 +:+ s2) +:+ s3 = s1 +:+ (s2 +:+ s3).
Proof.
  induction s1 as [|c s1 IH]; [done|].
  change (String c ((s1 +:+ s2) +:+ s3) = String c (s1 +:+ s2 +:+ s3)).
  by rewrite IH.
Qed.

Lemma string_app_nil_r (s : string) : s +:+ "" = s.
Proof.
  induction s as [|c s IH]; [done|].
  change (String c (s +:+ "") = String c s). by rewrite IH.
Qed.

Lemma digit_val_char k : digit_val (digit_char k) = Some (k mod 10)%nat.
Proof.
  unfold digit_val, digit_char. cbv zeta.
  assert (Hk : (k mod 10 < 10)%nat) by (apply Nat.mod_upper_bound; lia).
  rewrite nat_ascii_embedding by lia.
  rewrite bool_decide_eq_true_2 by lia. f_equal. lia.
Qed.

Lemma take_digits_add w1 : ∀ w2 acc s,
  take_digits (w1 + w2) acc s
    = '(a, r) ← take_digits w1 acc s; take_digits w2 a r.
Proof.
  induction w1 as [|w1 IH]; intros w2 acc s; [done|].
  simpl. destruct s as [|c s]; [done|].
  destruct (digit_val c) as [k|]; [|done]. simpl. apply IH.
Qed.

(** Reading back a number written with [w] digits. *)
Lemma take_digits_pad w : ∀ n acc rest,
  (n < 10 ^ w)%nat →
  take_digits w acc (pad w n +:+ rest) = Some (acc * 10 ^ w + n, rest)%nat.
Proof.
  induction w as [|w IH]; intros n acc rest Hn.
  - simpl in *. do 2 f_equal. lia.
  - replace (S w) with (w + 1)%nat at 1 by lia.
    rewrite take_digits_add. cbn [pad].
    rewrite string_app_assoc.
    rewrite IH.
    + change (String (digit_char n) "" +:+ rest) with (String (digit_char n) rest).
      cbn [mbind option_bind take_digits]. rewrite digit_val_char.
      cbn [mbind option_bind]. do 2 f_equal.
      pose proof (Nat.div_mod_eq n 10). rewrite Nat.pow_succ_r'. lia.
    + rewrite Nat.pow_succ_r' in Hn.
      apply Nat.Div0.div_lt_upper_bound. lia.
Qed.

Lemma take_digits_pad_0 w n rest :
  (n < 10 ^ w)%nat → take_digits w 0 (pad w n +:+ rest) = Some (n, rest).
Proof. intros Hn. by rewrite take_digits_pad. Qed.

Lemma two_digits n : (n < 100)%nat → (n < 10 ^ 2)%nat.
Proof. intros Hn. assert (10 ^ 2 = 100)%nat as -> by reflexivity. exact Hn. Qed.

Lemma expect_app (c : ascii) (rest : string) :
  expect c (String c "" +:+ rest) = Some rest.
Proof.
  change (String c "" +:+ rest) with (String c rest).
  unfold expect. by rewrite decide_True.
Qed.

Lemma parse_format (d : naive_datetime) : valid d → parse (format d) = Some d.
Proof.
  intros Hvalid. pose proof Hvalid as (Hy & Hmo & Hd & Hh & Hmi & Hs & Hus).
  assert (Hdays : (days_in_month (year d) (month d) ≤ 31)%nat).
  { unfold days_in_month. repeat case_decide; repeat case_match; lia. }
  destruct d as [y mo dd h mi se us]. cbn [year month day hour minute second
    microsecond] in *.
  unfold parse, format. cbn [year month day hour minute second microsecond].
  rewrite take_digits_pad_0 by apply Hy. cbn [mbind option_bind].
  rewrite expect_app. cbn [mbind option_bind].
  rewrite take_digits_pad_0 by (apply two_digits; lia). cbn [mbind option_bind].
  rewrite expect_app. cbn [mbind option_bind].
  rewrite take_digits_pad_0 by (apply two_digits; lia). cbn [mbind option_bind].
  rewrite expect_app. cbn [mbind option_bind].
  rewrite take_digits_pad_0 by (apply two_digits; lia). cbn [mbind option_bind].
  rewrite expect_app. cbn [mbind option_bind].
  rewrite take_digits_pad_0 by (apply two_digits; lia). cbn [mbind option_bind].
  rewrite expect_app. cbn [mbind option_bind].
  rewrite take_digits_pad_0 by (apply two_digits; lia). cbn [mbind option_bind].
  destruct (decide (us = 0)%nat) as [->|Hne].
  - cbn [mbind option_bind]. by rewrite decide_True.
  - change ("." +:+ pad 6 us) with (String "."%char (pad 6 us)).
    cbn [mbind option_bind expect]. rewrite decide_True by done.
    cbn [mbind option_bind].
    rewrite <- (string_app_nil_r (pad 6 us)) at 1.
    rewrite take_digits_pad_0 by apply Hus. cbn [mbind option_bind].
    rewrite decide_True by done.
    cbn [mbind option_bind]. by rewrite decide_True.
Qed.

End NaiveDatetime.

(** * Further properties of the code *)

(** ** Range and shape of the relevance score *)

Section RelevanceRange.

Local Open Scope Qc_scope.

(** Order facts on [Qc] through linear arithmetic on [Q]. *)
Ltac qc_order :=
  unfold Qcle, Qclt, Qcdiv, Qcminus, Qcplus, Qcmult, Qcopp, Q2Qc in *;
  cbn [this] in *;
  repeat (setoid_rewrite Qred_correct);
  repeat match goal with
         | H : _ |- _ => progress (setoid_rewrite Qred_correct in H)
         end;
  repeat match goal with
         | |- context [this ?x] => generalize dependent (this x)
         | H : context [this ?x] |- _ => generalize dependent (this x)
         end;
  intros; lra.

Lemma quarter r : r / Q2Qc 4 = r * Q2Qc (1 # 4).
Proof. unfold Qcdiv. f_equal. Qed.

Lemma py_min_cases a b : (Py.min a b = a ∧ a ≤ b) ∨ (Py.min a b = b ∧ b < a).
Proof.
  unfold Py.min. case_decide as Hlt; [by right|left].
  split; [done|by apply Qcnot_lt_le].
Qed.

Lemma py_max_cases a b : (Py.max a b = a ∧ b ≤ a) ∨ (Py.max a b = b ∧ a < b).
Proof.
  unfold Py.max. case_decide as Hlt; [by right|left].
  split; [done|by apply Qcnot_lt_le].
Qed.

Lemma clamp_mono r r' :
  r ≤ r' → Py.max 0 (Py.min r 1) ≤ Py.max 0 (Py.min r' 1).
Proof. intros Hr. unfold Py.max, Py.min. repeat case_decide; qc_order. Qed.

Lemma clamp_below r c : 0 ≤ c → r ≤ c → Py.max 0 (Py.min r 1) ≤ c.
Proof. intros Hc Hr. unfold Py.max, Py.min. repeat case_decide; qc_order. Qed.

Lemma clamp_nonpos r : r ≤ 0 → Py.max 0 (Py.min r 1) = 0.
Proof.
  intros Hr. unfold Py.max. rewrite decide_False; [done|].
  unfold Py.min. case_decide; qc_order.
Qed.

Lemma quotient_nonneg a b : 0 ≤ a → 0 < b → 0 ≤ a / b.
Proof.
  intros Ha Hb. apply (Qcmult_lt_0_le_reg_r _ _ b Hb).
  rewrite Qcmult_0_l, Qcmult_comm, Qcmult_div_r; [done|].
  intros ->. by apply (Qclt_not_eq 0 0).
Qed.

(** The interest step adds a term between 0 and 1.5, and nothing when
    no keyword matches an interest. *)
Lemma add_interest_score_range (self : User.t) kws score :
  ∃ term, User.add_interest_score self kws score = Some (score + term)
          ∧ 0 ≤ term ∧ term ≤ Q2Qc (3 # 2)
          ∧ (User.interest_match self kws = 0%nat → term = 0).
Proof.
  unfold User.add_interest_score. cbv zeta. case_bool_decide as Hpos.
  - assert (Hlen : (0 < length (User.interests self))%nat)
      by by apply interest_match_pos in Hpos.
    rewrite py_div_some by (intros Hz%py_of_nat_zero; lia).
    cbn [mbind option_bind]. eexists. split; [done|].
    set (r := Py.of_nat _ / Py.of_nat _).
    assert (Hr : 0 ≤ r).
    { apply quotient_nonneg; [|by apply py_of_nat_pos].
      apply Qclt_le_weak, py_of_nat_pos. lia. }
    split_and!.
    + destruct (py_min_cases r 1) as [[-> ?]|[-> ?]]; qc_order.
    + destruct (py_min_cases r 1) as [[-> ?]|[-> ?]]; qc_order.
    + intros Hz. lia.
  - exists 0. split; [by rewrite Qcplus_0_r|]. split_and!; [done|qc_order|done].
Qed.

(** The exclusion step subtracts 0.5 or nothing. *)
Lemma sub_excluded_penalty_range (self : User.t) kws score :
  ∃ penalty, User.sub_excluded_penalty self kws score = score - penalty
             ∧ 0 ≤ penalty ∧ penalty ≤ Q2Qc (1 # 2)
             ∧ (User.excluded_match self kws = 0%nat → penalty = 0).
Proof.
  unfold User.sub_excluded_penalty. cbv zeta. case_bool_decide as Hpos.
  - exists (Q2Qc (1 # 2)). unfold User.excluded_penalty.
    rewrite py_min_one by done. rewrite Qcmult_1_l.
    split_and!; [done|qc_order|qc_order|lia].
  - exists 0. split; [by unfold Qcminus; rewrite Qcplus_0_r|].
    split_and!; [done|qc_order|done].
Qed.

(** The score in terms of its three parts. *)
Lemma matches_article_parts (self : User.t) kws source category :
  ∃ base term penalty,
    User.matches_article self kws source category
      = Some (Py.max 0 (Py.min ((base + term - penalty) / Q2Qc 4) 1))
    ∧ (0 ≤ base ∧ base ≤ Q2Qc 2)
    ∧ (source ∉ User.preferred_sources self →
       category ∉ User.preferred_categories self → base = 0)
    ∧ User.add_interest_score self kws base = Some (base + term)
    ∧ (0 ≤ term ∧ term ≤ Q2Qc (3 # 2))
    ∧ (User.interest_match self kws = 0%nat → term = 0)
    ∧ (0 ≤ penalty ∧ penalty ≤ Q2Qc (1 # 2))
    ∧ (User.excluded_match self kws = 0%nat → penalty = 0).
Proof.
  unfold User.matches_article. cbv zeta.
  set (base := if bool_decide (category ∈ _) then _ else _).
  destruct (add_interest_score_range self kws base) as (term & Hadd & Ht0 & Ht1 & Htz).
  destruct (sub_excluded_penalty_range self kws (base + term))
    as (penalty & Hsub & Hp0 & Hp1 & Hpz).
  exists base, term, penalty. rewrite Hadd. cbn [mbind option_bind].
  rewrite (py_div_some _ _ four_nonzero). cbn [mbind option_bind]. rewrite Hsub.
  split; [done|]. split_and!; try done.
  - subst base. repeat case_bool_decide; qc_order.
  - subst base. repeat case_bool_decide; qc_order.
  - intros Hs Hc. subst base. by rewrite !bool_decide_eq_false_2.
Qed.

(** X1. The relevance score never exceeds 0.875: the three positive
    signals add up to at most 3.5 of the 4.0 the sum is divided by. *)
Theorem relevance_at_most_seven_eighths
    (self : User.t) (kws : list string) (source category : string) :
  ∃ score, User.matches_article self kws source category = Some score
           ∧ score ≤ Q2Qc (7 # 8).
Proof.
  destruct (matches_article_parts self kws source category)
    as (base & term & penalty & -> & [Hb0 Hb1] & _ & _ & [Ht0 Ht1] & _ & [Hp0 Hp1] & _).
  eexists. split; [done|]. apply clamp_below; [qc_order|].
  rewrite quarter. qc_order.
Qed.

(** The bound is reached when source, category and every interest match. *)
Example relevance_seven_eighths_reached :
  User.matches_article Sample.reader ["ai"; "machine learning"]
    "TechCrunch" "technology" = Some (Q2Qc (7 # 8)).
Proof.
  destruct (matches_article_clamped Sample.reader ["ai"; "machine learning"]
              "TechCrunch" "technology") as [r Hr].
  rewrite Hr. f_equal. apply Qc_is_canon.
  assert (Hv : this <$> User.matches_article Sample.reader
                 ["ai"; "machine learning"] "TechCrunch" "technology"
               = Some (7 # 8)%Q) by (vm_compute; reflexivity).
  rewrite Hr in Hv. injection Hv as ->. reflexivity.
Qed.

(** X2. An article that matches none of the positive signals (source
    not preferred, category not preferred, no keyword matching an
    interest) scores exactly 0, whatever the excluded keywords. *)
Theorem relevance_zero_without_match
    (self : User.t) (kws : list string) (source category : string) :
  source ∉ User.preferred_sources self →
  category ∉ User.preferred_categories self →
  User.interest_match self kws = 0%nat →
  User.matches_article self kws source category = Some 0.
Proof.
  intros Hs Hc Hi.
  destruct (matches_article_parts self kws source category)
    as (base & term & penalty & -> & _ & Hbase & _ & _ & Hterm & [Hp0 Hp1] & _).
  rewrite (Hbase Hs Hc), (Hterm Hi). f_equal. apply clamp_nonpos.
  rewrite quarter. qc_order.
Qed.

Lemma relevance_zero_without_match_witness :
  ("Wired" ∉ User.preferred_sources Sample.reader)
  ∧ ("sports" ∉ User.preferred_categories Sample.reader)
  ∧ User.interest_match Sample.reader ["football"; "league"] = 0%nat
  ∧ User.matches_article Sample.reader ["football"; "league"] "Wired" "sports"
      = Some 0.
Proof.
  assert (Hs : "Wired" ∉ User.preferred_sources Sample.reader)
    by (apply (bool_decide_unpack _); vm_compute; exact I).
  assert (Hc : "sports" ∉ User.preferred_categories Sample.reader)
    by (apply (bool_decide_unpack _); vm_compute; exact I).
  split; [exact Hs|]. split; [exact Hc|]. split; [reflexivity|].
  apply (relevance_zero_without_match Sample.reader ["football"; "league"]
           "Wired" "sports" Hs Hc). reflexivity.
Defined.

Lemma clamp_step r r' :
  r ≤ r' → Py.max 0 (Py.min r' 1) ≤ Py.max 0 (Py.min r 1) + (r' - r).
Proof. intros Hr. unfold Py.max, Py.min. repeat case_decide; qc_order. Qed.

Lemma excluded_match_without_exclusions (self : User.t) kws :
  User.excluded_match (Profile.without_exclusions self) kws = 0%nat.
Proof. apply count_false, keyword_matches_nil. Qed.

(** X3. Excluded keywords can only lower the score, and by at most
    0.125: the score of a profile is between the score of the same
    profile with the exclusions cleared minus 0.125 and that score. *)
Theorem exclusions_only_lower_the_score
    (self : User.t) (kws : list string) (source category : string) :
  ∃ score score',
    User.matches_article self kws source category = Some score
    ∧ User.matches_article (Profile.without_exclusions self) kws source category
        = Some score'
    ∧ score ≤ score' ∧ score' ≤ score + Q2Qc (1 # 8).
Proof.
  unfold User.matches_article. cbv zeta.
  change (User.preferred_sources (Profile.without_exclusions self))
    with (User.preferred_sources self).
  change (User.preferred_categories (Profile.without_exclusions self))
    with (User.preferred_categories self).
  set (base := if bool_decide (category ∈ _) then _ else _).
  change (User.add_interest_score (Profile.without_exclusions self) kws base)
    with (User.add_interest_score self kws base).
  destruct (add_interest_score_range self kws base) as (term & -> & _).
  cbn [mbind option_bind]. rewrite !(py_div_some _ _ four_nonzero).
  cbn [mbind option_bind].
  destruct (sub_excluded_penalty_range self kws (base + term))
    as (penalty & -> & Hp0 & Hp1 & _).
  destruct (sub_excluded_penalty_range (Profile.without_exclusions self) kws
              (base + term)) as (penalty' & -> & _ & _ & Hpz).
  rewrite (Hpz (excluded_match_without_exclusions self kws)).
  eexists _, _. split; [done|]. split; [done|]. rewrite !quarter. split.
  - apply clamp_mono. qc_order.
  - clear Hpz. etrans.
    + apply (clamp_step ((base + term - penalty) * Q2Qc (1 # 4))).
      qc_order.
    + set (c := Py.max 0 _). clearbody c.
      qc_order.
Qed.

Lemma clamp_top r : r ≤ 1 → Py.max 0 (Py.min r 1) = Py.max 0 r.
Proof.
  intros Hr. unfold Py.min. rewrite decide_False; [done|].
  by apply Qcle_not_lt.
Qed.

Lemma clamp_inside r : 0 ≤ r → r ≤ 1 → Py.max 0 (Py.min r 1) = r.
Proof.
  intros Hlo Hhi. rewrite clamp_top by done. unfold Py.max.
  case_decide as Hlt; [done|]. apply Qcle_antisym; [done|].
  by apply Qcnot_lt_le.
Qed.

(** C7. The excluded-keyword penalty is capped: two keyword lists with
    the same interest overlap, scored for the same profile against
    sources and categories that match the preferences alike, get the
    same relevance score as soon as each has at least one keyword
    matching an excluded term, however many match; the deduction is
    [min(matchCount, 1.0) * 0.5 = 0.5] in both cases, and it is taken
    off the score: with [before] the sum of the source, category and
    interest terms (four times the score of the same profile with its
    exclusions cleared), both scores are [max(0, (before - 0.5) / 4)]. *)
Theorem excluded_penalty_capped
    (self : User.t) (kws1 kws2 : list string)
    (source1 source2 category1 category2 : string) :
  bool_decide (source1 ∈ User.preferred_sources self)
    = bool_decide (source2 ∈ User.preferred_sources self) →
  bool_decide (category1 ∈ User.preferred_categories self)
    = bool_decide (category2 ∈ User.preferred_categories self) →
  User.interest_match self kws1 = User.interest_match self kws2 →
  (1 ≤ User.excluded_match self kws1)%nat →
  (1 ≤ User.excluded_match self kws2)%nat →
  User.matches_article self kws1 source1 category1
    = User.matches_article self kws2 source2 category2
  ∧ User.excluded_penalty (User.excluded_match self kws1) = Q2Qc (1 # 2)
  ∧ User.excluded_penalty (User.excluded_match self kws2) = Q2Qc (1 # 2)
  ∧ ∃ before : Qc,
      User.matches_article (Profile.without_exclusions self) kws1 source1 category1
        = Some (before / Q2Qc 4)
      ∧ User.matches_article (Profile.without_exclusions self) kws2 source2 category2
          = Some (before / Q2Qc 4)
      ∧ User.matches_article self kws1 source1 category1
          = Some (Py.max 0 ((before - Q2Qc (1 # 2)) / Q2Qc 4))
      ∧ User.matches_article self kws2 source2 category2
          = Some (Py.max 0 ((before - Q2Qc (1 # 2)) / Q2Qc 4)).
Proof.
  intros Hsrc Hcat Hint Hex1 Hex2.
  assert (Hpen : ∀ m, (1 ≤ m)%nat → User.excluded_penalty m = Q2Qc (1 # 2)).
  { intros m Hm. unfold User.excluded_penalty.
    rewrite py_min_one by lia. apply Qcmult_1_l. }
  assert (Hadd : ∀ b, User.add_interest_score self kws2 b
                      = User.add_interest_score self kws1 b).
  { intros b. unfold User.add_interest_score. by rewrite Hint. }
  assert (Hsub : ∀ kws b, (1 ≤ User.excluded_match self kws)%nat →
                   User.sub_excluded_penalty self kws b = b - Q2Qc (1 # 2)).
  { intros kws b Hm. unfold User.sub_excluded_penalty. cbv zeta.
    rewrite bool_decide_eq_true_2 by lia. by rewrite Hpen. }
  assert (Hclean : ∀ kws b,
            User.sub_excluded_penalty (Profile.without_exclusions self) kws b = b).
  { intros kws b. unfold User.sub_excluded_penalty. cbv zeta.
    by rewrite excluded_match_without_exclusions. }
  split_and!; [|by apply Hpen|by apply Hpen|].
  - unfold User.matches_article, User.add_interest_score,
      User.sub_excluded_penalty. cbv zeta.
    rewrite Hsrc, Hcat, Hint.
    rewrite !bool_decide_eq_true_2 with (P := (0 < User.excluded_match _ _)%nat)
      by lia.
    by rewrite !Hpen.
  - unfold User.matches_article. cbv zeta.
    change (User.preferred_sources (Profile.without_exclusions self))
      with (User.preferred_sources self).
    change (User.preferred_categories (Profile.without_exclusions self))
      with (User.preferred_categories self).
    rewrite <- Hsrc, <- Hcat.
    set (base := if bool_decide (category1 ∈ _) then _ else _).
    change (User.add_interest_score (Profile.without_exclusions self) kws1 base)
      with (User.add_interest_score self kws1 base).
    change (User.add_interest_score (Profile.without_exclusions self) kws2 base)
      with (User.add_interest_score self kws2 base).
    rewrite !Hadd.
    destruct (add_interest_score_range self kws1 base)
      as (term & -> & Ht0 & Ht1 & _).
    cbn [mbind option_bind]. rewrite !Hclean, !Hsub by done.
    rewrite !(py_div_some _ _ four_nonzero). cbn [mbind option_bind].
    assert (Hb : 0 ≤ base ∧ base ≤ Q2Qc 2)
      by (subst base; repeat case_bool_decide; qc_order).
    destruct Hb as [Hb0 Hb1]. clearbody base.
    exists (base + term).
    rewrite clamp_inside, clamp_top; [done| | |]; rewrite quarter; qc_order.
Qed.

Lemma excluded_penalty_capped_witness :
  User.matches_article Sample.cautious_reader ["crypto"; "ai"] "Wired" "technology"
    = User.matches_article Sample.cautious_reader
        ["crypto"; "cryptocurrency"; "ai"] "Wired" "business"
  ∧ User.excluded_penalty
      (User.excluded_match Sample.cautious_reader ["crypto"; "ai"]) = Q2Qc (1 # 2)
  ∧ User.excluded_penalty
      (User.excluded_match Sample.cautious_reader
         ["crypto"; "cryptocurrency"; "ai"]) = Q2Qc (1 # 2)
  ∧ ∃ before : Qc,
      User.matches_article (Profile.without_exclusions Sample.cautious_reader)
        ["crypto"; "ai"] "Wired" "technology" = Some (before / Q2Qc 4)
      ∧ User.matches_article (Profile.without_exclusions Sample.cautious_reader)
          ["crypto"; "cryptocurrency"; "ai"] "Wired" "business"
          = Some (before / Q2Qc 4)
      ∧ User.matches_article Sample.cautious_reader ["crypto"; "ai"]
          "Wired" "technology"
          = Some (Py.max 0 ((before - Q2Qc (1 # 2)) / Q2Qc 4))
      ∧ User.matches_article Sample.cautious_reader
          ["crypto"; "cryptocurrency"; "ai"] "Wired" "business"
          = Some (Py.max 0 ((before - Q2Qc (1 # 2)) / Q2Qc 4)).
Proof.
  apply (excluded_penalty_capped Sample.cautious_reader
           ["crypto"; "ai"] ["crypto"; "cryptocurrency"; "ai"]
           "Wired" "Wired" "technology" "business").
  - reflexivity.
  - reflexivity.
  - reflexivity.
  - vm_compute. lia.
  - vm_compute. lia.
Defined.

(** One excluded keyword or two: 1.5 - 0.5 of 4.0 either way, against
    1.5 of 4.0 for the profile without its exclusions. *)
Example excluded_penalty_example :
  this <$> User.matches_article Sample.cautious_reader ["crypto"; "ai"]
             "Wired" "technology" = Some (1 # 4)%Q
  ∧ this <$> User.matches_article Sample.cautious_reader
               ["crypto"; "cryptocurrency"; "ai"] "Wired" "business"
      = Some (1 # 4)%Q
  ∧ this <$> User.matches_article (Profile.without_exclusions Sample.cautious_reader)
               ["crypto"; "ai"] "Wired" "technology" = Some (3 # 8)%Q.
Proof. by vm_compute. Qed.

End RelevanceRange.

(** ** Substring matching of keywords *)

Section KeywordMatching.

Lemma count_fmap {A B} (f : A → B) (q : B → bool) (xs : list A) :
  Py.count (λ x, q (f x)) xs = Py.count q (f <$> xs).
Proof.
  induction xs as [|x xs IH]; [done|].
  rewrite fmap_cons, !count_cons. by rewrite IH.
Qed.

Lemma count_true {A} (p : A → bool) (xs : list A) :
  (∀ x, p x = true) → Py.count p xs = length xs.
Proof.
  intros Hp. induction xs as [|x xs IH]; [done|].
  rewrite count_cons, Hp, IH. done.
Qed.

(** The match of a keyword depends on the lower-case forms only. *)
Lemma keyword_matches_lower terms keyword :
  User.keyword_matches terms keyword
    = existsb (λ term, Py.contains term (Py.lower keyword)) (Py.lower <$> terms).
Proof.
  unfold User.keyword_matches, Py.any.
  induction terms as [|t terms IH]; [done|].
  rewrite fmap_cons. simpl. by rewrite IH.
Qed.

Lemma match_count_lower terms1 terms2 kws1 kws2 :
  Py.lower <$> terms1 = Py.lower <$> terms2 →
  Py.lower <$> kws1 = Py.lower <$> kws2 →
  Py.count (User.keyword_matches terms1) kws1
    = Py.count (User.keyword_matches terms2) kws2.
Proof.
  intros Hterms Hkws.
  rewrite (count_ext (User.keyword_matches terms1)
             (λ k, existsb (λ term, Py.contains term (Py.lower k))
                     (Py.lower <$> terms1)))
    by (intros; apply keyword_matches_lower).
  rewrite (count_ext (User.keyword_matches terms2)
             (λ k, existsb (λ term, Py.contains term (Py.lower k))
                     (Py.lower <$> terms2)))
    by (intros; apply keyword_matches_lower).
  rewrite (count_fmap Py.lower
             (λ lk, existsb (λ term, Py.contains term lk) (Py.lower <$> terms1))).
  rewrite (count_fmap Py.lower
             (λ lk, existsb (λ term, Py.contains term lk) (Py.lower <$> terms2))).
  by rewrite Hterms, Hkws.
Qed.

(** X4. Matching ignores letter case on both sides: two profiles with
    the same preferred sources and categories whose interests and
    excluded keywords agree after lower-casing give, on two keyword
    lists that agree after lower-casing, the same relevance score. *)
Theorem relevance_ignores_letter_case
    (user1 user2 : User.t) (kws1 kws2 : list string) (source category : string) :
  User.preferred_sources user1 = User.preferred_sources user2 →
  User.preferred_categories user1 = User.preferred_categories user2 →
  Py.lower <$> User.interests user1 = Py.lower <$> User.interests user2 →
  Py.lower <$> User.excluded_keywords user1
    = Py.lower <$> User.excluded_keywords user2 →
  Py.lower <$> kws1 = Py.lower <$> kws2 →
  User.matches_article user1 kws1 source category
    = User.matches_article user2 kws2 source category.
Proof.
  intros Hsrc Hcat Hint Hexc Hkws.
  assert (Hlen : length (User.interests user1) = length (User.interests user2)).
  { rewrite <- (length_fmap Py.lower (User.interests user1)), Hint.
    apply length_fmap. }
  unfold User.matches_article, User.add_interest_score,
    User.sub_excluded_penalty, User.interest_match, User.excluded_match.
  cbv zeta. rewrite Hsrc, Hcat, Hlen.
  rewrite (match_count_lower _ _ _ _ Hint Hkws).
  by rewrite (match_count_lower _ _ _ _ Hexc Hkws).
Qed.

Lemma relevance_ignores_letter_case_witness :
  User.matches_article Sample.reader ["AI"; "Startup"] "TechCrunch" "technology"
    = User.matches_article Sample.reader ["ai"; "startup"] "TechCrunch" "technology".
Proof.
  apply (relevance_ignores_letter_case Sample.reader Sample.reader
           ["AI"; "Startup"] ["ai"; "startup"] "TechCrunch" "technology");
    reflexivity.
Defined.

Lemma contains_empty hay : Py.contains "" hay = true.
Proof. by destruct hay. Qed.

(** X5. The empty string is a substring of every keyword: a profile
    that lists it among its interests matches every keyword of every
    article, whatever the other interests are. *)
Theorem blank_interest_matches_every_keyword (self : User.t) (kws : list string) :
  "" ∈ User.interests self →
  User.interest_match self kws = length kws.
Proof.
  intros Hblank. unfold User.interest_match. apply count_true. intros k.
  unfold User.keyword_matches, Py.any. apply existsb_exists.
  exists "". split; [by apply list_elem_of_In|]. apply contains_empty.
Qed.

Lemma blank_interest_matches_every_keyword_witness :
  "" ∈ User.interests Demo.blank_reader
  ∧ User.interest_match Demo.blank_reader ["rugby"; "opera"; "tax"] = 3%nat.
Proof.
  assert (Hin : "" ∈ User.interests Demo.blank_reader)
    by (apply (bool_decide_unpack _); vm_compute; exact I).
  split; [exact Hin|].
  apply (blank_interest_matches_every_keyword Demo.blank_reader
           ["rugby"; "opera"; "tax"] Hin).
Defined.

End KeywordMatching.

(** ** Dictionaries of articles and users *)

Section ArticleFromDict.

Context `{Datetime}.


(** X7. A dictionary with the six required keys only gives an article
    with the defaults of the dataclass (category general, no author, no
    image, no keywords, no summary, sentiment 0, empty relevance map);
    a publication date that is already a [datetime] is taken as it is. *)
Theorem article_from_dict_defaults
    (id title url source content : string) (published : datetime) :
  Article.from_dict
    (<["id" := Article.VStr id]> $
     <["title" := Article.VStr title]> $
     <["url" := Article.VStr url]> $
     <["source" := Article.VStr source]> $
     <["published_date" := Article.VDatetime published]> $
     <["content" := Article.VStr content]> ∅)
  = Some (Article.mk id title url source published content "general"
            None None [] None 0%Qc ∅).
Proof.
  unfold Article.from_dict, Article.getitem, Article.get.
  repeat (rewrite ?lookup_insert_eq, ?lookup_empty;
          rewrite ?lookup_insert_ne by discriminate).
  reflexivity.
Qed.

End ArticleFromDict.

Section ArticleFromDictExamples.

Local Existing Instance Sample.naive.


End ArticleFromDictExamples.

Section UserDictFacts.

Ltac user_dict_lookup :=
  unfold UserDict.to_dict;
  repeat (rewrite lookup_insert_ne by discriminate);
  apply lookup_insert_eq.

Lemma user_as_optional_of_optional o :
  UserDict.as_optional (UserDict.of_optional o) = Some o.
Proof. by destruct o. Qed.

Lemma user_to_dict_fields (u : User.t) :
  let d := UserDict.to_dict u in
  d !! "id" = Some (UserDict.VStr (User.id u))
  ∧ d !! "name" = Some (UserDict.VStr (User.name u))
  ∧ d !! "email" = Some (UserDict.VStr (User.email u))
  ∧ d !! "interests" = Some (UserDict.VList (User.interests u))
  ∧ d !! "preferred_sources" = Some (UserDict.VList (User.preferred_sources u))
  ∧ d !! "content_weights" = Some (UserDict.VWeights (User.content_weights u))
  ∧ d !! "newsletter_frequency" = Some (UserDict.VStr (User.newsletter_frequency u))
  ∧ d !! "max_articles_per_newsletter"
      = Some (UserDict.VInt (User.max_articles_per_newsletter u))
  ∧ d !! "preferred_categories" = Some (UserDict.VList (User.preferred_categories u))
  ∧ d !! "excluded_keywords" = Some (UserDict.VList (User.excluded_keywords u))
  ∧ d !! "language" = Some (UserDict.VStr (User.language u))
  ∧ d !! "location" = Some (UserDict.of_optional (User.location u))
  ∧ d !! "persona" = Some (UserDict.of_optional (User.persona u)).
Proof. cbv zeta. split_and!; user_dict_lookup. Qed.

Lemma user_dict_round_trip (u : User.t) :
  UserDict.from_dict (UserDict.to_dict u) = Some u.
Proof.
  destruct (user_to_dict_fields u)
    as (H1 & H2 & H3 & H4 & H5 & H6 & H7 & H8 & H9 & H10 & H11 & H12 & H13).
  unfold UserDict.from_dict, UserDict.get.
  rewrite H1, H2, H3, H4, H5, H6, H7, H8, H9, H10, H11, H12, H13.
  cbn [default id]. rewrite !user_as_optional_of_optional.
  cbn [mbind option_bind UserDict.as_str UserDict.as_list UserDict.as_int
       UserDict.as_weights].
  by destruct u.
Qed.

(** X8. The dictionary form of a user round-trips:
    [User.from_dict(u.to_dict())] is [u], field for field. *)
Theorem user_from_dict_to_dict (u : User.t) :
  UserDict.from_dict (UserDict.to_dict u) = Some u.
Proof. exact (user_dict_round_trip u). Qed.

(** X9. A dictionary that holds the identifier, the name and the
    address only gives a user with the defaults of the dataclass: no
    interests, sources, categories, weights or exclusions, daily
    frequency, ten articles, language en, no location, no persona. *)
Theorem user_from_dict_defaults (id name email : string) :
  UserDict.from_dict
    (<["id" := UserDict.VStr id]> $
     <["name" := UserDict.VStr name]> $
     <["email" := UserDict.VStr email]> ∅)
  = Some (User.mk id name email [] [] ∅ "daily" 10 [] [] "en" None None).
Proof.
  unfold UserDict.from_dict, UserDict.get.
  repeat (rewrite ?lookup_insert_eq, ?lookup_empty;
          rewrite ?lookup_insert_ne by discriminate).
  reflexivity.
Qed.

End UserDictFacts.

(** ** Scoring a batch of articles for a reader *)

Section Scoring.

Context `{Datetime} `{Nltk} `{Sklearn}.
Import Pipeline.
Local Open Scope Qc_scope.

Lemma matches_article_bounded (user : User.t) kws source category :
  ∃ score, User.matches_article user kws source category = Some score
           ∧ 0 ≤ score ∧ score ≤ 1.
Proof.
  destruct (matches_article_clamped user kws source category) as [r ->].
  eexists. split; [done|]. apply clamp_unit.
Qed.

(** X10. Scoring a batch for a reader never fails and returns the same
    articles in the same order, each with a score in [0, 1] stored
    under the reader's identifier; the scores of all other readers and
    all other fields are left as they were. *)
Theorem calculate_relevance_adds_one_score
    (self : ArticleProcessor.t) (articles : list Article.t) (user : User.t) :
  ∃ scored,
    calculate_relevance_for_user self articles user = Some scored
    ∧ Forall2
        (λ a b,
           (∃ score, Article.relevance_scores b !! User.id user = Some score
                     ∧ 0 ≤ score ∧ score ≤ 1)
           ∧ (∀ other, other ≠ User.id user →
                Article.relevance_scores b !! other
                  = Article.relevance_scores a !! other)
           ∧ b = Article.mk (Article.id a) (Article.title a) (Article.url a)
                   (Article.source a) (Article.published_date a)
                   (Article.content a) (Article.category a) (Article.author a)
                   (Article.image_url a) (Article.keywords a) (Article.summary a)
                   (Article.sentiment_score a) (Article.relevance_scores b))
        articles scored.
Proof.
  unfold calculate_relevance_for_user.
  induction articles as [|a articles (scored & Hscored & Hall)].
  - exists []. split; [done|constructor].
  - destruct (matches_article_bounded user (Article.keywords a)
                (Article.source a) (Article.category a)) as (score & Hscore & Hlo & Hhi).
    exists (Article.add_user_relevance a (User.id user) score :: scored).
    split.
    + simpl. rewrite Hscore. simpl. by rewrite Hscored.
    + constructor; [|done]. split_and!.
      * exists score. split; [apply lookup_insert_eq|done].
      * intros other Hne. simpl. by rewrite lookup_insert_ne.
      * done.
Qed.

Lemma filter_all {A} (p : A → bool) (l : list A) :
  Forall (λ x, p x = true) l → List.filter p l = l.
Proof.
  induction 1 as [|x l Hx _ IH]; [done|]. simpl. by rewrite Hx, IH.
Qed.

(** After scoring, every article of the batch has a score for the
    reader. *)
Lemma calculate_relevance_shape
    (self : ArticleProcessor.t) (articles : list Article.t) (user : User.t) :
  ∃ scored,
    calculate_relevance_for_user self articles user = Some scored
    ∧ length scored = length articles
    ∧ Forall (λ b, NewsletterGenerator.has_relevance user b = true) scored.
Proof.
  unfold calculate_relevance_for_user.
  induction articles as [|a articles (scored & Hscored & Hlen & Hall)].
  - exists []. split; [done|]. split; [done|constructor].
  - destruct (matches_article_bounded user (Article.keywords a)
                (Article.source a) (Article.category a)) as (score & Hscore & _).
    exists (Article.add_user_relevance a (User.id user) score :: scored).
    split_and!.
    + simpl. rewrite Hscore. simpl. by rewrite Hscored.
    + simpl. by rewrite Hlen.
    + constructor; [|done]. unfold NewsletterGenerator.has_relevance.
      apply bool_decide_eq_true_2. simpl. rewrite lookup_insert_eq. by eexists.
Qed.

(** X11. Scoring followed by selection: a reader with a non-negative
    size limit who is scored against a batch gets the smaller of the
    limit and the size of the batch, no article being filtered out for
    want of a score. *)
Theorem scored_batch_fills_the_newsletter
    (self : ArticleProcessor.t) (articles : list Article.t) (user : User.t) :
  (0 ≤ User.max_articles_per_newsletter user)%Z →
  ∃ scored,
    calculate_relevance_for_user self articles user = Some scored
    ∧ NewsletterGenerator.relevant_articles user scored = scored
    ∧ length (NewsletterGenerator.selected_articles user scored None)
        = Nat.min (Z.to_nat (User.max_articles_per_newsletter user))
                  (length articles).
Proof.
  intros Hlimit.
  destruct (calculate_relevance_shape self articles user)
    as (scored & Hscored & Hlen & Hall).
  exists scored. split; [done|].
  assert (Hrel : NewsletterGenerator.relevant_articles user scored = scored)
    by by apply filter_all.
  split; [done|].
  unfold NewsletterGenerator.selected_articles,
    NewsletterGenerator.sorted_articles. cbn [default].
  rewrite slice_to_nonneg by done.
  rewrite length_take, (Permutation_length (sorted_desc_perm _ _)).
  by rewrite Hrel, Hlen.
Qed.

End Scoring.

Section ScoringExamples.

Local Existing Instance Sample.naive.
Local Existing Instance Sample.nltk.
Local Existing Instance Sample.sklearn.

Lemma scored_batch_fills_the_newsletter_witness :
  (0 ≤ User.max_articles_per_newsletter Sample.reader)%Z
  ∧ ∃ scored,
      Pipeline.calculate_relevance_for_user ArticleProcessor.new Sample.inbox
        Sample.reader = Some scored
      ∧ NewsletterGenerator.relevant_articles Sample.reader scored = scored
      ∧ length (NewsletterGenerator.selected_articles Sample.reader scored None)
          = Nat.min (Z.to_nat (User.max_articles_per_newsletter Sample.reader))
                    (length Sample.inbox).
Proof.
  split.
  - vm_compute. discriminate.
  - apply (scored_batch_fills_the_newsletter ArticleProcessor.new Sample.inbox
             Sample.reader). vm_compute. discriminate.
Defined.

End ScoringExamples.

(** ** Categories outside the score table *)

Section CategoryTable.

Import ArticleProcessor.

Lemma zero_scores_keys (cats : list string) (k : string) :
  k ∈ (zero_scores cats).*1 → k ∈ cats.
Proof.
  induction cats as [|c cats IH] using rev_ind.
  - by intros ?%elem_of_nil.
  - rewrite zero_scores_snoc. case_bool_decide as Hin.
    + intros Hk. apply elem_of_app. left. by apply IH.
    + rewrite fmap_app. intros [Hk|Hk]%elem_of_app; apply elem_of_app.
      * left. by apply IH.
      * by right.
Qed.

Lemma dict_incr_keys k (d d' : list (string * nat)) :
  dict_incr k d = Some d' → d'.*1 = d.*1.
Proof.
  revert d'. induction d as [|[k' n] d IH]; intros d'; [done|].
  simpl. case_decide as Hk.
  - by intros [= <-].
  - destruct (dict_incr k d) as [d''|]; [|done]. simpl.
    intros [= <-]. rewrite !fmap_cons. f_equal. by apply IH.
Qed.

Lemma dict_incr_missing k (d : list (string * nat)) :
  k ∉ d.*1 → dict_incr k d = None.
Proof.
  induction d as [|[k' n] d IH]; [done|].
  rewrite fmap_cons. intros [Hne Hd]%not_elem_of_cons. simpl.
  rewrite decide_False by done. by rewrite IH.
Qed.

Lemma score_keyword_keys lexicons scores scores' keyword :
  score_keyword lexicons scores keyword = Some scores' →
  scores'.*1 = scores.*1.
Proof.
  unfold score_keyword. revert scores.
  induction lexicons as [|[c lex] rest IH]; intros scores.
  - by intros [= <-].
  - cbn [for_each]. case_bool_decide.
    + destruct (dict_incr c scores) as [d|] eqn:Hd; [|done].
      cbn [mbind option_bind]. intros Hrest%IH.
      rewrite Hrest. by eapply dict_incr_keys.
    + cbn [mbind option_bind]. apply IH.
Qed.

(** A keyword of a lexicon whose name is not a key of the score table
    stops the scoring with [KeyError]. *)
Lemma score_keyword_missing lexicons scores keyword c lex :
  (c, lex) ∈ lexicons → c ∉ scores.*1 → keyword ∈ lex →
  score_keyword lexicons scores keyword = None.
Proof.
  unfold score_keyword. revert scores.
  induction lexicons as [|[c0 lex0] rest IH]; intros scores Hin Hc Hkw.
  - by apply elem_of_nil in Hin.
  - cbn [for_each]. apply elem_of_cons in Hin as [[= <- <-]|Hin].
    + rewrite bool_decide_eq_true_2 by done.
      by rewrite dict_incr_missing.
    + case_bool_decide.
      * destruct (dict_incr c0 scores) as [d|] eqn:Hd; [|done].
        cbn [mbind option_bind]. apply IH; [done| |done].
        by rewrite (dict_incr_keys _ _ _ Hd).
      * cbn [mbind option_bind]. by apply IH.
Qed.

Lemma for_each_keyword_missing lexicons scores keywords keyword c lex :
  (c, lex) ∈ lexicons → c ∉ scores.*1 → keyword ∈ lex → keyword ∈ keywords →
  for_each (score_keyword lexicons) scores keywords = None.
Proof.
  intros Hin Hc Hkw. revert scores Hc.
  induction keywords as [|k keywords IH]; intros scores Hc Hk.
  - by apply elem_of_nil in Hk.
  - cbn [for_each].
    destruct (score_keyword lexicons scores k) as [scores'|] eqn:Hstep; [|done].
    cbn [mbind option_bind].
    apply elem_of_cons in Hk as [->|Hk].
    + by rewrite (score_keyword_missing _ _ _ _ _ Hin Hc Hkw) in Hstep.
    + apply IH; [|done]. by rewrite (score_keyword_keys _ _ _ _ Hstep).
Qed.

(** X12. A processor built with a category list that leaves out the
    name of one of the lexicons cannot categorize an article that has a
    keyword of that lexicon: [category_scores[category] += 1] raises
    [KeyError]. *)
Theorem categorize_article_unknown_category
    (self : t) (content : string) (keywords : list string)
    (category keyword : string) (lexicon : gset string) :
  (category, lexicon) ∈ category_keywords self →
  category ∉ categories self →
  keyword ∈ lexicon →
  keyword ∈ keywords →
  categorize_article self content keywords = None.
Proof.
  intros Hin Hcat Hkw Hk. unfold categorize_article. cbv zeta.
  rewrite (for_each_keyword_missing _ _ _ keyword category lexicon); try done.
  intros Hkey%zero_scores_keys. done.
Qed.

Lemma categorize_article_unknown_category_witness :
  categorize_article (__init__ (Some ["technology"; "science"]) 3 15 3)
    "" ["merger"; "robot"] = None.
Proof.
  apply (categorize_article_unknown_category
           (__init__ (Some ["technology"; "science"]) 3 15 3) ""
           ["merger"; "robot"] "business" "merger"
           (lexicon_of _initialize_category_keywords "business")).
  - right. left.
  - apply (bool_decide_unpack _). vm_compute. exact I.
  - apply (bool_decide_unpack _). vm_compute. exact I.
  - left.
Defined.

(** X13. With the category list of the sources the category of an
    article is always one of the nine names of that list. *)
Theorem categorize_article_in_closed_set
    (min_length max_count summary_length : Z)
    (content : string) (keywords : list string) :
  ∃ best,
    categorize_article (__init__ None min_length max_count summary_length)
      content keywords = Some best
    ∧ best ∈ [ "technology"; "business"; "politics"; "entertainment";
               "health"; "science"; "sports"; "world"; "general" ].
Proof.
  set (self := __init__ None min_length max_count summary_length).
  destruct (categorize_article_spec self content keywords)
    as (best & Hbest & Hzero & Hpos).
  - apply default_categories_nodup.
  - change (NoDup _initialize_category_keywords.*1).
    rewrite default_lexicon_names. apply default_categories_nodup.
  - change (_initialize_category_keywords.*1 ⊆ default_categories).
    by rewrite default_lexicon_names.
  - exists best. split; [done|].
    destruct (decide (Exists (λ c, 0 < overlap self c keywords)%nat
                        (categories self))) as [Hex|Hnone].
    + apply Exists_exists in Hex as (c & Hc & Hlt).
      destruct Hpos as (before & after & Hsplit & _); [by exists c|].
      change (best ∈ categories self). rewrite Hsplit.
      apply elem_of_app. right. left.
    + rewrite Hzero; [do 8 right; left|].
      intros c Hc. apply not_Exists_Forall in Hnone; [|intros ?; apply _].
      rewrite Forall_forall in Hnone. specialize (Hnone c Hc). simpl in Hnone. lia.
Qed.

End CategoryTable.

(** ** Processing a batch of articles *)

Section Processing.

Context `{Datetime} `{Nltk} `{Sklearn}.
Import Pipeline.

Lemma analyze_sentiment_total (self : ArticleProcessor.t) text :
  is_Some (ArticleProcessor.analyze_sentiment self text).
Proof.
  destruct (decide (ArticleProcessor.pos_count text
                    + ArticleProcessor.neg_count text = 0)%nat) as [Hz|Hnz].
  - rewrite analyze_sentiment_zero by done. by eexists.
  - rewrite analyze_sentiment_ratio by lia. by eexists.
Qed.

Lemma generate_summary_total (self : ArticleProcessor.t) text :
  is_Some (ArticleProcessor.generate_summary self text).
Proof.
  destruct (decide (Z.of_nat (length (Py.split_sentences text))
                    ≤ ArticleProcessor.summarize_length self)%Z) as [Hshort|Hlong].
  - unfold ArticleProcessor.generate_summary. cbv zeta.
    rewrite decide_False by apply split_sentences_nonempty.
    rewrite decide_True by done. by eexists.
  - destruct (generate_summary_long_text self text) as (selected & -> & _); [lia|].
    by eexists.
Qed.

(** The stages of [enrich] in terms of the article they start from. *)
Lemma enrich_result (self : ArticleProcessor.t) (a : Article.t) category :
  ArticleProcessor.categorize_article self (Article.content a)
    (ArticleProcessor.extract_keywords self (Article.content a)) = Some category →
  ∃ sentiment summary,
    enrich self a
    = Some (Article.mk (Article.id a) (Article.title a) (Article.url a)
              (Article.source a) (Article.published_date a) (Article.content a)
              category (Article.author a) (Article.image_url a)
              (ArticleProcessor.extract_keywords self (Article.content a))
              (Some summary) sentiment (Article.relevance_scores a)).
Proof.
  intros Hcat.
  destruct (analyze_sentiment_total self (Article.content a)) as [sentiment Hs].
  destruct (generate_summary_total self (Article.content a)) as [summary Hsum].
  exists sentiment, summary. unfold enrich. cbv zeta.
  destruct a as [i t u s p c cat au im kw su se rs].
  cbn [Article.content Article.keywords Article.set_keywords
       Article.set_category Article.set_sentiment_score Article.set_summary
       Article.id Article.title Article.url Article.source
       Article.published_date Article.category Article.author Article.image_url
       Article.summary Article.sentiment_score Article.relevance_scores] in *.
  rewrite Hcat. cbn [mbind option_bind]. rewrite Hs. cbn [mbind option_bind].
  rewrite Hsum. reflexivity.
Qed.

Lemma enrich_unknown_category (self : ArticleProcessor.t) (a : Article.t) :
  ArticleProcessor.categorize_article self (Article.content a)
    (ArticleProcessor.extract_keywords self (Article.content a)) = None →
  enrich self a = None.
Proof.
  intros Hcat. unfold enrich. cbv zeta.
  destruct a as [i t u s p c cat au im kw su se rs].
  cbn [Article.content Article.keywords Article.set_keywords] in *.
  by rewrite Hcat.
Qed.

(** X14. With the category list of the sources no article is lost:
    [process_articles] returns one article per article of the batch,
    in the same order, with identifier, title, address, source, date,
    content, author, image and relevance map as they were, the keywords
    extracted from the content, and a summary. *)
Theorem process_articles_keeps_every_article
    (min_length max_count summary_length : Z) (articles : list Article.t) :
  let self := ArticleProcessor.__init__ None min_length max_count summary_length in
  Forall2
    (λ a b,
       b = Article.mk (Article.id a) (Article.title a) (Article.url a)
             (Article.source a) (Article.published_date a) (Article.content a)
             (Article.category b) (Article.author a) (Article.image_url a)
             (ArticleProcessor.extract_keywords self (Article.content a))
             (Article.summary b) (Article.sentiment_score b)
             (Article.relevance_scores a)
       ∧ is_Some (Article.summary b))
    articles (process_articles self articles).
Proof.
  intros self. rewrite process_articles_each. unfold enrich_each.
  induction articles as [|a articles IH]; [constructor|].
  destruct (categorize_article_spec self (Article.content a)
              (ArticleProcessor.extract_keywords self (Article.content a)))
    as (category & Hcat & _).
  - apply default_categories_nodup.
  - change (NoDup ArticleProcessor._initialize_category_keywords.*1).
    rewrite default_lexicon_names. apply default_categories_nodup.
  - change (ArticleProcessor._initialize_category_keywords.*1
            ⊆ ArticleProcessor.default_categories).
    by rewrite default_lexicon_names.
  - destruct (enrich_result self a category Hcat) as (sentiment & summary & Hen).
    simpl. rewrite Hen. constructor; [|exact IH].
    split; [done|]. by eexists.
Qed.

(** X15. An article whose categorization raises is left out without a
    trace: when a keyword of the content belongs to a lexicon whose name
    is not in the category list, processing a batch gives what
    processing the batch without the articles that have this keyword
    gives. *)
Theorem process_articles_drops_uncategorized
    (self : ArticleProcessor.t) (articles : list Article.t)
    (category keyword : string) (lexicon : gset string) :
  (category, lexicon) ∈ ArticleProcessor.category_keywords self →
  category ∉ ArticleProcessor.categories self →
  keyword ∈ lexicon →
  process_articles self articles
  = process_articles self
      (List.filter
         (λ a, negb (bool_decide
                       (keyword ∈ ArticleProcessor.extract_keywords self
                                    (Article.content a))))
         articles).
Proof.
  intros Hin Hcat Hkw. rewrite !process_articles_each. unfold enrich_each.
  induction articles as [|a articles IH]; [done|].
  simpl. case_bool_decide as Hhit; simpl.
  - rewrite enrich_unknown_category; [exact IH|].
    unfold ArticleProcessor.categorize_article. cbv zeta.
    rewrite (for_each_keyword_missing _ _ _ keyword category lexicon); try done.
    by intros Hkey%zero_scores_keys.
  - destruct (enrich self a); [|exact IH]. simpl. f_equal. exact IH.
Qed.

End Processing.

Section ProcessingExamples.

Local Existing Instance Sample.naive.
Local Existing Instance Sample.nltk.
Local Existing Instance Sample.sklearn.

Lemma process_articles_drops_uncategorized_witness :
  let self := ArticleProcessor.__init__ (Some ["technology"; "science"]) 3 15 3 in
  let batch := [Demo.story "s1" "robot arms"; Demo.story "s2" "merger talks"] in
  Pipeline.process_articles self batch
  = Pipeline.process_articles self
      (List.filter
         (λ a, negb (bool_decide
                       ("merger" ∈ ArticleProcessor.extract_keywords self
                                     (Article.content a))))
         batch).
Proof.
  apply (process_articles_drops_uncategorized
           (ArticleProcessor.__init__ (Some ["technology"; "science"]) 3 15 3)
           [Demo.story "s1" "robot arms"; Demo.story "s2" "merger talks"]
           "business" "merger"
           (ArticleProcessor.lexicon_of
              ArticleProcessor._initialize_category_keywords "business")).
  - right. left.
  - apply (bool_decide_unpack _). vm_compute. exact I.
  - apply (bool_decide_unpack _). vm_compute. exact I.
Defined.

End ProcessingExamples.

(** ** Counting tokens and ranking keywords *)

Section Ranking.

Local Open Scope Qc_scope.

Lemma counter_get_incr w c k :
  Py.counter_get (Py.counter_incr w c) k
    = if decide (k = w) then S (Py.counter_get c k) else Py.counter_get c k.
Proof.
  induction c as [|[k' n] c IH]; simpl.
  - destruct (decide (w = k)) as [->|Hne].
    + by rewrite decide_True.
    + rewrite decide_False; [done|]. by intros ->.
  - destruct (decide (k' = w)) as [->|Hne]; simpl.
    + destruct (decide (w = k)) as [->|Hne'].
      * by rewrite decide_True.
      * rewrite decide_False; [done|]. by intros ->.
    + destruct (decide (k' = k)) as [->|Hne'].
      * rewrite decide_False; [done|]. by intros ->.
      * exact IH.
Qed.

(** A [Counter] holds, for each element, the number of its occurrences. *)
Lemma Counter_get ws k :
  Py.counter_get (Py.Counter ws) k = Py.count (λ w, bool_decide (w = k)) ws.
Proof.
  unfold Py.Counter.
  assert (Hgen : ∀ c,
            Py.counter_get (foldl (λ c w, Py.counter_incr w c) c ws) k
            = (Py.counter_get c k + Py.count (λ w, bool_decide (w = k)) ws)%nat).
  { induction ws as [|w ws IH]; intros c.
    - rewrite count_nil. simpl. lia.
    - simpl. rewrite IH, counter_get_incr, count_cons.
      destruct (decide (k = w)) as [->|Hne].
      + rewrite bool_decide_eq_true_2 by done. lia.
      + rewrite bool_decide_eq_false_2; [lia|]. by intros ->. }
  by rewrite Hgen.
Qed.

Lemma Counter_keys ws k : k ∈ (Py.Counter ws).*1 ↔ k ∈ ws.
Proof.
  unfold Py.Counter.
  assert (Hgen : ∀ c,
            k ∈ (foldl (λ c w, Py.counter_incr w c) c ws).*1 ↔ k ∈ c.*1 ∨ k ∈ ws).
  { induction ws as [|w ws IH]; intros c.
    - simpl. split; [by left|]. intros [?|?%elem_of_nil]; done.
    - simpl. rewrite IH, counter_incr_keys. case_decide as Hin.
      + rewrite elem_of_cons. split; [intros [?|?]; auto|].
        intros [?|[->|?]]; auto.
      + rewrite elem_of_app, list_elem_of_singleton, elem_of_cons.
        split; [intros [[?|?]|?]; auto|intros [?|[?|?]]; auto]. }
  rewrite Hgen. split; [intros [?%elem_of_nil|?]; done|by right].
Qed.

Lemma counter_get_entry (c : list (string * nat)) k n :
  NoDup c.*1 → (k, n) ∈ c → Py.counter_get c k = n.
Proof.
  induction c as [|[k' n'] c IH]; [by intros _ ?%elem_of_nil|].
  rewrite fmap_cons. intros [Hk' Hnd]%NoDup_cons Hin. simpl.
  apply elem_of_cons in Hin as [[= -> ->]|Hin].
  - by rewrite decide_True.
  - rewrite decide_False; [by apply IH|].
    intros ->. apply Hk'. apply list_elem_of_fmap. by exists (k, n).
Qed.

Lemma of_nat_le a b : Py.of_nat a ≤ Py.of_nat b → (a ≤ b)%nat.
Proof.
  unfold Py.of_nat, Qcle. simpl. rewrite <- Zle_Qle. lia.
Qed.

Lemma StronglySorted_fmap_in {A B} (R : relation A) (R' : relation B)
    (f : A → B) (l : list A) :
  (∀ x y, x ∈ l → y ∈ l → R x y → R' (f x) (f y)) →
  StronglySorted R l → StronglySorted R' (f <$> l).
Proof.
  intros Hf Hsorted. induction Hsorted as [|x l Hl IH Hx]; [constructor|].
  rewrite fmap_cons. constructor.
  - apply IH. intros y z Hy Hz. apply Hf; by right.
  - rewrite Forall_fmap. rewrite Forall_forall in Hx |- *.
    intros y Hy. simpl. apply Hf; [left|by right|by apply Hx].
Qed.

Lemma StronglySorted_take {A} (R : relation A) (n : nat) (l : list A) :
  StronglySorted R l → StronglySorted R (take n l).
Proof.
  intros Hsorted. revert n.
  induction Hsorted as [|x l Hl IH Hx]; intros [|n]; simpl; try constructor.
  - apply IH.
  - by apply Forall_take.
Qed.

Lemma most_common_subset n (c : list (string * nat)) k :
  k ∈ Py.most_common n c → k ∈ c.*1.
Proof.
  unfold Py.most_common. rewrite fmap_take. intros Hk.
  rewrite <- (sorted_desc_perm (λ kv : string * nat, Py.of_nat kv.2) c).
  eapply elem_of_sublist; [exact Hk|apply sublist_take].
Qed.

(** [most_common] lists the elements by decreasing count. *)
Lemma most_common_sorted n ws :
  StronglySorted
    (λ a b, Py.count (λ w, bool_decide (w = b)) ws
            ≤ Py.count (λ w, bool_decide (w = a)) ws)%nat
    (Py.most_common n (Py.Counter ws)).
Proof.
  unfold Py.most_common.
  apply (StronglySorted_fmap_in (Py.desc (λ kv : string * nat, Py.of_nat kv.2))).
  - assert (Hin : ∀ kv, kv ∈ take (Z.to_nat n)
                          (Py.sorted_desc (λ kv : string * nat, Py.of_nat kv.2)
                             (Py.Counter ws)) → kv ∈ Py.Counter ws).
    { intros kv Hkv.
      rewrite <- (sorted_desc_perm (λ kv : string * nat, Py.of_nat kv.2)).
      eapply elem_of_sublist; [exact Hkv|apply sublist_take]. }
    intros [k1 n1] [k2 n2] H1%Hin H2%Hin Hdesc.
    apply (counter_get_entry _ _ _ (Counter_nodup ws)) in H1, H2.
    rewrite Counter_get in H1, H2. cbn [fst]. rewrite H1, H2.
    by apply of_nat_le.
  - apply StronglySorted_take, sorted_desc_sorted.
Qed.

(** When the cap is at least the number of entries, [most_common]
    returns every key. *)
Lemma most_common_all n (c : list (string * nat)) k :
  (Z.of_nat (length c) ≤ n)%Z → k ∈ c.*1 → k ∈ Py.most_common n c.
Proof.
  intros Hn Hk. unfold Py.most_common.
  rewrite take_ge by (rewrite (Permutation_length (sorted_desc_perm _ c)); lia).
  by rewrite sorted_desc_perm.
Qed.

End Ranking.

(** ** Keywords of an article *)

Section KeywordFacts.

Context `{Nltk}.

(** X16. Every keyword is the lemma of a token of the lower-cased text
    that passed the filter: the token is not a stop word, is not a
    substring of the punctuation string, has at least the minimum
    length and is not made of digits only.  In [utils/text_utils.py] the
    token is alphabetic, not a stop word and has at least the minimum
    length. *)
Theorem keywords_are_lemmas_of_kept_tokens
    (self : ArticleProcessor.t) (text : string)
    (max_keywords min_length : Z) (keyword : string) :
  (keyword ∈ ArticleProcessor.extract_keywords self text →
   ∃ token,
     token ∈ word_tokenize (Py.lower text)
     ∧ keyword = lemmatize token
     ∧ (token ∉ stopwords_english)
     ∧ Py.contains token Py.punctuation = false
     ∧ (ArticleProcessor.keyword_min_length self
          ≤ Z.of_nat (String.length token))%Z
     ∧ Py.isdigit token = false)
  ∧ (keyword ∈ TextUtils.extract_keywords text max_keywords min_length →
     ∃ token,
       token ∈ word_tokenize (Py.lower (TextUtils.clean_text text))
       ∧ keyword = lemmatize token
       ∧ Py.isalpha token = true
       ∧ (token ∉ stopwords_english)
       ∧ (min_length ≤ Z.of_nat (String.length token))%Z).
Proof.
  split.
  - unfold ArticleProcessor.extract_keywords. cbv zeta.
    intros Hk%most_common_subset. apply (proj1 (Counter_keys _ _)) in Hk.
    apply list_elem_of_fmap in Hk as (token & -> & Htoken).
    apply list_elem_of_In, filter_In in Htoken as [Hin Hkeep].
    exists token. unfold ArticleProcessor.keep_token in Hkeep.
    apply andb_prop in Hkeep as [Hkeep Hdigit].
    apply andb_prop in Hkeep as [Hkeep Hlen].
    apply andb_prop in Hkeep as [Hstop Hpunct].
    split_and!.
    + by apply list_elem_of_In.
    + done.
    + apply negb_true_iff in Hstop. by apply bool_decide_eq_false in Hstop.
    + by apply negb_true_iff.
    + by apply bool_decide_eq_true in Hlen.
    + by apply negb_true_iff.
  - unfold TextUtils.extract_keywords. cbv zeta.
    intros Hk%most_common_subset. apply (proj1 (Counter_keys _ _)) in Hk.
    apply list_elem_of_fmap in Hk as (token & -> & Htoken).
    apply list_elem_of_In, filter_In in Htoken as [Hin Hkeep].
    exists token.
    apply andb_prop in Hkeep as [Hkeep Hlen].
    apply andb_prop in Hkeep as [Halpha Hstop].
    split_and!.
    + by apply list_elem_of_In.
    + done.
    + done.
    + apply negb_true_iff in Hstop. by apply bool_decide_eq_false in Hstop.
    + by apply bool_decide_eq_true in Hlen.
Qed.

(** X17. The keywords come in order of decreasing frequency: a keyword
    never occurs less often among the lemmas of the kept tokens than a
    keyword listed after it. *)
Theorem keywords_by_decreasing_frequency
    (self : ArticleProcessor.t) (text : string) :
  let lemmas :=
    lemmatize <$> List.filter (ArticleProcessor.keep_token self)
                    (word_tokenize (Py.lower text)) in
  StronglySorted
    (λ earlier later,
       Py.count (λ l, bool_decide (l = later)) lemmas
       ≤ Py.count (λ l, bool_decide (l = earlier)) lemmas)%nat
    (ArticleProcessor.extract_keywords self text).
Proof. intros lemmas. apply most_common_sorted. Qed.

Lemma Counter_length ws :
  length (Py.Counter ws) = size (list_to_set ws : gset string).
Proof.
  rewrite <- (length_fmap fst (Py.Counter ws)).
  rewrite <- (size_list_to_set (C := gset string) (Py.Counter ws).*1)
    by apply Counter_nodup.
  f_equal. apply set_eq. intros k.
  by rewrite !elem_of_list_to_set, Counter_keys.
Qed.

(** X18. Below the cap nothing is lost: when the kept tokens have at
    most [keyword_max_count] distinct lemmas, the keywords are exactly
    these lemmas. *)
Theorem keywords_complete_below_cap
    (self : ArticleProcessor.t) (text : string) (keyword : string) :
  let lemmas :=
    lemmatize <$> List.filter (ArticleProcessor.keep_token self)
                    (word_tokenize (Py.lower text)) in
  (Z.of_nat (size (list_to_set lemmas : gset string))
     ≤ ArticleProcessor.keyword_max_count self)%Z →
  keyword ∈ ArticleProcessor.extract_keywords self text ↔ keyword ∈ lemmas.
Proof.
  intros lemmas Hcap. unfold ArticleProcessor.extract_keywords. cbv zeta.
  fold lemmas. split.
  - intros Hk%most_common_subset. by apply (proj1 (Counter_keys _ _)) in Hk.
  - intros Hk. apply most_common_all.
    + by rewrite Counter_length.
    + by apply Counter_keys.
Qed.

(** X19. The keyword list has no duplicates; it has at most
    [keyword_max_count] entries when that number is not negative, and
    none at all when it is zero or negative. *)
Theorem keywords_distinct_and_capped
    (self : ArticleProcessor.t) (text : string) :
  NoDup (ArticleProcessor.extract_keywords self text)
  ∧ ((0 ≤ ArticleProcessor.keyword_max_count self)%Z →
     (Z.of_nat (length (ArticleProcessor.extract_keywords self text))
        ≤ ArticleProcessor.keyword_max_count self)%Z)
  ∧ ((ArticleProcessor.keyword_max_count self ≤ 0)%Z →
     ArticleProcessor.extract_keywords self text = []).
Proof.
  split_and!.
  - apply most_common_nodup, Counter_nodup.
  - apply most_common_length.
  - intros Hneg. unfold ArticleProcessor.extract_keywords, Py.most_common.
    cbv zeta. replace (Z.to_nat _) with 0%nat by lia. done.
Qed.

End KeywordFacts.

Section KeywordFactsExamples.

Local Existing Instance Sample.nltk.

Lemma keywords_complete_below_cap_witness :
  let self := ArticleProcessor.new in
  let text := "markets rose markets fell" in
  let lemmas :=
    lemmatize <$> List.filter (ArticleProcessor.keep_token self)
                    (word_tokenize (Py.lower text)) in
  (Z.of_nat (size (list_to_set lemmas : gset string))
     ≤ ArticleProcessor.keyword_max_count self)%Z
  ∧ ("market" ∈ ArticleProcessor.extract_keywords self text ↔ "market" ∈ lemmas).
Proof.
  split.
  - vm_compute. discriminate.
  - apply (keywords_complete_below_cap ArticleProcessor.new
             "markets rose markets fell" "market").
    vm_compute. discriminate.
Defined.

Example keywords_by_frequency_example :
  ArticleProcessor.extract_keywords ArticleProcessor.new
    "prices rose markets fell markets" = ["market"; "price"; "rose"; "fell"].
Proof. by vm_compute. Qed.

End KeywordFactsExamples.

(** ** Size of a summary, sentence pieces, sentiment at the extremes *)

Section SummaryFacts.

Context `{Nltk}.
Import ArticleProcessor.
Local Open Scope Qc_scope.

Lemma top_indices_length n scores :
  (0 ≤ n)%Z → length (top_indices n scores) = Nat.min (Z.to_nat n) (length scores).
Proof.
  intros Hn. unfold top_indices. cbv zeta.
  rewrite (Permutation_length (sort_nat_perm _)).
  rewrite slice_to_nonneg by done.
  rewrite length_take, (Permutation_length (sorted_desc_perm _ _)).
  by rewrite length_seq.
Qed.

(** X20. A text with more sentences than the target [n >= 0] is
    summarized by exactly [n] of its sentences, in the order of the
    text, joined by single blanks. *)
Theorem generate_summary_has_target_size (self : t) (text : string) :
  (0 ≤ summarize_length self)%Z →
  (summarize_length self < Z.of_nat (length (Py.split_sentences text)))%Z →
  ∃ selected,
    generate_summary self text = Some (Py.join " " selected)
    ∧ selected `sublist_of` Py.split_sentences text
    ∧ length selected = Z.to_nat (summarize_length self).
Proof.
  intros Hn Hlong. unfold generate_summary. cbv zeta.
  rewrite decide_False by apply split_sentences_nonempty.
  rewrite decide_False by lia.
  destruct (sentence_scores_total (_calculate_word_frequencies self text)
              (Py.split_sentences text)) as (scores & -> & Hlen).
  cbn [mbind option_bind].
  destruct (top_indices_increasing (summarize_length self) scores) as [Hsorted Hrange].
  rewrite Hlen in Hrange.
  destruct (lookup_increasing _ _ Hsorted Hrange) as (selected & -> & Hsub & Hsize).
  cbn [mbind option_bind]. exists selected. split; [done|]. split; [done|].
  rewrite Hsize, top_indices_length by done. lia.
Qed.

(** X21. The empty text is summarized by the empty string, whatever the
    target number of sentences and whatever the tokenizer returns. *)
Theorem generate_summary_empty_text (self : t) :
  generate_summary self "" = Some "".
Proof.
  unfold generate_summary. cbv zeta.
  change (Py.split_sentences "") with [""].
  rewrite decide_False by done. case_decide as Hshort; [done|].
  destruct (sentence_scores_total (_calculate_word_frequencies self "") [""])
    as (scores & -> & Hlen).
  cbn [mbind option_bind].
  destruct scores as [|q [|q' scores]]; try done.
  assert (Htop : top_indices (summarize_length self) [q] = []).
  { unfold top_indices, Py.slice_to. cbv zeta. simpl length.
    change (Py.sorted_desc _ (seq 0 1)) with [0%nat].
    case_decide.
    - replace (1 - Z.to_nat (- summarize_length self))%nat with 0%nat
        by (simpl in Hshort; lia). done.
    - replace (Z.to_nat (summarize_length self)) with 0%nat
        by (simpl in Hshort; lia). done. }
  rewrite Htop. done.
Qed.

Lemma removelast_cons {A} (x : A) (l : list A) :
  l ≠ [] → removelast (x :: l) = x :: removelast l.
Proof. by destruct l. Qed.

Lemma rev_app_append (s t : string) :
  String.rev_app s t = String.rev_app s "" +:+ t.
Proof.
  revert t. induction s as [|a s IH]; intros t; [done|].
  simpl. rewrite IH. rewrite (IH (String a "")).
  by rewrite string_app_assoc.
Qed.

Lemma split_sentences_from_pieces in_sep cur s :
  Forall (λ piece,
            ∃ body c, piece = body +:+ String c ""
                      ∧ Py.is_sentence_end c = true)
         (removelast (Py.split_sentences_from in_sep cur s)).
Proof.
  revert in_sep cur. induction s as [|c s IH]; intros in_sep cur.
  - constructor.
  - cbn [Py.split_sentences_from].
    destruct (Py.isspace_ascii c && in_sep); [apply IH|].
    destruct (Py.isspace_ascii c && Py.ends_sentence cur) eqn:Hend; [|apply IH].
    rewrite removelast_cons by apply split_sentences_from_nonempty.
    constructor; [|apply IH].
    apply andb_prop in Hend as [_ Hend].
    destruct cur as [|e cur]; [done|]. exists (String.rev cur), e.
    split; [|done]. unfold String.rev. simpl. apply rev_app_append.
Qed.

(** X22. Every piece that [re.split] cuts off before the last one ends
    with a full stop, an exclamation mark or a question mark. *)
Theorem split_sentences_pieces_end_with_punctuation (text : string) :
  Forall (λ piece,
            ∃ body c, piece = body +:+ String c ""
                      ∧ (c = "." ∨ c = "!" ∨ c = "?")%char)
         (removelast (Py.split_sentences text)).
Proof.
  eapply Forall_impl; [apply split_sentences_from_pieces|].
  intros piece (body & c & -> & Hc). exists body, c. split; [done|].
  unfold Py.is_sentence_end in Hc. by apply bool_decide_eq_true in Hc.
Qed.

(** X23. The extremes of the sentiment score: a text with positive
    words and no negative word scores 1, a text with negative words and
    no positive word scores -1, and equal counts score 0. *)
Theorem analyze_sentiment_extremes (self : t) (text : string) :
  ((0 < pos_count text)%nat → neg_count text = 0%nat →
   analyze_sentiment self text = Some 1)
  ∧ ((0 < neg_count text)%nat → pos_count text = 0%nat →
     analyze_sentiment self text = Some (- (1)))
  ∧ (pos_count text = neg_count text → analyze_sentiment self text = Some 0).
Proof.
  assert (Hdiv : ∀ z : Z, z ≠ 0%Z → Qc_of_Z z / Qc_of_Z z = 1).
  { intros z Hz. rewrite <- (Qcmult_1_l (Qc_of_Z z)) at 1.
    apply Qcdiv_mult_l. intros Heq. apply Hz.
    apply (f_equal this) in Heq. by injection Heq. }
  split_and!.
  - intros Hpos Hneg. rewrite analyze_sentiment_ratio by lia. f_equal.
    rewrite Hneg. unfold Py.of_nat.
    replace (Z.of_nat (pos_count text) - Z.of_nat 0)%Z
      with (Z.of_nat (pos_count text + 0)) by lia.
    apply Hdiv. lia.
  - intros Hneg Hpos. rewrite analyze_sentiment_ratio by lia. f_equal.
    rewrite Hpos. unfold Py.of_nat.
    replace (Z.of_nat 0 - Z.of_nat (neg_count text))%Z
      with (- Z.of_nat (0 + neg_count text))%Z by lia.
    rewrite <- Qc_of_Z_opp.
    set (d := Qc_of_Z _).
    assert (Hd : d / d = 1) by (apply Hdiv; lia).
    unfold Qcdiv in *. rewrite <- Hd. ring.
  - intros Heq.
    destruct (decide (pos_count text + neg_count text = 0)%nat) as [Hz|Hnz].
    + by apply analyze_sentiment_zero.
    + rewrite analyze_sentiment_ratio by lia. f_equal. rewrite Heq.
      replace (Z.of_nat (neg_count text) - Z.of_nat (neg_count text))%Z
        with 0%Z by lia.
      unfold Qcdiv. apply Qcmult_0_l.
Qed.

End SummaryFacts.

Section SummaryFactsExamples.

Local Existing Instance Sample.nltk.

Lemma generate_summary_has_target_size_witness :
  (0 ≤ ArticleProcessor.summarize_length ArticleProcessor.new)%Z
  ∧ (ArticleProcessor.summarize_length ArticleProcessor.new
       < Z.of_nat (length (Py.split_sentences "One a. Two b. Three c. Four d.")))%Z
  ∧ ∃ selected,
      ArticleProcessor.generate_summary ArticleProcessor.new
        "One a. Two b. Three c. Four d." = Some (Py.join " " selected)
      ∧ selected `sublist_of` Py.split_sentences "One a. Two b. Three c. Four d."
      ∧ length selected
          = Z.to_nat (ArticleProcessor.summarize_length ArticleProcessor.new).
Proof.
  split; [vm_compute; discriminate|]. split; [vm_compute; reflexivity|].
  apply (generate_summary_has_target_size ArticleProcessor.new
           "One a. Two b. Three c. Four d.").
  - vm_compute. discriminate.
  - vm_compute. reflexivity.
Defined.

End SummaryFactsExamples.

(** ** Jaccard similarity of two texts *)

Section Similarity.

Context `{Nltk}.
Import TextSimilarity.
Local Open Scope Qc_scope.

Lemma of_nat_inj a b : Py.of_nat a = Py.of_nat b → a = b.
Proof.
  intros Heq. apply (f_equal this) in Heq. unfold Py.of_nat in Heq.
  simpl in Heq. injection Heq. lia.
Qed.

Lemma of_nat_mono a b : (a ≤ b)%nat → Py.of_nat a ≤ Py.of_nat b.
Proof.
  intros Hle. unfold Py.of_nat, Qcle. simpl. rewrite <- Zle_Qle. lia.
Qed.

Lemma of_nat_nonneg a : 0 ≤ Py.of_nat a.
Proof. apply (of_nat_mono 0 a). lia. Qed.

(** The value computed when some content word occurs. *)
Lemma calculate_similarity_quotient text1 text2 :
  size (word_set text1 ∪ word_set text2) ≠ 0%nat →
  calculate_similarity text1 text2
  = Py.of_nat (size (word_set text1 ∩ word_set text2))
    / Py.of_nat (size (word_set text1 ∪ word_set text2)).
Proof.
  intros Hne. unfold calculate_similarity. cbv zeta.
  destruct (decide (size (word_set text1 ∪ word_set text2) = 0%nat)); [done|].
  rewrite py_div_some; [done|].
  intros Hz. apply Hne. by apply (py_of_nat_zero _ Hz).
Qed.

Lemma calculate_similarity_none text1 text2 :
  size (word_set text1 ∪ word_set text2) = 0%nat →
  calculate_similarity text1 text2 = 0.
Proof.
  intros Hz. unfold calculate_similarity. cbv zeta.
  by destruct (decide (size (word_set text1 ∪ word_set text2) = 0%nat)).
Qed.

(** X24. The similarity lies between 0 and 1 and does not depend on the
    order of the two texts. *)
Theorem calculate_similarity_bounded_symmetric (text1 text2 : string) :
  0 ≤ calculate_similarity text1 text2
  ∧ calculate_similarity text1 text2 ≤ 1
  ∧ calculate_similarity text1 text2 = calculate_similarity text2 text1.
Proof.
  split_and!.
  - destruct (decide (size (word_set text1 ∪ word_set text2) = 0%nat)) as [Hz|Hnz].
    + by rewrite calculate_similarity_none.
    + rewrite calculate_similarity_quotient by done.
      apply quotient_nonneg; [apply of_nat_nonneg|apply py_of_nat_pos; lia].
  - destruct (decide (size (word_set text1 ∪ word_set text2) = 0%nat)) as [Hz|Hnz].
    + by rewrite calculate_similarity_none.
    + rewrite calculate_similarity_quotient by done.
      apply quotient_bounds.
      * apply py_of_nat_pos. lia.
      * apply Qcle_trans with 0; [|apply of_nat_nonneg].
        apply (Qcopp_le_compat 0), of_nat_nonneg.
      * apply of_nat_mono, subseteq_size.
        etrans; [apply intersection_subseteq_l|apply union_subseteq_l].
  - unfold calculate_similarity. cbv zeta.
    assert (Hi : word_set text1 ∩ word_set text2 = word_set text2 ∩ word_set text1)
      by apply (comm_L _).
    assert (Hu : word_set text1 ∪ word_set text2 = word_set text2 ∪ word_set text1)
      by apply (comm_L _).
    by rewrite Hi, Hu.
Qed.

(** X25. The similarity is 1 exactly when the two texts have the same,
    non-empty set of content words, and 0 exactly when they share none;
    so a text without content words has similarity 0 with itself. *)
Theorem calculate_similarity_one_and_zero (text1 text2 : string) :
  (calculate_similarity text1 text2 = 1
   ↔ word_set text1 = word_set text2 ∧ word_set text1 ≠ ∅)
  ∧ (calculate_similarity text1 text2 = 0
     ↔ word_set text1 ∩ word_set text2 = ∅).
Proof.
  destruct (decide (size (word_set text1 ∪ word_set text2) = 0%nat)) as [Hz|Hnz].
  - rewrite calculate_similarity_none by done.
    apply size_empty_iff in Hz. apply leibniz_equiv in Hz.
    apply empty_union_L in Hz as [Hz1 Hz2].
    split; split.
    + intros Hq. apply (f_equal this) in Hq. discriminate.
    + by intros [_ Hne].
    + intros _. rewrite Hz1. apply intersection_empty_l_L.
    + done.
  - rewrite calculate_similarity_quotient by done.
    set (i := size (word_set text1 ∩ word_set text2)).
    set (u := size (word_set text1 ∪ word_set text2)) in *.
    assert (Hu : Py.of_nat u ≠ 0).
    { intros Hq. apply Hnz. by apply py_of_nat_zero. }
    assert (Hmul : Py.of_nat i / Py.of_nat u * Py.of_nat u = Py.of_nat i).
    { rewrite Qcmult_comm. by apply Qcmult_div_r. }
    split; split.
    + intros Hq. rewrite Hq, Qcmult_1_l in Hmul. apply of_nat_inj in Hmul.
      assert (Heq : word_set text1 ∩ word_set text2
                    = word_set text1 ∪ word_set text2).
      { apply set_subseteq_size_eq; [|fold i u; lia].
        etrans; [apply intersection_subseteq_l|apply union_subseteq_l]. }
      assert (Hsame : word_set text1 = word_set text2).
      { apply (anti_symm (⊆)).
        - etrans; [apply union_subseteq_l|]. rewrite <- Heq.
          apply intersection_subseteq_r.
        - etrans; [apply union_subseteq_r|]. rewrite <- Heq.
          apply intersection_subseteq_l. }
      split; [done|].
      intros Hempty. apply Hnz. apply size_empty_iff.
      rewrite <- Hsame, Hempty. by rewrite union_idemp_L.
    + intros [Heq Hne].
      assert (Hiu : i = u).
      { unfold i, u. rewrite <- Heq. by rewrite intersection_idemp_L, union_idemp_L. }
      rewrite Hiu. rewrite <- (Qcmult_1_l (Py.of_nat u)) at 1.
      by apply Qcdiv_mult_l.
    + intros Hq. rewrite Hq, Qcmult_0_l in Hmul.
      apply leibniz_equiv, size_empty_iff. fold i.
      symmetry in Hmul. by apply py_of_nat_zero.
    + intros Hempty.
      assert (Hi : i = 0%nat).
      { unfold i. rewrite Hempty. apply size_empty. }
      rewrite Hi. unfold Qcdiv. apply Qcmult_0_l.
Qed.

End Similarity.

(** ** The table of users and its file *)

Section UserTable.

Import UserManager.

Lemma dict_get_set_eq {V} (d : list (string * V)) k v :
  dict_get (dict_set d k v) k = Some v.
Proof.
  induction d as [|[k' v'] d IH]; cbn [dict_set dict_get].
  - by rewrite decide_True.
  - destruct (decide (k' = k)) as [->|Hne]; cbn [dict_get].
    + by rewrite decide_True.
    + by rewrite decide_False.
Qed.

Lemma dict_get_set_ne {V} (d : list (string * V)) k k' v :
  k' ≠ k → dict_get (dict_set d k v) k' = dict_get d k'.
Proof.
  intros Hne. induction d as [|[k0 v0] d IH]; cbn [dict_set dict_get].
  - by rewrite decide_False.
  - destruct (decide (k0 = k)) as [->|Hne0]; cbn [dict_get].
    + by rewrite !decide_False.
    + by rewrite IH.
Qed.

Lemma dict_get_None {V} (d : list (string * V)) k :
  dict_get d k = None ↔ k ∉ d.*1.
Proof.
  induction d as [|[k' v'] d IH]; cbn [dict_get fmap list_fmap fst].
  - split; [intros _; apply not_elem_of_nil|done].
  - rewrite not_elem_of_cons. destruct (decide (k' = k)) as [->|Hne].
    + split; [done|]. by intros [? _].
    + rewrite IH. split; [by intros ?; split|by intros [_ ?]].
Qed.

Lemma dict_get_del_ne {V} (d : list (string * V)) k k' :
  k' ≠ k → dict_get (dict_del d k) k' = dict_get d k'.
Proof.
  intros Hne. induction d as [|[k0 v0] d IH]; cbn [dict_del dict_get]; [done|].
  destruct (decide (k0 = k)) as [->|Hne0]; cbn [dict_get].
  - by rewrite decide_False.
  - by rewrite IH.
Qed.

Lemma dict_get_del_eq {V} (d : list (string * V)) k :
  NoDup d.*1 → dict_get (dict_del d k) k = None.
Proof.
  induction d as [|[k0 v0] d IH]; cbn [dict_del dict_get fmap list_fmap fst];
    [done|].
  intros [Hnotin Hnodup]%NoDup_cons.
  destruct (decide (k0 = k)) as [->|Hne0]; cbn [dict_get].
  - by apply dict_get_None.
  - rewrite decide_False by done. by apply IH.
Qed.

Lemma dict_set_fresh {V} (d : list (string * V)) k v :
  k ∉ d.*1 → dict_set d k v = d ++ [(k, v)].
Proof.
  induction d as [|[k0 v0] d IH]; cbn [dict_set fmap list_fmap fst]; [done|].
  intros [Hne Hnotin]%not_elem_of_cons.
  rewrite decide_False by done. by rewrite IH.
Qed.

(** X26. [create_user] registers the new user under the identifier
    drawn for it, leaves every other entry alone, and writes the whole
    table to the file. *)
Theorem create_user_registers (self : t) (uuid4 name email : string)
    (interests preferred_sources preferred_categories : option (list string))
    (persona : option string) :
  let result := create_user self uuid4 name email interests preferred_sources
                  preferred_categories persona in
  User.id result.1 = uuid4
  ∧ get_user result.2 uuid4 = Some result.1
  ∧ (∀ other, other ≠ uuid4 → get_user result.2 other = get_user self other)
  ∧ users_file result.2 = Some (UserDict.to_dict <$> get_all_users result.2).
Proof.
  cbv zeta. unfold create_user, get_user, get_all_users, _save_users.
  cbn [fst snd users users_file User.id]. split_and!.
  - done.
  - apply dict_get_set_eq.
  - intros other Hne. by apply dict_get_set_ne.
  - done.
Qed.

(** X27. [delete_user] answers whether the identifier was known; after
    it the identifier is unknown and every other entry is as before. *)
Theorem delete_user_removes (self : t) (user_id : string) :
  NoDup (users self).*1 →
  ((delete_user self user_id).1 = true ↔ is_Some (get_user self user_id))
  ∧ get_user (delete_user self user_id).2 user_id = None
  ∧ (∀ other, other ≠ user_id →
       get_user (delete_user self user_id).2 other = get_user self other)
  ∧ ((delete_user self user_id).1 = false → (delete_user self user_id).2 = self).
Proof.
  intros Hnodup. unfold delete_user, get_user. cbv zeta.
  case_bool_decide as Hin; cbn [fst snd users _save_users].
  - split_and!.
    + split; [|done]. intros _.
      destruct (dict_get (users self) user_id) eqn:Hget; [done|].
      by apply dict_get_None in Hget.
    + by apply dict_get_del_eq.
    + intros other Hne. by apply dict_get_del_ne.
    + done.
  - split_and!.
    + split; [done|]. intros [u Hget].
      apply dict_get_None in Hin. by rewrite Hin in Hget.
    + by apply dict_get_None.
    + done.
    + done.
Qed.

Lemma load_each_saved (acc : list (string * User.t)) (us : list User.t) :
  NoDup (acc.*1 ++ (User.id <$> us)) →
  load_each acc (UserDict.to_dict <$> us) = acc ++ ((λ u, (User.id u, u)) <$> us).
Proof.
  revert acc. induction us as [|u us IH]; intros acc Hnodup.
  - cbn. by rewrite app_nil_r.
  - rewrite !fmap_cons. cbn [load_each]. rewrite user_dict_round_trip.
    rewrite fmap_cons in Hnodup.
    assert (Hfresh : User.id u ∉ acc.*1).
    { apply NoDup_app in Hnodup as (_ & Hdisj & _). intros Hin.
      apply (Hdisj _ Hin). left. }
    rewrite dict_set_fresh by done. rewrite IH.
    + by rewrite <- app_assoc.
    + rewrite fmap_app, <- app_assoc. exact Hnodup.
Qed.

(** X28. A table written by [_save_users] and read back by
    [_load_users] into an empty manager is the table that was saved,
    entry for entry and in the same order, when every user is filed
    under their own identifier. *)
Theorem saved_users_reload (self : t) :
  NoDup (users self).*1 →
  Forall (λ entry, entry.1 = User.id entry.2) (users self) →
  users (_load_users (mk [] (users_file (_save_users self)))) = users self.
Proof.
  intros Hnodup Hkeys. unfold _load_users, _save_users.
  cbn [users users_file].
  assert (Hids : User.id <$> (users self).*2 = (users self).*1).
  { clear Hnodup. induction Hkeys as [|[k u] l Hk _ IH]; [done|].
    rewrite !fmap_cons. cbn [fst snd] in *. by rewrite IH, Hk. }
  rewrite load_each_saved.
  - cbn [app]. clear Hnodup Hids.
    induction Hkeys as [|[k u] l Hk _ IH]; [done|].
    rewrite !fmap_cons. cbn [fst snd] in *. by rewrite IH, Hk.
  - cbn [fmap list_fmap app]. by rewrite Hids.
Qed.

Lemma delete_user_removes_witness :
  NoDup (users Demo.registry).*1
  ∧ get_user (delete_user Demo.registry "u1").2 "u1" = None.
Proof.
  assert (Hnodup : NoDup (users Demo.registry).*1).
  { apply (bool_decide_unpack _). vm_compute. exact I. }
  split; [exact Hnodup|].
  exact (proj1 (proj2 (delete_user_removes Demo.registry "u1" Hnodup))).
Defined.

Lemma saved_users_reload_witness :
  NoDup (users Demo.registry).*1
  ∧ Forall (λ entry, entry.1 = User.id entry.2) (users Demo.registry)
  ∧ users (_load_users (mk [] (users_file (_save_users Demo.registry))))
    = users Demo.registry.
Proof.
  assert (Hnodup : NoDup (users Demo.registry).*1).
  { apply (bool_decide_unpack _). vm_compute. exact I. }
  assert (Hkeys : Forall (λ entry, entry.1 = User.id entry.2)
                         (users Demo.registry)).
  { cbn. repeat constructor. }
  split; [exact Hnodup|]. split; [exact Hkeys|].
  exact (saved_users_reload Demo.registry Hnodup Hkeys).
Defined.

End UserTable.

(** ** Grouping and rendering of a newsletter *)

Section NewsletterFacts.

Context `{Clock} {datetime_eq : EqDecision datetime}.
Import Newsletter.

Lemma elem_of_concat {A} (x : A) (ls : list (list A)) :
  x ∈ concat ls ↔ ∃ l, l ∈ ls ∧ x ∈ l.
Proof.
  rewrite list_elem_of_In, in_concat. split.
  - intros (l & Hl & Hx). exists l. by rewrite !list_elem_of_In.
  - intros (l & Hl & Hx). exists l. by rewrite <- !list_elem_of_In.
Qed.

Lemma group_add_fresh a groups :
  Article.category a ∉ groups.*1 →
  group_add a groups = groups ++ [(Article.category a, [a])].
Proof.
  induction groups as [|[c arts] groups IH]; cbn [group_add fmap list_fmap fst];
    [done|].
  intros [Hne Hnotin]%not_elem_of_cons.
  rewrite decide_False by done. by rewrite IH.
Qed.

Lemma group_add_known a groups1 arts groups2 :
  Article.category a ∉ groups1.*1 →
  group_add a (groups1 ++ (Article.category a, arts) :: groups2)
  = groups1 ++ (Article.category a, arts ++ [a]) :: groups2.
Proof.
  induction groups1 as [|[c arts1] groups1 IH];
    cbn [group_add fmap list_fmap fst app].
  - intros _. by rewrite decide_True.
  - intros [Hne Hnotin]%not_elem_of_cons.
    rewrite decide_False by done. by rewrite IH.
Qed.

Lemma group_key_split (groups : list (string * list Article.t)) c :
  c ∈ groups.*1 →
  ∃ groups1 arts groups2,
    groups = groups1 ++ (c, arts) :: groups2 ∧ c ∉ groups1.*1.
Proof.
  induction groups as [|[c0 arts0] groups IH]; cbn [fmap list_fmap fst].
  - by intros ?%elem_of_nil.
  - intros Hin. destruct (decide (c0 = c)) as [->|Hne].
    + exists [], arts0, groups. split; [done|]. apply not_elem_of_nil.
    + apply elem_of_cons in Hin as [->|Hin]; [done|].
      destruct (IH Hin) as (g1 & arts & g2 & -> & Hnotin).
      exists ((c0, arts0) :: g1), arts, g2. split; [done|].
      cbn [fmap list_fmap fst]. apply not_elem_of_cons. split; [done|].
      exact Hnotin.
Qed.

Lemma all_articles_app groups1 groups2 :
  all_articles (groups1 ++ groups2)
  = all_articles groups1 ++ all_articles groups2.
Proof. unfold all_articles. by rewrite fmap_app, concat_app. Qed.

Lemma filter_other_category c a (selected : list Article.t) :
  c ≠ Article.category a →
  filter (λ a', Article.category a' = c) (selected ++ [a])
  = filter (λ a', Article.category a' = c) selected.
Proof.
  intros Hne. rewrite filter_app, filter_cons_False by done.
  by rewrite filter_nil, app_nil_r.
Qed.

Lemma filter_same_category a (selected : list Article.t) :
  filter (λ a', Article.category a' = Article.category a) (selected ++ [a])
  = filter (λ a', Article.category a' = Article.category a) selected ++ [a].
Proof. rewrite filter_app, filter_cons_True by done. by rewrite filter_nil. Qed.

Lemma grouped_keys selected groups a :
  grouped selected groups → a ∈ selected → Article.category a ∈ groups.*1.
Proof.
  intros (_ & Hall & Hperm) Hin. rewrite <- Hperm in Hin.
  unfold all_articles in Hin. apply elem_of_concat in Hin as (arts & Harts & Hin).
  apply list_elem_of_fmap in Harts as ([c arts'] & -> & Hgroup).
  rewrite Forall_forall in Hall. destruct (Hall _ Hgroup) as [_ Heq].
  cbn [fst snd] in *. rewrite Heq in Hin.
  apply list_elem_of_filter in Hin as [<- _].
  apply list_elem_of_fmap. by exists (Article.category a, arts').
Qed.

Lemma grouped_step selected groups a :
  grouped selected groups → grouped (selected ++ [a]) (group_add a groups).
Proof.
  intros Hinv. pose proof Hinv as (Hnodup & Hall & Hperm). unfold grouped.
  destruct (decide (Article.category a ∈ groups.*1)) as [Hin|Hnotin].
  - destruct (group_key_split _ _ Hin) as (g1 & arts & g2 & -> & Hfresh).
    rewrite group_add_known by done.
    rewrite fmap_app, fmap_cons in Hnodup. cbn [fst] in Hnodup.
    apply NoDup_app in Hnodup as (Hnd1 & Hdisj & Hnd2).
    apply NoDup_cons in Hnd2 as [Hnotin2 Hnd2].
    apply Forall_app in Hall as [Hall1 Hall2].
    apply Forall_cons in Hall2 as [[Hne Harts] Hall2]. cbn [fst snd] in *.
    split_and!.
    + rewrite fmap_app, fmap_cons. cbn [fst].
      apply NoDup_app. split_and!; [done|done|]. by apply NoDup_cons.
    + apply Forall_app. split; [|apply Forall_cons; split].
      * rewrite Forall_forall in Hall1 |- *. intros [c arts1] Hg.
        destruct (Hall1 _ Hg) as [Hne1 Heq1]. cbn [fst snd] in *.
        split; [done|]. rewrite filter_other_category; [done|].
        intros ->. apply Hfresh. apply list_elem_of_fmap.
        by exists (Article.category a, arts1).
      * cbn [fst snd]. split; [by destruct arts|].
        by rewrite filter_same_category, <- Harts.
      * rewrite Forall_forall in Hall2 |- *. intros [c arts2] Hg.
        destruct (Hall2 _ Hg) as [Hne2 Heq2]. cbn [fst snd] in *.
        split; [done|]. rewrite filter_other_category; [done|].
        intros ->. apply Hnotin2. apply list_elem_of_fmap.
        by exists (Article.category a, arts2).
    + rewrite <- Hperm. rewrite !all_articles_app.
      unfold all_articles. rewrite !fmap_cons. cbn [snd concat].
      rewrite <- !app_assoc. apply Permutation_app_head.
      apply Permutation_app_head. apply Permutation_app_comm.
  - rewrite group_add_fresh by done. split_and!.
    + rewrite fmap_app. cbn [fmap list_fmap fst].
      apply NoDup_app. split_and!; [done| |apply NoDup_singleton].
      intros c Hc ->%list_elem_of_singleton. done.
    + apply Forall_app. split; [|apply Forall_singleton].
      * rewrite Forall_forall in Hall |- *. intros [c arts1] Hg.
        destruct (Hall _ Hg) as [Hne1 Heq1]. cbn [fst snd] in *.
        split; [done|]. rewrite filter_other_category; [done|].
        intros ->. apply Hnotin. apply list_elem_of_fmap.
        by exists (Article.category a, arts1).
      * cbn [fst snd]. split; [done|]. rewrite filter_same_category.
        assert (Hempty : filter (λ a', Article.category a' = Article.category a)
                           selected = []).
        { destruct (filter _ selected) as [|a' l] eqn:Hfilter; [done|].
          assert (Ha' : a' ∈ filter (λ a', Article.category a' = Article.category a)
                                  selected) by (rewrite Hfilter; left).
          apply list_elem_of_filter in Ha' as [Hcat Hsel].
          destruct Hnotin. rewrite <- Hcat. by eapply grouped_keys. }
        by rewrite Hempty.
    + rewrite all_articles_app. unfold all_articles at 2.
      cbn [fmap list_fmap snd concat]. rewrite app_nil_r. by rewrite Hperm.
Qed.

Lemma categorize_snoc selected a :
  categorize (selected ++ [a]) = group_add a (categorize selected).
Proof. unfold categorize. by rewrite foldl_app. Qed.

Lemma categorize_groups_by_category_aux (selected : list Article.t) :
  grouped selected (categorize selected).
Proof.
  induction selected as [|a selected IH] using rev_ind.
  - split_and!; [constructor|constructor|done].
  - rewrite categorize_snoc. by apply grouped_step.
Qed.

(** X29. The grouping loop makes one group for each category that
    occurs: the group of a category holds exactly the selected articles
    of that category, in their order; no group is empty, no category
    has two groups, and no article is lost or repeated. *)
Theorem categorize_groups_by_category (selected_articles : list Article.t) :
  NoDup (categorize selected_articles).*1
  ∧ Forall (λ group : string * list Article.t,
              group.2 ≠ []
              ∧ group.2 = filter (λ a, Article.category a = group.1)
                            selected_articles)
           (categorize selected_articles)
  ∧ all_articles (categorize selected_articles) ≡ₚ selected_articles.
Proof. exact (categorize_groups_by_category_aux selected_articles). Qed.

Lemma heading_in_section_entry a : heading a ∈ section_entry a.
Proof. unfold section_entry. cbn [app]. left. Qed.

Lemma heading_in_top_entry a : heading a ∈ top_entry a.
Proof. unfold top_entry. cbn [app]. left. Qed.

Lemma heading_in_category_section top category articles a :
  a ∈ articles → a ∉ top →
  heading a ∈ category_section top (category, articles).
Proof.
  intros Hin Hnottop. unfold category_section.
  assert (Hcond : bool_decide (articles = [])
                  || forallb (λ a, bool_decide (a ∈ top)) articles = false).
  { apply orb_false_iff. split.
    - apply bool_decide_eq_false. intros ->. by apply elem_of_nil in Hin.
    - apply not_true_is_false. intros Hall.
      rewrite forallb_forall in Hall. apply list_elem_of_In in Hin.
      specialize (Hall _ Hin). by apply bool_decide_eq_true in Hall. }
  rewrite Hcond. apply elem_of_app. right. apply elem_of_app. left.
  apply elem_of_concat. exists (section_entry a).
  split; [|apply heading_in_section_entry].
  apply list_elem_of_fmap. exists a. split; [|done].
  by rewrite bool_decide_eq_false_2.
Qed.

Lemma heading_rendered user groups a :
  a ∈ all_articles groups → heading a ∈ markdown_lines user groups.
Proof.
  intros Hin. unfold markdown_lines. cbv zeta.
  set (top := top_articles user groups).
  apply elem_of_app. right.
  destruct (decide (a ∈ top)) as [Htop|Hnottop].
  - apply elem_of_app. left. apply elem_of_concat. exists (top_entry a).
    split; [|apply heading_in_top_entry].
    apply list_elem_of_fmap. by exists a.
  - apply elem_of_app. right. apply elem_of_app. right.
    apply elem_of_app. left.
    unfold all_articles in Hin.
    apply elem_of_concat in Hin as (arts & Harts & Hin).
    apply list_elem_of_fmap in Harts as ([c arts'] & -> & Hgroup).
    cbn [snd] in Hin. apply elem_of_concat.
    exists (category_section top (c, arts')).
    split; [|by apply heading_in_category_section].
    apply list_elem_of_fmap. by exists (c, arts').
Qed.

(** X30. Every article selected for a newsletter is rendered: the line
    with its linked title occurs in the Markdown text, among the top
    stories or in the section of its category. *)
Theorem every_selected_article_is_rendered (user : User.t)
    (articles : list Article.t) (max_articles : option Z) :
  Forall (λ a,
            heading a
            ∈ markdown_lines user
                (categorize (NewsletterGenerator.selected_articles user articles
                               max_articles)))
         (NewsletterGenerator.selected_articles user articles max_articles).
Proof.
  apply Forall_forall. intros a Hin. apply heading_rendered.
  destruct (categorize_groups_by_category_aux
              (NewsletterGenerator.selected_articles user articles max_articles))
    as (_ & _ & Hperm).
  by rewrite Hperm.
Qed.

End NewsletterFacts.

Section NewsletterExamples.

Local Existing Instance Sample.naive.
Local Existing Instance Demo.clock.
Local Existing Instance Demo.naive_datetime_eq.

(** Two articles tie behind the first one; the section of a category
    whose articles are all among the top stories is left out. *)
Example sample_newsletter_headings :
  filter (λ line, String.prefix "##" line = true)
    (Newsletter.markdown_lines Sample.reader
       (Newsletter.categorize
          (NewsletterGenerator.selected_articles Sample.reader Demo.shelf None)))
  = [ "### 2024-03-01T06:00:00";
      "## Today's Top Stories";
      "### [Story a1](https://example.org/a1)";
      "### [Story a3](https://example.org/a3)";
      "### [Story a2](https://example.org/a2)";
      "## Business";
      "### [Story a5](https://example.org/a5)";
      "## Science";
      "### [Story a4](https://example.org/a4)";
      "## Your Newsletter Preferences" ].
Proof. by vm_compute. Qed.

End NewsletterExamples.

(** ** A text that ends in white space *)

Section SummaryBoundary.

Context `{Nltk}.
Import ArticleProcessor.
Local Open Scope Qc_scope.

Lemma insert_desc_snoc {A} (key : A → Qc) x l z :
  key z ≤ key x →
  Py.insert_desc key x (l ++ [z]) = Py.insert_desc key x l ++ [z].
Proof.
  intros Hz. induction l as [|y l IH]; cbn [Py.insert_desc app].
  - rewrite decide_False; [done|]. by apply Qcle_not_lt.
  - case_decide; [by rewrite IH|done].
Qed.

(** A last element whose key is the smallest stays last. *)
Lemma sorted_desc_snoc {A} (key : A → Qc) l z :
  Forall (λ y, key z ≤ key y) l →
  Py.sorted_desc key (l ++ [z]) = Py.sorted_desc key l ++ [z].
Proof.
  unfold Py.sorted_desc. induction 1 as [|x l Hx _ IH]; [done|].
  cbn [foldr app]. rewrite IH. by apply insert_desc_snoc.
Qed.

Lemma seq_sorted j n : StronglySorted le (seq j n).
Proof.
  revert j. induction n as [|n IH]; intros j; [constructor|].
  cbn [seq]. constructor; [apply IH|].
  apply Forall_seq. intros i Hi. lia.
Qed.

Lemma sentence_score_nonneg word_freq sentence q :
  sentence_score word_freq sentence = Some q → 0 ≤ q.
Proof.
  unfold sentence_score. cbv zeta. case_bool_decide as Hlen.
  - rewrite py_div_some by (intros Hz%py_of_nat_zero; lia).
    intros [= <-]. apply quotient_nonneg; [|by apply py_of_nat_pos].
    apply (Qc_of_Z_le 0). lia.
  - by intros [= <-].
Qed.

Lemma sentence_score_empty word_freq :
  word_tokenize "" = [] → sentence_score word_freq "" = Some 0.
Proof.
  intros Htok. unfold sentence_score. cbv zeta.
  change (Py.lower "") with "". by rewrite Htok.
Qed.

(** With the score 0 in the last place and no negative score, the
    indices selected for a target one below the number of scores are
    all but the last. *)
Lemma top_indices_all_but_last (scores : list Qc) :
  Forall (λ q, 0 ≤ q) scores →
  top_indices (Z.of_nat (length scores)) (scores ++ [0])
  = seq 0 (length scores).
Proof.
  intros Hnonneg. unfold top_indices. cbv zeta.
  rewrite length_app. cbn [length]. rewrite Nat.add_1_r, seq_S. cbn [Nat.add].
  set (key := λ i : nat, default 0 ((scores ++ [0]) !! i)).
  rewrite (sorted_desc_snoc key).
  - rewrite slice_to_nonneg, Nat2Z.id by lia.
    rewrite take_app_length'
      by (by rewrite (Permutation_length (sorted_desc_perm _ _)), length_seq).
    apply (StronglySorted_unique le).
    + apply (StronglySorted_merge_sort _).
    + apply seq_sorted.
    + by rewrite sort_nat_perm, sorted_desc_perm.
  - apply Forall_seq. intros i Hi. unfold key.
    rewrite (lookup_app_r scores) by lia.
    rewrite Nat.sub_diag. cbn [lookup list_lookup default id].
    destruct (lookup_lt_is_Some_2 scores i) as [q Hq]; [lia|].
    rewrite (lookup_app_l_Some _ _ _ _ Hq). cbn [default id].
    rewrite Forall_forall in Hnonneg. apply Hnonneg.
    by eapply list_elem_of_lookup_2.
Qed.

Lemma lookup_each_prefix {A} (l rest : list A) :
  mapM (λ i, (l ++ rest) !! i) (seq 0 (length l)) = Some l.
Proof.
  apply mapM_Some, Forall2_same_length_lookup.
  split; [apply length_seq|]. intros i x y Hx Hy.
  apply lookup_seq in Hx as [-> _]. by apply lookup_app_l_Some.
Qed.

Lemma string_length_app (s1 s2 : string) :
  String.length (s1 +:+ s2) = (String.length s1 + String.length s2)%nat.
Proof.
  induction s1 as [|c s1 IH]; [done|].
  change (S (String.length (s1 +:+ s2))
          = S (String.length s1 + String.length s2)). by rewrite IH.
Qed.

Lemma rev_app_length (s t : string) :
  String.length (String.rev_app s t) = (String.length s + String.length t)%nat.
Proof.
  revert t. induction s as [|c s IH]; intros t; [done|].
  cbn [String.rev_app String.length]. rewrite IH. cbn [String.length]. lia.
Qed.

Lemma join_cons sep p rest :
  rest ≠ [] → Py.join sep (p :: rest) = p +:+ sep +:+ Py.join sep rest.
Proof. by destruct rest. Qed.

Lemma join_snoc sep parts p :
  parts ≠ [] → Py.join sep (parts ++ [p]) = Py.join sep parts +:+ sep +:+ p.
Proof.
  induction parts as [|a [|b parts] IH]; intros Hne; [done|done|].
  change ((a :: b :: parts) ++ [p]) with (a :: ((b :: parts) ++ [p])).
  rewrite join_cons by done. rewrite IH by done.
  rewrite (join_cons sep a (b :: parts)) by done.
  by rewrite !string_app_assoc.
Qed.

(** The pieces joined by single blanks are never longer than what was
    read. *)
Lemma split_sentences_from_length in_sep cur s :
  (String.length (Py.join " " (Py.split_sentences_from in_sep cur s))
   ≤ String.length cur + String.length s)%nat.
Proof.
  revert in_sep cur. induction s as [|c s IH]; intros in_sep cur.
  - cbn [Py.split_sentences_from Py.join String.length].
    unfold String.rev. rewrite rev_app_length. cbn [String.length]. lia.
  - cbn [Py.split_sentences_from String.length].
    destruct (Py.isspace_ascii c && in_sep).
    { specialize (IH true cur). lia. }
    destruct (Py.isspace_ascii c && Py.ends_sentence cur).
    + rewrite join_cons by apply split_sentences_from_nonempty.
      rewrite !string_length_app. unfold String.rev at 1.
      rewrite rev_app_length. specialize (IH true ""%string).
      cbn [String.length] in *. lia.
    + specialize (IH false (String c cur)). cbn [String.length] in IH. lia.
Qed.

(** C5. A text with exactly as many sentences as the target is not
    returned unchanged when white space follows its last sentence.
    [re.split] then returns one more piece, the empty string, so the
    test [len(sentences) <= summarize_length] fails; the empty piece
    scores 0 and ranks last, and the summary is the sentences joined by
    single blanks, a string different from the text.  ([word_tokenize]
    is assumed to find no token in the empty string.) *)
Theorem generate_summary_trailing_space (self : t) (text : string)
    (sentences : list string) :
  word_tokenize "" = [] →
  sentences ≠ [] →
  Py.split_sentences text = sentences ++ [""] →
  summarize_length self = Z.of_nat (length sentences) →
  generate_summary self text = Some (Py.join " " sentences)
  ∧ Py.join " " sentences ≠ text.
Proof.
  intros Htok Hne Hsplit Hn. split.
  - unfold generate_summary. cbv zeta. rewrite Hsplit.
    rewrite decide_False by (by destruct sentences).
    rewrite decide_False by (rewrite length_app; cbn [length]; lia).
    destruct (sentence_scores_total (_calculate_word_frequencies self text)
                (sentences ++ [""])) as (scores & Hscores & _).
    rewrite Hscores. cbn [mbind option_bind].
    apply mapM_Some, Forall2_app_inv_l in Hscores
      as (scores' & last & Hfirst & Hlast & ->).
    apply Forall2_cons_inv_l in Hlast as (q & rest & Hq & Hrest & ->).
    apply Forall2_nil_inv_l in Hrest as ->.
    rewrite (sentence_score_empty _ Htok) in Hq. injection Hq as <-.
    assert (Hnonneg : Forall (λ q, 0 ≤ q) scores').
    { clear -Hfirst. induction Hfirst as [|s q ss qs Hq _ IH]; [constructor|].
      constructor; [by eapply sentence_score_nonneg|done]. }
    rewrite Hn, (Forall2_length _ _ _ Hfirst).
    rewrite top_indices_all_but_last by done.
    rewrite <- (Forall2_length _ _ _ Hfirst).
    by rewrite lookup_each_prefix.
  - intros Heq.
    pose proof (split_sentences_from_length false "" text) as Hlen.
    fold (Py.split_sentences text) in Hlen.
    rewrite Hsplit, join_snoc, Heq in Hlen by done.
    rewrite !string_length_app in Hlen. cbn [String.length] in Hlen. lia.
Qed.

End SummaryBoundary.

Section SummaryBoundaryExamples.

Import ArticleProcessor.
Local Existing Instance Sample.nltk.

Lemma generate_summary_trailing_space_witness :
  word_tokenize "" = []
  ∧ ["Rates rose."; "Markets fell."; "Oil held."] ≠ []
  ∧ Py.split_sentences "Rates rose. Markets fell. Oil held. "
    = ["Rates rose."; "Markets fell."; "Oil held."] ++ [""]
  ∧ summarize_length new
    = Z.of_nat (length ["Rates rose."; "Markets fell."; "Oil held."])
  ∧ generate_summary new "Rates rose. Markets fell. Oil held. "
    = Some (Py.join " " ["Rates rose."; "Markets fell."; "Oil held."])
  ∧ Py.join " " ["Rates rose."; "Markets fell."; "Oil held."]
    ≠ "Rates rose. Markets fell. Oil held. ".
Proof.
  split; [reflexivity|]. split; [discriminate|].
  split; [vm_compute; reflexivity|]. split; [reflexivity|].
  apply (generate_summary_trailing_space new
           "Rates rose. Markets fell. Oil held. "
           ["Rates rose."; "Markets fell."; "Oil held."]).
  - reflexivity.
  - discriminate.
  - vm_compute. reflexivity.
  - reflexivity.
Defined.

(** Three sentences and the default target of three: without the final
    blank the text comes back as it is, with it the blank is lost. *)
Example generate_summary_trailing_space_example :
  generate_summary new "Rates rose. Markets fell. Oil held."
    = Some "Rates rose. Markets fell. Oil held."
  ∧ generate_summary new "Rates rose. Markets fell. Oil held. "
    = Some "Rates rose. Markets fell. Oil held.".
Proof. by vm_compute. Qed.

End SummaryBoundaryExamples.
